(** * Transcript extraction pipeline: embedding and verification

    Shallow embedding of [skills/summarize/scripts/extract_youtube_transcript.py].

    Conventions of the embedding:
    - a Python [str] is a [string]: a sequence of characters with code
      points 0..255;
    - a call that may raise returns a [result]: [Ret v] for a normal
      return, [Raise e] for an exception that leaves the function;
    - values decoded from JSON are [json] trees, and the dynamic
      operations the script applies to them ([.get], truth test,
      iteration, [int()], indexing) are the functions of module [Py];
    - functions of the Python standard library whose text is not part of
      the script ([json.loads], [html.unescape], [urlparse], [parse_qs],
      [urlencode]) are the fields of the class [Library]; every general
      theorem holds for all implementations of it, and module [Ref]
      gives one implementation used to evaluate concrete inputs;
    - the network is an oracle that answers a request given the requests
      made before it; the log of requests is passed along explicitly. *)

From Stdlib Require Import String Ascii List ZArith Bool Arith Lia.
From Stdlib Require Import Permutation Sorted.
From Stdlib Require Import DecimalString DecimalZ DecimalPos.
Import ListNotations.

Set Warnings "-register-all".

Open Scope string_scope.
Open Scope list_scope.

(** ** Exceptions and results *)

Inductive exn : Type :=
| AttributeError
| TypeError
| ValueError
| OverflowError
| KeyError
| IndexError
| JSONDecodeError
| RecursionError
| URLError.

Inductive result (A : Type) : Type :=
| Ret (a : A)
| Raise (e : exn).

Arguments Ret {A} a.
Arguments Raise {A} e.

Definition bind {A B : Type} (r : result A) (k : A -> result B) : result B :=
  match r with
  | Ret a => k a
  | Raise e => Raise e
  end.

Notation "x <- r ;; k" := (bind r (fun x => k))
  (at level 61, r at next level, right associativity).

Definition exn_eqb (a b : exn) : bool :=
  match a, b with
  | AttributeError, AttributeError | TypeError, TypeError
  | ValueError, ValueError | OverflowError, OverflowError
  | KeyError, KeyError | IndexError, IndexError
  | JSONDecodeError, JSONDecodeError | RecursionError, RecursionError
  | URLError, URLError => true
  | _, _ => false
  end.

(** [try: body except (e1, e2, ...): handler] *)
Definition try_except {A : Type} (body : result A) (caught : list exn)
    (handler : result A) : result A :=
  match body with
  | Ret a => Ret a
  | Raise e => if existsb (exn_eqb e) caught then handler else Raise e
  end.

(** [try: body except Exception: handler]: every exception of [exn] is a
    subclass of [Exception]. *)
Definition try_except_Exception {A : Type} (body handler : result A) : result A :=
  match body with
  | Ret a => Ret a
  | Raise _ => handler
  end.

(** ** Python string operations *)

Module Str.

(** [s[n:]] *)
Fixpoint drop (n : nat) (s : string) : string :=
  match n, s with
  | O, _ => s
  | S _, EmptyString => EmptyString
  | S n', String _ s' => drop n' s'
  end.

(** [s[:n]] *)
Fixpoint take (n : nat) (s : string) : string :=
  match n, s with
  | O, _ => EmptyString
  | S _, EmptyString => EmptyString
  | S n', String c s' => String c (take n' s')
  end.

(** [s[a:b]] for [0 <= a], [0 <= b] *)
Definition slice (s : string) (a b : nat) : string := take (b - a) (drop a s).

(** [s.startswith(p)] *)
Fixpoint startswith (p s : string) : bool :=
  match p, s with
  | EmptyString, _ => true
  | String _ _, EmptyString => false
  | String a p', String b s' => Ascii.eqb a b && startswith p' s'
  end.

(** index of the first occurrence of [sub] in [s] *)
Fixpoint find (sub s : string) : option nat :=
  if startswith sub s then Some O
  else match s with
       | EmptyString => None
       | String _ s' => option_map S (find sub s')
       end.

(** [s.find(sub, start)] for [0 <= start]; [None] is Python's [-1] *)
Definition find_from (sub s : string) (start : nat) : option nat :=
  if Nat.leb start (String.length s)
  then option_map (Nat.add start) (find sub (drop start s))
  else None.

(** [sub in s] *)
Definition contains (sub s : string) : bool :=
  match find sub s with Some _ => true | None => false end.

(** [str.isspace] on one character: 9..13, 28..32, 133 and 160 *)
Definition isspace (c : ascii) : bool :=
  let n := nat_of_ascii c in
  (Nat.leb 9 n && Nat.leb n 13) || (Nat.leb 28 n && Nat.leb n 32)
  || Nat.eqb n 133 || Nat.eqb n 160.

Fixpoint lstrip_by (p : ascii -> bool) (s : string) : string :=
  match s with
  | EmptyString => EmptyString
  | String c s' => if p c then lstrip_by p s' else s
  end.

(** strips at the right end: a character is dropped when everything
    after it is dropped and it satisfies [p] *)
Fixpoint rstrip_by (p : ascii -> bool) (s : string) : string :=
  match s with
  | EmptyString => EmptyString
  | String c s' =>
      match rstrip_by p s' with
      | EmptyString => if p c then EmptyString else String c EmptyString
      | r => String c r
      end
  end.

Definition strip_by (p : ascii -> bool) (s : string) : string :=
  rstrip_by p (lstrip_by p s).

(** [s.strip()] *)
Definition strip (s : string) : string := strip_by isspace s.

(** [s.strip(c)] for a one-character argument *)
Definition strip_char (c : ascii) (s : string) : string := strip_by (Ascii.eqb c) s.

(** [s.split(c)] for a one-character separator: never the empty list *)
Fixpoint split (c : ascii) (s : string) : list string :=
  match s with
  | EmptyString => [EmptyString]
  | String a s' =>
      if Ascii.eqb a c then EmptyString :: split c s'
      else match split c s' with
           | [] => [String a EmptyString]
           | w :: ws => String a w :: ws
           end
  end.

(** [re.sub(r"\s+", " ", s)]: every maximal run of whitespace becomes one
    space. [prev_space] tells that the previous character was whitespace. *)
Fixpoint collapse_ws_aux (prev_space : bool) (s : string) : string :=
  match s with
  | EmptyString => EmptyString
  | String c s' =>
      if isspace c
      then if prev_space then collapse_ws_aux true s'
           else String " " (collapse_ws_aux true s')
      else String c (collapse_ws_aux false s')
  end.

Definition collapse_ws (s : string) : string := collapse_ws_aux false s.

(** [sep.join(parts)] with [sep = ""] *)
Definition join (parts : list string) : string :=
  fold_right String.append EmptyString parts.

(** [str.lower] on one character: A..Z and the capital letters
    192..222 (215, the multiplication sign, apart) *)
Definition lower_char (c : ascii) : ascii :=
  let n := nat_of_ascii c in
  if (Nat.leb 65 n && Nat.leb n 90)
     || (Nat.leb 192 n && Nat.leb n 222 && negb (Nat.eqb n 215))
  then ascii_of_nat (n + 32) else c.

Fixpoint lower (s : string) : string :=
  match s with
  | EmptyString => EmptyString
  | String c s' => String (lower_char c) (lower s')
  end.

(** every character of [s] satisfies [p] *)
Fixpoint all (p : ascii -> bool) (s : string) : bool :=
  match s with
  | EmptyString => true
  | String c s' => p c && all p s'
  end.

(** [lit s] is [s] with every backquote turned into a double quote: the
    way JSON and markup literals are written in this file. *)
Fixpoint lit (s : string) : string :=
  match s with
  | EmptyString => EmptyString
  | String c s' =>
      String (if Ascii.eqb c "`" then Ascii.ascii_of_nat 34 else c) (lit s')
  end.

End Str.

(** ** The balanced-object scanner *)

(** The double quote, code point 34. *)
Definition dquote : ascii := Eval cbv in ascii_of_nat 34.

(** membership of [ch] in the pair of the double and the single quote *)
Definition is_quote (ch : ascii) : bool :=
  Ascii.eqb ch dquote || Ascii.eqb ch "'".

(** The loop [for i in range(start, len(source))] of
    [extract_balanced_json], run on the characters that remain; [i] is
    the index of the first of them. The result is the index at which the
    loop returns, [None] when the range is exhausted. *)
Fixpoint scan (rest : string) (i : nat) (depth : Z) (in_string escaping : bool)
  : option nat :=
  match rest with
  | EmptyString => None
  | String ch rest' =>
      if in_string then
        if escaping then scan rest' (S i) depth in_string false
        else if Ascii.eqb ch "\" then scan rest' (S i) depth in_string true
        else if is_quote ch then scan rest' (S i) depth false escaping
        else scan rest' (S i) depth in_string escaping
      else if is_quote ch then scan rest' (S i) depth true escaping
      else if Ascii.eqb ch "{" then scan rest' (S i) (depth + 1) in_string escaping
      else if Ascii.eqb ch "}" then
        if Z.eqb (depth - 1) 0 then Some i
        else scan rest' (S i) (depth - 1) in_string escaping
      else scan rest' (S i) depth in_string escaping
  end.

Definition extract_balanced_json (source : string) (start_at : nat) : option string :=
  match Str.find_from "{" source start_at with
  | None => None
  | Some start =>
      match scan (Str.drop start source) start 0 false false with
      | Some i => Some (Str.slice source start (i + 1))
      | None => None
      end
  end.

(** ** Python values and the dynamic operations applied to them *)

Module Py.

Local Open Scope Z_scope.

(** A float: not-a-number, an infinity, or the finite value [m * 2^e]. *)
Inductive pyfloat : Type :=
| FNan
| FInf (negative : bool)
| FFin (m e : Z).

(** What [json.loads] returns: [None], [bool], [int], [float], [str],
    [list], and [dict] with its items in insertion order. *)
Inductive json : Type :=
| JNull
| JBool (b : bool)
| JInt (z : Z)
| JFloat (f : pyfloat)
| JStr (s : string)
| JArr (items : list json)
| JObj (fields : list (string * json)).

(** Lookup of a key among the items of a dict. *)
Fixpoint lookup {A : Type} (key : string) (fields : list (string * A)) : option A :=
  match fields with
  | [] => None
  | (k, v) :: rest => if String.eqb k key then Some v else lookup key rest
  end.

(** [d[key] = v]: overwrites in place, or appends a new item. *)
Fixpoint dict_set {A : Type} (key : string) (v : A) (fields : list (string * A))
  : list (string * A) :=
  match fields with
  | [] => [(key, v)]
  | (k, w) :: rest =>
      if String.eqb k key then (k, v) :: rest else (k, w) :: dict_set key v rest
  end.

(** The truth value of [v], as tested by [if v] and [not v]. *)
Definition truthy (v : json) : bool :=
  match v with
  | JNull => false
  | JBool b => b
  | JInt z => negb (Z.eqb z 0)
  | JFloat (FFin m _) => negb (Z.eqb m 0)
  | JFloat _ => true
  | JStr s => negb (String.eqb s "")
  | JArr items => match items with [] => false | _ :: _ => true end
  | JObj fields => match fields with [] => false | _ :: _ => true end
  end.

(** [v.get(key, default)]: only a dict has the method. *)
Definition get (v : json) (key : string) (default : json) : result json :=
  match v with
  | JObj fields =>
      Ret (match lookup key fields with Some x => x | None => default end)
  | _ => Raise AttributeError
  end.

(** [v is not None] *)
Definition is_not_none (v : json) : bool :=
  match v with JNull => false | _ => true end.

(** The items visited by [for x in v]: the elements of a list, the keys
    of a dict, the characters of a string. *)
Fixpoint chars (s : string) : list json :=
  match s with
  | EmptyString => []
  | String c s' => JStr (String c EmptyString) :: chars s'
  end.

Definition iter (v : json) : result (list json) :=
  match v with
  | JArr items => Ret items
  | JObj fields => Ret (map (fun kv => JStr (fst kv)) fields)
  | JStr s => Ret (chars s)
  | _ => Raise TypeError
  end.

(** [v[0]] *)
Definition index0 (v : json) : result json :=
  match v with
  | JArr (x :: _) => Ret x
  | JArr [] => Raise IndexError
  | JObj _ => Raise KeyError
  | JStr (String c _) => Ret (JStr (String c EmptyString))
  | JStr EmptyString => Raise IndexError
  | _ => Raise TypeError
  end.

(** The items of [parts] as strings, for [str.join]: an item that is not
    a string raises [TypeError]. *)
Fixpoint strings_of (parts : list json) : result (list string) :=
  match parts with
  | [] => Ret []
  | JStr s :: rest => ss <- strings_of rest ;; Ret (s :: ss)
  | _ :: _ => Raise TypeError
  end.

(** [v == s] for a string [s] *)
Definition eq_str (v : json) (s : string) : bool :=
  match v with JStr t => String.eqb t s | _ => false end.

(** [v.startswith(p)]: only a string has the method. *)
Definition startswith (v : json) (p : string) : result bool :=
  match v with
  | JStr s => Ret (Str.startswith p s)
  | _ => Raise AttributeError
  end.

(** *** Decimal digits *)

Definition is_digit (c : ascii) : bool :=
  let n := nat_of_ascii c in Nat.leb 48 n && Nat.leb n 57.

Definition digit_value (c : ascii) : Z := Z.of_nat (nat_of_ascii c) - 48.

Fixpoint all_digits (s : string) : bool :=
  match s with
  | EmptyString => true
  | String c s' => is_digit c && all_digits s'
  end.

(** value of a string of digits, after the digits [acc] already read *)
Fixpoint digits_value (acc : Z) (s : string) : Z :=
  match s with
  | EmptyString => acc
  | String c s' => digits_value (10 * acc + digit_value c) s'
  end.

(** Underscores in a numeric literal stand between two digits. [prev] is
    the character before [s]. The result is the literal without them. *)
Fixpoint drop_underscores (prev : ascii) (s : string) : option string :=
  match s with
  | EmptyString => if Ascii.eqb prev "_" then None else Some EmptyString
  | String c s' =>
      if Ascii.eqb c "_" then
        if is_digit prev then drop_underscores c s' else None
      else if Ascii.eqb prev "_" && negb (is_digit c) then None
      else option_map (String c) (drop_underscores c s')
  end.

(** an optional sign: [(negative, rest)] *)
Definition split_sign (s : string) : bool * string :=
  match s with
  | String "-" s' => (true, s')
  | String "+" s' => (false, s')
  | _ => (false, s)
  end.

(** The white space that [int] and [float] allow around a number: 9..13,
    32, 133 and 160. The separators 28..31, which [str.strip] removes, stay
    and make the conversion fail. *)
Definition numeric_space (c : ascii) : bool :=
  let n := nat_of_ascii c in
  (Nat.leb 9 n && Nat.leb n 13) || Nat.eqb n 32 || Nat.eqb n 133 || Nat.eqb n 160.

(** [int(s)] for a string, base 10; [None] stands for [ValueError]. The
    limit on the number of digits of recent interpreters is not modelled. *)
Definition int_of_str (s : string) : option Z :=
  match drop_underscores " " (Str.strip_by numeric_space s) with
  | None => None
  | Some t =>
      let (neg, d) := split_sign t in
      if negb (String.eqb d "") && all_digits d
      then Some (if neg then - digits_value 0 d else digits_value 0 d)
      else None
  end.

(** *** Floats *)

Definition two53 : Z := Eval cbv in 2 ^ 53.

(** The double nearest to [n / d] for [0 < n], ties to even; an infinity
    from [2^1024] on. *)
Definition round_pos (n d : positive) : pyfloat :=
  let e0 := Z.log2 (Zpos n) - Z.log2 (Zpos d) - 53 in
  let scaled (e : Z) : Z * Z :=
    if Z.leb 0 e then (Zpos n, Zpos d * 2 ^ e) else (Zpos n * 2 ^ (- e), Zpos d) in
  let e1 := let (a, b) := scaled e0 in if Z.ltb (a / b) two53 then e0 else e0 + 1 in
  let e := Z.max e1 (-1074) in
  let (a, b) := scaled e in
  let q := a / b in
  let r := a mod b in
  let q' := if Z.ltb b (2 * r) || (Z.eqb (2 * r) b && Z.odd q) then q + 1 else q in
  if Z.ltb 971 e || (Z.eqb e 971 && Z.leb two53 q') then FInf false else FFin q' e.

Definition round_rat (num : Z) (den : positive) : pyfloat :=
  match num with
  | Z0 => FFin 0 0
  | Zpos n => round_pos n den
  | Zneg n =>
      match round_pos n den with
      | FFin m e => FFin (- m) e
      | FInf _ => FInf true
      | FNan => FNan
      end
  end.

(** the double nearest to [m * 10^k] *)
Definition round_decimal (m k : Z) : pyfloat :=
  if Z.leb 0 k then round_rat (m * 10 ^ k) 1
  else round_rat m (Z.to_pos (10 ^ (- k))).

(** [f * 1000] *)
Definition mul1000 (f : pyfloat) : pyfloat :=
  match f with
  | FFin m e =>
      if Z.leb 0 e then round_rat (1000 * m * 2 ^ e) 1
      else round_rat (1000 * m) (Z.to_pos (2 ^ (- e)))
  | other => other
  end.

(** [int(f)]: truncation toward zero *)
Definition int_of_float (f : pyfloat) : result Z :=
  match f with
  | FNan => Raise ValueError
  | FInf _ => Raise OverflowError
  | FFin m e => Ret (if Z.leb 0 e then m * 2 ^ e else Z.quot m (2 ^ (- e)))
  end.

(** the prefix of digits of [s] and what follows it *)
Fixpoint span_digits (s : string) : string * string :=
  match s with
  | EmptyString => (EmptyString, EmptyString)
  | String c s' =>
      if is_digit c then let (d, r) := span_digits s' in (String c d, r)
      else (EmptyString, s)
  end.

(** the exponent part of a decimal literal: [None] when malformed *)
Definition exponent_of (s : string) : option Z :=
  match s with
  | EmptyString => Some 0
  | String c s' =>
      if Ascii.eqb c "e" || Ascii.eqb c "E" then
        let (neg, d) := split_sign s' in
        if negb (String.eqb d "") && all_digits d
        then Some (if neg then - digits_value 0 d else digits_value 0 d)
        else None
      else None
  end.

(** the unsigned part of a float literal *)
Definition unsigned_float (s : string) : option pyfloat :=
  let l := Str.lower s in
  if String.eqb l "inf" || String.eqb l "infinity" then Some (FInf false)
  else if String.eqb l "nan" then Some FNan
  else
    let (ip, r1) := span_digits s in
    let (fp, r2) :=
      match r1 with
      | String "." r => span_digits r
      | _ => (EmptyString, r1)
      end in
    if String.eqb ip "" && String.eqb fp "" then None
    else match exponent_of r2 with
         | None => None
         | Some x =>
             Some (round_decimal (digits_value 0 (ip ++ fp))
                                 (x - Z.of_nat (String.length fp)))
         end.

(** [float(s)] for a string; [None] stands for [ValueError]. *)
Definition float_of_str (s : string) : option pyfloat :=
  match drop_underscores " " (Str.strip_by numeric_space s) with
  | None => None
  | Some t =>
      let (neg, u) := split_sign t in
      match unsigned_float u with
      | None => None
      | Some f =>
          Some (if neg then
                  match f with
                  | FFin m e => FFin (- m) e
                  | FInf _ => FInf true
                  | FNan => FNan
                  end
                else f)
      end
  end.

(** [int(v)] *)
Definition int (v : json) : result Z :=
  match v with
  | JInt z => Ret z
  | JBool b => Ret (if b then 1 else 0)
  | JFloat f => int_of_float f
  | JStr s => match int_of_str s with Some z => Ret z | None => Raise ValueError end
  | _ => Raise TypeError
  end.

End Py.

Import Py.

(** ** The standard library behind the script *)

(** The fields of [urlparse(url)] that the script reads; [hostname] is
    [None] when the URL has no host. *)
Record parsed_url : Type := {
  scheme : string;
  netloc : string;
  path : string;
  query : string;
  hostname : option string
}.

Class Library : Type := {
  (** [json.loads] *)
  json_loads : string -> result json;
  (** [html.unescape] *)
  unescape : string -> string;
  (** [urllib.parse.urlparse] *)
  urlparse : string -> result parsed_url;
  (** [urllib.parse.parse_qs]: a dict from names to lists of values *)
  parse_qs : string -> list (string * list string);
  (** [urllib.parse.urlencode(params, doseq=True)] *)
  urlencode : list (string * list string) -> string
}.

(** ** Segments *)

Record segment : Type := {
  text : string;
  start_ms : option Z;
  end_ms : option Z
}.

(** [segments if segments else None] *)
Definition nonempty_or_none (segments : list segment) : option (list segment) :=
  match segments with
  | [] => None
  | _ :: _ => Some segments
  end.

(** the test [if result] on what a parser returned *)
Definition has_segments (r : option (list segment)) : bool :=
  match r with
  | Some (_ :: _) => true
  | _ => false
  end.

(** The segment built from the text and the two time fields, for the
    compact event format. *)
Definition json3_segment (t : string) (start_v duration_v : json) : result segment :=
  if is_not_none start_v then
    s <- Py.int start_v ;;
    if is_not_none duration_v then
      s' <- Py.int start_v ;;
      d <- Py.int duration_v ;;
      Ret {| text := t; start_ms := Some s; end_ms := Some (s' + d)%Z |}
    else Ret {| text := t; start_ms := Some s; end_ms := None |}
  else Ret {| text := t; start_ms := None; end_ms := None |}.

(** The inner loop [for seg in segs] that fills [text_parts]. *)
Fixpoint collect_utf8 (segs : list json) : result (list json) :=
  match segs with
  | [] => Ret []
  | seg :: rest =>
      utf8 <- Py.get seg "utf8" (JStr "") ;;
      parts <- collect_utf8 rest ;;
      Ret (if truthy utf8 then utf8 :: parts else parts)
  end.

(** One turn of the loop [for event in events]: the segment appended, or
    [None] after a [continue]. *)
Definition json3_event (event : json) : result (option segment) :=
  segs <- Py.get event "segs" JNull ;;
  if negb (truthy segs) then Ret None
  else
    items <- Py.iter segs ;;
    text_parts <- collect_utf8 items ;;
    strs <- strings_of text_parts ;;
    let joined := Str.strip (Str.join strs) in
    if String.eqb joined "" then Ret None
    else
      start_v <- Py.get event "tStartMs" JNull ;;
      duration_v <- Py.get event "dDurationMs" JNull ;;
      s <- json3_segment (Str.strip (Str.collapse_ws joined)) start_v duration_v ;;
      Ret (Some s).

Fixpoint json3_events (events : list json) : result (list segment) :=
  match events with
  | [] => Ret []
  | event :: rest =>
      o <- json3_event event ;;
      segments <- json3_events rest ;;
      Ret (match o with Some s => s :: segments | None => segments end)
  end.

(** Everything after [json.loads] in [parse_json3_transcript]. *)
Definition parse_json3_data (data : json) : result (option (list segment)) :=
  events <- Py.get data "events" (JArr []) ;;
  if negb (truthy events) then Ret None
  else
    items <- Py.iter events ;;
    segments <- json3_events items ;;
    Ret (nonempty_or_none segments).

Definition parse_json3_transcript `{Library} (text : string)
  : result (option (list segment)) :=
  match json_loads text with
  | Raise JSONDecodeError => Ret None
  | Raise e => Raise e
  | Ret data => parse_json3_data data
  end.

(** ** The response of the transcript endpoint *)

(** The time fields of a segment of the endpoint: the two nested
    assignments under [except (ValueError, TypeError): pass]. *)
Definition youtubei_segment (t : string) (start_v duration_v : json) : result segment :=
  let bare := {| text := t; start_ms := None; end_ms := None |} in
  if is_not_none start_v then
    match Py.int start_v with
    | Ret s =>
        let started := {| text := t; start_ms := Some s; end_ms := None |} in
        if is_not_none duration_v then
          try_except
            (s' <- Py.int start_v ;;
             d <- Py.int duration_v ;;
             Ret {| text := t; start_ms := Some s; end_ms := Some (s' + d)%Z |})
            [ValueError; TypeError] (Ret started)
        else Ret started
    | Raise e => try_except (Raise e) [ValueError; TypeError] (Ret bare)
    end
  else Ret bare.

(** [r.get("text", "") for r in runs] *)
Fixpoint run_texts (runs : list json) : result (list json) :=
  match runs with
  | [] => Ret []
  | r :: rest =>
      t <- Py.get r "text" (JStr "") ;;
      ts <- run_texts rest ;;
      Ret (t :: ts)
  end.

Definition youtubei_item (seg : json) : result (option segment) :=
  seg_renderer <- Py.get seg "transcriptSegmentRenderer" (JObj []) ;;
  snippet <- Py.get seg_renderer "snippet" (JObj []) ;;
  runs <- Py.get snippet "runs" (JArr []) ;;
  items <- Py.iter runs ;;
  texts <- run_texts items ;;
  strs <- strings_of texts ;;
  let joined := Str.strip (Str.join strs) in
  if String.eqb joined "" then Ret None
  else
    start_v <- Py.get seg_renderer "startMs" JNull ;;
    duration_v <- Py.get seg_renderer "durationMs" JNull ;;
    s <- youtubei_segment (Str.strip (Str.collapse_ws joined)) start_v duration_v ;;
    Ret (Some s).

Fixpoint youtubei_items (segs : list json) : result (list segment) :=
  match segs with
  | [] => Ret []
  | seg :: rest =>
      o <- youtubei_item seg ;;
      segments <- youtubei_items rest ;;
      Ret (match o with Some s => s :: segments | None => segments end)
  end.

(** The body of the [try] of [parse_youtubei_response]. *)
Definition youtubei_body (data : json) : result (option (list segment)) :=
  actions <- Py.get data "actions" (JArr []) ;;
  if negb (truthy actions) then Ret None
  else
    first <- index0 actions ;;
    panel <- Py.get first "updateEngagementPanelAction" (JObj []) ;;
    content <- Py.get panel "content" (JObj []) ;;
    renderer <- Py.get content "transcriptRenderer" (JObj []) ;;
    body_content <- Py.get renderer "content" (JObj []) ;;
    search_panel <- Py.get body_content "transcriptSearchPanelRenderer" (JObj []) ;;
    body <- Py.get search_panel "body" (JObj []) ;;
    segment_list <- Py.get body "transcriptSegmentListRenderer" (JObj []) ;;
    initial_segments <- Py.get segment_list "initialSegments" (JArr []) ;;
    if negb (truthy initial_segments) then Ret None
    else
      items <- Py.iter initial_segments ;;
      segments <- youtubei_items items ;;
      Ret (nonempty_or_none segments).

Definition parse_youtubei_response (data : json) : result (option (list segment)) :=
  try_except (youtubei_body data) [KeyError; IndexError; TypeError] (Ret None).

(** ** The timed XML format *)

(** [s] starts with the lower-case literal [p], letter case ignored *)
Fixpoint startswith_ci (p s : string) : bool :=
  match p, s with
  | EmptyString, _ => true
  | String _ _, EmptyString => false
  | String a p', String b s' => Ascii.eqb a (Str.lower_char b) && startswith_ci p' s'
  end.

Fixpoint find_ci (p s : string) : option nat :=
  if startswith_ci p s then Some O
  else match s with
       | EmptyString => None
       | String _ s' => option_map S (find_ci p s')
       end.

(** A match of [<text[^>]*>([\s\S]*?)</text>] that starts at the first
    character of [s]: groups 0 and 1. *)
Definition match_text_at (s : string) : option (string * string) :=
  if startswith_ci "<text" s then
    let after := Str.drop 5 s in
    match Str.find ">" after with
    | None => None
    | Some k =>
        let inner := Str.drop (k + 1) after in
        match find_ci "</text>" inner with
        | None => None
        | Some j => Some (Str.take (5 + (k + 1) + j + 7) s, Str.take j inner)
        end
    end
  else None.

(** [pattern.finditer(xml)]: the matches from left to right, the search
    resuming where the last match ended. [skip] characters still belong
    to the last match. *)
Fixpoint finditer (s : string) (skip : nat) : list (string * string) :=
  match s with
  | EmptyString => []
  | String _ s' =>
      match skip with
      | S k => finditer s' k
      | O =>
          match match_text_at s with
          | Some (g0, g1) => (g0, g1) :: finditer s' (String.length g0 - 1)
          | None => finditer s' 0
          end
      end
  end.

(** A character of the class [\w]: letters, digits, numerics and the
    underscore. *)
Definition is_word (c : ascii) : bool :=
  let n := nat_of_ascii c in
  (Nat.leb 48 n && Nat.leb n 57) || (Nat.leb 65 n && Nat.leb n 90)
  || Nat.eqb n 95 || (Nat.leb 97 n && Nat.leb n 122)
  || Nat.eqb n 170 || Nat.eqb n 178 || Nat.eqb n 179 || Nat.eqb n 181
  || Nat.eqb n 185 || Nat.eqb n 186 || (Nat.leb 188 n && Nat.leb n 190)
  || (Nat.leb 192 n && Nat.leb n 214) || (Nat.leb 216 n && Nat.leb n 246)
  || Nat.leb 248 n.

(** the longest prefix without a quote, and what follows it *)
Fixpoint span_unquoted (s : string) : string * string :=
  match s with
  | EmptyString => (EmptyString, EmptyString)
  | String c s' =>
      if is_quote c then (EmptyString, s)
      else let (v, r) := span_unquoted s' in (String c v, r)
  end.

(** A match of [name\s*=\s*Q([^Q]+)Q], where [Q] is the class of the two
    quote characters, that starts at the first character of [s]: group 1. *)
Definition match_attr_at (name s : string) : option string :=
  if startswith_ci name s then
    match Str.lstrip_by Str.isspace (Str.drop (String.length name) s) with
    | String "=" r =>
        match Str.lstrip_by Str.isspace r with
        | String q r' =>
            if is_quote q then
              match span_unquoted r' with
              | (String c v, String _ _) => Some (String c v)
              | _ => None
              end
            else None
        | EmptyString => None
        end
    | _ => None
    end
  else None.

(** [re.compile(r'\bname...').search(tag)]: the leftmost match; [prev]
    is the character before [s], for the word boundary. *)
Fixpoint search_attr (name : string) (prev : option ascii) (s : string) : option string :=
  match s with
  | EmptyString => None
  | String c s' =>
      let boundary := match prev with None => true | Some p => negb (is_word p) end in
      match (if boundary then match_attr_at name s else None) with
      | Some v => Some v
      | None => search_attr name (Some c) s'
      end
  end.

(** [int(float(s) * 1000)] *)
Definition float_ms (s : string) : result Z :=
  match float_of_str s with
  | None => Raise ValueError
  | Some f => int_of_float (mul1000 f)
  end.

(** One turn of the loop over the matches: the segment appended, or
    [None] after [continue]. *)
Definition xml_segment `{Library} (g0 g1 : string) : result (option segment) :=
  let t := Str.collapse_ws (Str.strip (unescape g1)) in
  if String.eqb t "" then Ret None
  else
    start <- match search_attr "start" None g0 with
             | Some v => try_except (x <- float_ms v ;; Ret (Some x)) [ValueError] (Ret None)
             | None => Ret None
             end ;;
    stop <- match search_attr "dur" None g0, start with
            | Some v, Some s =>
                try_except (d <- float_ms v ;; Ret (Some (s + d)%Z)) [ValueError] (Ret None)
            | _, _ => Ret None
            end ;;
    Ret (Some {| text := t; start_ms := start; end_ms := stop |}).

Fixpoint xml_segments `{Library} (matches : list (string * string)) : result (list segment) :=
  match matches with
  | [] => Ret []
  | (g0, g1) :: rest =>
      o <- xml_segment g0 g1 ;;
      segments <- xml_segments rest ;;
      Ret (match o with Some s => s :: segments | None => segments end)
  end.

Definition parse_xml_transcript `{Library} (xml : string) : result (option (list segment)) :=
  segments <- xml_segments (finditer xml 0) ;;
  Ret (nonempty_or_none segments).

(** ** The player response embedded in the watch page *)

Definition token : string := "ytInitialPlayerResponse".

Definition extract_initial_player_response `{Library} (html : string)
  : result (option json) :=
  match Str.find token html with
  | None => Ret None
  | Some idx =>
      match Str.find_from "=" html idx with
      | None => Ret None
      | Some eq_idx =>
          match extract_balanced_json html eq_idx with
          | None => Ret None
          | Some obj_text =>
              if String.eqb obj_text "" then Ret None
              else match json_loads obj_text with
                   | Ret v => Ret (Some v)
                   | Raise JSONDecodeError => Ret None
                   | Raise e => Raise e
                   end
          end
      end
  end.

(** ** The caption track catalog *)

(** [(is_asr, is_en)] *)
Definition sort_key (track : json) : result (Z * Z) :=
  kind <- Py.get track "kind" (JStr "") ;;
  lang <- Py.get track "languageCode" (JStr "") ;;
  en <- Py.startswith lang "en" ;;
  Ret (if eq_str kind "asr" then 1%Z else 0%Z, if en then 0%Z else 1%Z).

(** [a < b] on pairs of integers *)
Definition key_lt (a b : Z * Z) : bool :=
  Z.ltb (fst a) (fst b) || (Z.eqb (fst a) (fst b) && Z.ltb (snd a) (snd b)).

(** [sorted(items, key=...)] on items already paired with their keys: a
    stable sort, written as an insertion sort in which an item goes in
    front of the first item that is not smaller than it. *)
Fixpoint insert_keyed {A : Type} (x : (Z * Z) * A) (l : list ((Z * Z) * A))
  : list ((Z * Z) * A) :=
  match l with
  | [] => [x]
  | y :: l' => if key_lt (fst y) (fst x) then y :: insert_keyed x l' else x :: y :: l'
  end.

Definition sort_keyed {A : Type} (l : list ((Z * Z) * A)) : list ((Z * Z) * A) :=
  fold_right insert_keyed [] l.

(** the keys of all the items, computed from left to right *)
Fixpoint with_keys (tracks : list json) : result (list ((Z * Z) * json)) :=
  match tracks with
  | [] => Ret []
  | t :: rest =>
      k <- sort_key t ;;
      ks <- with_keys rest ;;
      Ret ((k, t) :: ks)
  end.

Definition sorted_tracks (tracks : list json) : result (list json) :=
  ks <- with_keys tracks ;;
  Ret (map snd (sort_keyed ks)).

(** the items of [tracks], in the order of the player response *)
Definition caption_track_list (player_response : json) : result (list json) :=
  captions <- Py.get player_response "captions" (JObj []) ;;
  renderer <- Py.get captions "playerCaptionsTracklistRenderer" (JObj []) ;;
  tracks <- Py.get renderer "captionTracks" (JArr []) ;;
  Py.iter tracks.

Definition get_caption_tracks (player_response : json) : result (list json) :=
  items <- caption_track_list player_response ;;
  sorted_tracks items.

(** ** The video identifier *)

Definition prefixes : list string := ["/shorts/"; "/live/"; "/embed/"; "/v/"].

(** The loop [for prefix in (...)]: the value returned at the first prefix
    of the path, [None] when the loop ends without a return. *)
Fixpoint match_prefixes (ps : list string) (p : string) : option (option string) :=
  match ps with
  | [] => None
  | prefix :: rest =>
      if Str.startswith prefix p then
        Some (match Str.split "/" (Str.drop (String.length prefix) p) with
              | part :: _ => Some part
              | [] => None
              end)
      else match_prefixes rest p
  end.

(** [parsed.hostname or ""] *)
Definition host_name (parsed : parsed_url) : string :=
  match hostname parsed with
  | Some h => h
  | None => ""
  end.

Definition extract_video_id `{Library} (url : string) : result (option string) :=
  parsed <- urlparse url ;;
  let host := host_name parsed in
  if String.eqb host "youtu.be" then
    match Str.split "/" (Str.strip_char "/" (path parsed)) with
    | part :: _ => Ret (if String.eqb part "" then None else Some part)
    | [] => Ret None
    end
  else if negb (Str.contains "youtube.com" host) then Ret None
  else if String.eqb (path parsed) "/watch" then
    match lookup "v" (parse_qs (query parsed)) with
    | None => Ret None
    | Some (v :: _) => Ret (Some v)
    | Some [] => Raise IndexError
    end
  else
    match match_prefixes prefixes (path parsed) with
    | Some r => Ret r
    | None => Ret None
    end.

(** ** The network and the download of one caption track *)

(** What the network answers to a request, given the requests made so
    far: a text, or an exception of the transport. *)
Definition network : Type := list string -> string -> result string.

(** [fetch_url(url)]: the answer, and the log of requests with this one
    added. *)
Definition fetch_url (net : network) (url : string) (log : list string)
  : result string * list string :=
  (net log url, log ++ [url]).

(** the longest prefix without an ampersand *)
Fixpoint span_not_amp (s : string) : string :=
  match s with
  | EmptyString => EmptyString
  | String c s' => if Ascii.eqb c "&" then EmptyString else String c (span_not_amp s')
  end.

(** [re.sub(r"&fmt=[^&]+", "", s)]; [skip] characters still belong to the
    match being removed. *)
Fixpoint remove_fmt (s : string) (skip : nat) : string :=
  match s with
  | EmptyString => EmptyString
  | String c s' =>
      match skip with
      | S k => remove_fmt s' k
      | O =>
          if Str.startswith "&fmt=" s then
            match span_not_amp (Str.drop 5 s) with
            | EmptyString => String c (remove_fmt s' 0)
            | v => remove_fmt s' (4 + String.length v)
            end
          else String c (remove_fmt s' 0)
      end
  end.

Definition xml_url (base_url : string) : string := remove_fmt base_url 0.

(** [params] after the two assignments *)
Definition json3_params `{Library} (p : parsed_url) : list (string * list string) :=
  dict_set "alt" ["json"] (dict_set "fmt" ["json3"] (parse_qs (query p))).

Definition json3_url `{Library} (p : parsed_url) : string :=
  (scheme p ++ "://" ++ netloc p ++ path p ++ "?" ++ urlencode (json3_params p))%string.

(** The first [try] block: [Some r] when it returns [r], [None] when the
    function goes on to the fallback. *)
Definition json3_attempt `{Library} (net : network) (base_url : string) (log : list string)
  : option (list segment) * list string :=
  match urlparse base_url with
  | Raise _ => (None, log)
  | Ret parsed =>
      let '(answer, log') := fetch_url net (json3_url parsed) log in
      match (t <- answer ;; parse_json3_transcript t) with
      | Ret r => (if has_segments r then r else None, log')
      | Raise _ => (None, log')
      end
  end.

(** The second [try] block. *)
Definition xml_attempt `{Library} (net : network) (base_url : string) (log : list string)
  : result (option (list segment)) * list string :=
  let '(answer, log') := fetch_url net (xml_url base_url) log in
  (try_except_Exception
     (t <- answer ;;
      r <- parse_json3_transcript t ;;
      if has_segments r then Ret r else parse_xml_transcript t)
     (Ret None),
   log').

Definition download_caption_track `{Library} (net : network) (base_url : string)
    (log : list string) : result (option (list segment)) * list string :=
  match json3_attempt net base_url log with
  | (Some r, log') => (Ret (Some r), log')
  | (None, log') => xml_attempt net base_url log'
  end.

(** ** The chain of strategies in [main] *)

Inductive strategy : Type :=
| Youtubei
| CaptionTracks
| AndroidPlayer.

(** One entry of the call log: the strategy that was invoked and whether
    what it returned passed the test [if segments]. *)
Record call : Type := { who : strategy; yielded : bool }.

(** The callees of the chain, over a world [W] that they may change. *)
Record callees (W : Type) : Type := {
  try_youtubei_transcript :
    string -> string -> W -> result (option (list segment)) * W;
  download_track : json -> W -> result (option (list segment)) * W;
  try_android_player :
    string -> string -> W -> result (option (list segment)) * W
}.

Arguments try_youtubei_transcript {W} _ _ _ _.
Arguments download_track {W} _ _ _.
Arguments try_android_player {W} _ _ _ _.

Inductive outcome : Type :=
| SUCCEEDED (source : string) (segments : option (list segment))
| FAILED.

Section Chain.

Context `{Library} {W : Type} (c : callees W).

Definition chain_state : Type := W * list call.

(** a callee run on the world, its invocation logged *)
Definition invoke (s : strategy) (f : W -> result (option (list segment)) * W)
    (st : chain_state) : result (option (list segment)) * chain_state :=
  let '(r, w') := f (fst st) in
  let ok := match r with Ret v => has_segments v | Raise _ => false end in
  (r, (w', snd st ++ [{| who := s; yielded := ok |}])).

(** [track.get("baseUrl") or track.get("url")] *)
Definition track_url (track : json) : result json :=
  u <- Py.get track "baseUrl" JNull ;;
  if truthy u then Ret u else Py.get track "url" JNull.

(** The loop [for track in tracks] of step 3: what [segments] holds when
    the loop is left. *)
Fixpoint try_tracks (tracks : list json) (st : chain_state)
  : result (option (list segment)) * chain_state :=
  match tracks with
  | [] => (Ret None, st)
  | track :: rest =>
      match track_url track with
      | Raise e => (Raise e, st)
      | Ret base_url =>
          if negb (truthy base_url) then try_tracks rest st
          else
            match invoke CaptionTracks (download_track c base_url) st with
            | (Raise e, st') => (Raise e, st')
            | (Ret segments, st') =>
                if has_segments segments then (Ret segments, st')
                else try_tracks rest st'
            end
      end
  end.

(** Step 3 as a whole. *)
Definition try_caption_tracks (html : string) (st : chain_state)
  : result (option (list segment)) * chain_state :=
  match extract_initial_player_response html with
  | Raise e => (Raise e, st)
  | Ret None => (Ret None, st)
  | Ret (Some player_response) =>
      if truthy player_response then
        match get_caption_tracks player_response with
        | Raise e => (Raise e, st)
        | Ret tracks => try_tracks tracks st
        end
      else (Ret None, st)
  end.

(** Steps 2 to 4 of [main] and the final test. *)
Definition main_chain (html video_id : string) (st : chain_state)
  : result outcome * chain_state :=
  let watch_url := ("https://www.youtube.com/watch?v=" ++ video_id)%string in
  match invoke Youtubei (try_youtubei_transcript c html watch_url) st with
  | (Raise e, st1) => (Raise e, st1)
  | (Ret s1, st1) =>
      if has_segments s1 then (Ret (SUCCEEDED "youtubei" s1), st1)
      else
        match try_caption_tracks html st1 with
        | (Raise e, st2) => (Raise e, st2)
        | (Ret s2, st2) =>
            if has_segments s2 then (Ret (SUCCEEDED "captionTracks" s2), st2)
            else
              match invoke AndroidPlayer (try_android_player c html video_id) st2 with
              | (Raise e, st3) => (Raise e, st3)
              | (Ret s3, st3) =>
                  if has_segments s3 then (Ret (SUCCEEDED "android_player" s3), st3)
                  else (Ret FAILED, st3)
              end
        end
  end.

End Chain.

(** ** Timestamps *)

(** [str(z)] for an integer *)
Definition str_of_int (z : Z) : string := NilZero.string_of_int (Z.to_int z).

(** the format [02d]: at least two characters, zeros in front *)
Definition pad2 (z : Z) : string :=
  let s := str_of_int z in
  if Nat.ltb (String.length s) 2 then String "0" s else s.

Definition format_timestamp (ms : Z) : string :=
  let total_seconds := (ms / 1000)%Z in
  let hours := (total_seconds / 3600)%Z in
  let minutes := ((total_seconds mod 3600) / 60)%Z in
  let seconds := (total_seconds mod 60)%Z in
  if Z.ltb 0 hours
  then (str_of_int hours ++ ":" ++ pad2 minutes ++ ":" ++ pad2 seconds)%string
  else (str_of_int minutes ++ ":" ++ pad2 seconds)%string.

(** ** The values scraped from the page by patterns *)

(** the longest prefix with no character of [stop], and what follows it *)
Fixpoint take_until (stop : ascii -> bool) (s : string) : string * string :=
  match s with
  | EmptyString => (EmptyString, EmptyString)
  | String c s' =>
      if stop c then (EmptyString, s)
      else let (v, r) := take_until stop s' in (String c v, r)
  end.

(** A match of [prefix([^stop]+)closing] that starts at the first
    character of [s]: group 1. *)
Definition capture_at (prefix : string) (stop : ascii -> bool) (closing : string)
    (s : string) : option string :=
  if Str.startswith prefix s then
    let (v, r) := take_until stop (Str.drop (String.length prefix) s) in
    if negb (String.eqb v "") && Str.startswith closing r then Some v else None
  else None.

(** [re.search] of such a pattern: group 1 of the leftmost match *)
Fixpoint search_capture (prefix : string) (stop : ascii -> bool) (closing : string)
    (s : string) : option string :=
  match capture_at prefix stop closing s with
  | Some v => Some v
  | None =>
      match s with
      | EmptyString => None
      | String _ s' => search_capture prefix stop closing s'
      end
  end.

Definition is_dquote (c : ascii) : bool := Ascii.eqb c dquote.

Definition is_dquote_or_backslash (c : ascii) : bool :=
  Ascii.eqb c dquote || Ascii.eqb c "\".

(** the literal texts of the two patterns of the API key: the key between
    plain quotes, and between quotes behind backslashes *)
Definition api_key_prefix : string := Str.lit "`INNERTUBE_API_KEY`:`".

Definition api_key_prefix_escaped : string := Str.lit "INNERTUBE_API_KEY\`:\`".

Definition extract_innertube_api_key (html : string) : option string :=
  match search_capture api_key_prefix is_dquote (Str.lit "`") html with
  | Some v => Some (Str.strip v)
  | None =>
      match search_capture api_key_prefix_escaped is_dquote_or_backslash
                           (Str.lit "\`") html with
      | Some v => Some (Str.strip v)
      | None => None
      end
  end.

Definition transcript_params_prefix : string :=
  Str.lit "`getTranscriptEndpoint`:{`params`:`".

Definition extract_transcript_params (html : string) : option string :=
  search_capture transcript_params_prefix is_dquote (Str.lit "`}") html.

(** A match of [ytcfg\.set\s*\(\s*\{] that starts at the first character
    of [s]. *)
Definition ytcfg_at (s : string) : bool :=
  if Str.startswith "ytcfg.set" s then
    match Str.lstrip_by Str.isspace (Str.drop 9 s) with
    | String "(" r =>
        match Str.lstrip_by Str.isspace r with
        | String "{" _ => true
        | _ => false
        end
    | _ => false
    end
  else false.

(** the start of the leftmost match *)
Fixpoint find_ytcfg (s : string) : option nat :=
  if ytcfg_at s then Some O
  else match s with
       | EmptyString => None
       | String _ s' => option_map S (find_ytcfg s')
       end.

Definition extract_bootstrap_config `{Library} (html : string) : result (option json) :=
  match find_ytcfg html with
  | None => Ret None
  | Some start =>
      let obj := extract_balanced_json html start in
      let obj :=
        match obj with
        | Some (String c t) => obj
        | _ =>
            match Str.find_from "{" html start with
            | Some brace_start => extract_balanced_json html brace_start
            | None => obj
            end
        end in
      match obj with
      | Some (String c t) =>
          match json_loads (String c t) with
          | Ret v => Ret (Some v)
          | Raise JSONDecodeError => Ret None
          | Raise e => Raise e
          end
      | _ => Ret None
      end
  end.

(** ** Requests that post JSON *)

(** [re.sub(r"^\)\]\}'[^\n]*\n?", "", text)]: the guard line in front of a
    JSON answer is dropped. *)
Definition is_newline (c : ascii) : bool := Ascii.eqb c (ascii_of_nat 10).

Definition strip_xssi (t : string) : string :=
  if Str.startswith ")]}'" t then
    match snd (take_until is_newline (Str.drop 4 t)) with
    | String _ rest => rest
    | EmptyString => EmptyString
    end
  else t.

(** A request: its address, its headers and the body posted, if any. *)
Record request : Type := {
  req_url : string;
  req_headers : list (string * json);
  req_data : option string
}.

(** What the web answers to a request, given the requests made so far. *)
Definition web : Type := list request -> request -> result string.

Definition REQUEST_HEADERS : list (string * json) :=
  [("User-Agent",
    JStr "Mozilla/5.0 (Windows NT 10.0; Win64; x64) AppleWebKit/537.36 (KHTML, like Gecko) Chrome/123.0.0.0 Safari/537.36");
   ("Accept-Language", JStr "en-US,en;q=0.9");
   ("Cache-Control", JStr "no-cache")].

(** [d.update(other)] *)
Definition dict_update {A : Type} (d other : list (string * A)) : list (string * A) :=
  fold_left (fun acc kv => dict_set (fst kv) (snd kv) acc) other d.

(** [fetch_json(url, payload, extra_headers)]; [json_dumps] is
    [json.dumps]. The answer is decoded after the guard line is dropped;
    any exception of the request or of the decoding gives [None]. *)
Definition fetch_json `{Library} (json_dumps : json -> string) (www : web)
    (url : string) (payload : json) (extra_headers : list (string * json))
    (log : list request) : option json * list request :=
  let headers :=
    dict_update [("Content-Type", JStr "application/json");
                 ("Accept", JStr "application/json")] extra_headers in
  let data := if truthy payload then Some (json_dumps payload) else None in
  let req := {| req_url := url;
                req_headers := dict_update REQUEST_HEADERS headers;
                req_data := data |} in
  (match www log req with
   | Ret t =>
       match json_loads (strip_xssi t) with
       | Ret v => Some v
       | Raise _ => None
       end
   | Raise _ => None
   end,
   log ++ [req]).


(** ** The two strategies that post to the host *)

Module Strategy.

Section Callees.

(** The callees, over a world [W] that they may change: [post] is
    [fetch_json] (url, payload, extra headers), [download] is
    [download_caption_track], and [str] is the text that Python's
    [format] gives for a value that is not a string. *)
Context `{Library} {W : Type}.
Variable post : string -> json -> list (string * json) -> W -> option json * W.
Variable download : json -> W -> result (option (list segment)) * W.
Variable str : json -> string.

(** a value inside an f-string *)
Definition formatted (v : json) : string :=
  match v with
  | JStr s => s
  | _ => str v
  end.

(** The loop [for track in tracks] of [try_android_player]. *)
Fixpoint download_first (tracks : list json) (w : W)
  : result (option (list segment)) * W :=
  match tracks with
  | [] => (Ret None, w)
  | track :: rest =>
      match track_url track with
      | Raise e => (Raise e, w)
      | Ret base_url =>
          if negb (truthy base_url) then download_first rest w
          else
            match download base_url w with
            | (Raise e, w') => (Raise e, w')
            | (Ret segments, w') =>
                if has_segments segments then (Ret segments, w')
                else download_first rest w'
            end
      end
  end.

Definition android_payload (video_id : string) : json :=
  JObj [("context",
         JObj [("client",
                JObj [("clientName", JStr "ANDROID");
                      ("clientVersion", JStr "20.10.38")])]);
        ("videoId", JStr video_id)].

Definition player_endpoint (api_key : string) : string :=
  ("https://www.youtube.com/youtubei/v1/player?key=" ++ api_key)%string.

Definition try_android_player (html video_id : string) (w : W)
  : result (option (list segment)) * W :=
  match extract_innertube_api_key html with
  | None => (Ret None, w)
  | Some api_key =>
      if String.eqb api_key "" then (Ret None, w)
      else
        let '(data, w1) :=
          post (player_endpoint api_key) (android_payload video_id) [] w in
        match data with
        | None => (Ret None, w1)
        | Some d =>
            if negb (truthy d) then (Ret None, w1)
            else
              match get_caption_tracks d with
              | Raise e => (Raise e, w1)
              | Ret tracks => download_first tracks w1
              end
        end
  end.

(** ["client" in context]: a key of a dict, a part of a string, an item
    of a list; no other value can be searched. *)
Definition has_client (context : json) : result bool :=
  match context with
  | JObj fields =>
      Ret (match lookup "client" fields with Some _ => true | None => false end)
  | JStr s => Ret (Str.contains "client" s)
  | JArr items =>
      Ret (existsb (fun x => match x with
                             | JStr s => String.eqb s "client"
                             | _ => false
                             end) items)
  | _ => Raise TypeError
  end.

(** [context["client"]["originalUrl"] = url]: both subscripts need a
    dict. *)
Definition set_original_url (context : json) (url : string) : result json :=
  match context with
  | JObj fields =>
      match lookup "client" fields with
      | Some (JObj client) =>
          Ret (JObj (dict_set "client"
                       (JObj (dict_set "originalUrl" (JStr url) client)) fields))
      | Some _ => Raise TypeError
      | None => Raise KeyError
      end
  | _ => Raise TypeError
  end.

Definition transcript_endpoint (api_key : json) : string :=
  ("https://www.youtube.com/youtubei/v1/get_transcript?key="
   ++ formatted api_key)%string.

(** What [try_youtubei_transcript] posts, from the configuration: the
    address, the payload and the headers; [None] when it returns before
    the request. *)
Definition youtubei_request (config : json) (params : option string) (url : string)
  : result (option (string * json * list (string * json))) :=
  api_key <- Py.get config "INNERTUBE_API_KEY" JNull ;;
  context <- Py.get config "INNERTUBE_CONTEXT" JNull ;;
  match params with
  | None => Ret None
  | Some p =>
      if negb (truthy api_key && truthy context && negb (String.eqb p ""))
      then Ret None
      else
        found <- has_client context ;;
        context <- (if found then set_original_url context url else Ret context) ;;
        let payload := JObj [("context", context); ("params", JStr p)] in
        let headers :=
          [("Origin", JStr "https://www.youtube.com");
           ("Referer", JStr url);
           ("X-Goog-AuthUser", JStr "0");
           ("X-Youtube-Bootstrap-Logged-In", JStr "false")] in
        client_version <- Py.get config "INNERTUBE_CLIENT_VERSION" JNull ;;
        let headers :=
          if truthy client_version
          then dict_set "X-Youtube-Client-Version" (JStr (formatted client_version)) headers
          else headers in
        visitor_data <- Py.get config "VISITOR_DATA" JNull ;;
        let headers :=
          if truthy visitor_data
          then dict_set "X-Goog-Visitor-Id" visitor_data headers
          else headers in
        Ret (Some (transcript_endpoint api_key, payload, headers))
  end.

Definition try_youtubei_transcript (html url : string) (w : W)
  : result (option (list segment)) * W :=
  match extract_bootstrap_config html with
  | Raise e => (Raise e, w)
  | Ret None => (Ret None, w)
  | Ret (Some config) =>
      if negb (truthy config) then (Ret None, w)
      else
        match youtubei_request config (extract_transcript_params html) url with
        | Raise e => (Raise e, w)
        | Ret None => (Ret None, w)
        | Ret (Some (address, payload, headers)) =>
            let '(data, w1) := post address payload headers w in
            match data with
            | None => (Ret None, w1)
            | Some d =>
                if negb (truthy d) then (Ret None, w1)
                else (parse_youtubei_response d, w1)
            end
        end
  end.

End Callees.

End Strategy.

(** The callees of [main] as the script defines them. *)
Definition script_callees `{Library} {W : Type}
    (post : string -> json -> list (string * json) -> W -> option json * W)
    (download : json -> W -> result (option (list segment)) * W)
    (str : json -> string) : callees W :=
  {| try_youtubei_transcript := Strategy.try_youtubei_transcript post str;
     download_track := download;
     try_android_player := Strategy.try_android_player post download |}.

(** ** The output of [main] *)

(** one line of the output with [--timestamps] *)
Definition timestamp_line (seg : segment) : string :=
  let ts := match start_ms seg with
            | Some ms => format_timestamp ms
            | None => "?"
            end in
  ("[" ++ ts ++ "] " ++ text seg)%string.

(** [sep.join(parts)] for a one-character separator *)
Fixpoint join_with (sep : ascii) (parts : list string) : string :=
  match parts with
  | [] => EmptyString
  | [p] => p
  | p :: rest => (p ++ String sep (join_with sep rest))%string
  end.

Definition newline : ascii := Eval cbv in ascii_of_nat 10.

(** the text printed after the title without [--timestamps] and
    [--json], and the ["text"] entry with [--json] *)
Definition transcript_text (segments : list segment) : string :=
  join_with newline (map text segments).


(** ** A reference implementation of the library

    Used to evaluate the script on concrete inputs. It follows CPython's
    [json], [html] and [urllib.parse] on texts of 8-bit characters, with
    these limits: an escape [\uXXXX] above code point 255 is not decoded (the
    text is reported as undecodable); [unescape] knows the five predefined
    entities and the reference [&#39;]; percent escapes above [%7F] stay
    as they are in [parse_qs]; [urlparse] does not validate the address
    in a bracketed host. No theorem about the script depends on this
    module: the general theorems hold for every [Library]. *)

Module Ref.

Local Open Scope Z_scope.

(** *** [json.loads] *)

(** the whitespace of JSON: space, tab, line feed, carriage return *)
Definition json_ws (c : ascii) : bool :=
  let n := nat_of_ascii c in
  Nat.eqb n 32 || Nat.eqb n 9 || Nat.eqb n 10 || Nat.eqb n 13.

Definition skip_ws (s : string) : string := Str.lstrip_by json_ws s.

Definition hex_value (c : ascii) : option nat :=
  let n := nat_of_ascii c in
  if Nat.leb 48 n && Nat.leb n 57 then Some (n - 48)%nat
  else if Nat.leb 65 n && Nat.leb n 70 then Some (n - 55)%nat
  else if Nat.leb 97 n && Nat.leb n 102 then Some (n - 87)%nat
  else None.

(** The characters of a string literal after its opening quote: the
    decoded string and what follows the closing quote. *)
Fixpoint string_body (s : string) (skip : nat) : option (string * string) :=
  match s with
  | EmptyString => None
  | String c s' =>
      match skip with
      | S k => string_body s' k
      | O =>
          let cons (d : ascii) (n : nat) :=
            option_map (fun p => (String d (fst p), snd p)) (string_body s' n) in
          if Ascii.eqb c dquote then Some (EmptyString, s')
          else if Nat.ltb (nat_of_ascii c) 32 then None
          else if Ascii.eqb c "\" then
            match s' with
            | String "u" (String h1 (String h2 (String h3 (String h4 _)))) =>
                match hex_value h1, hex_value h2, hex_value h3, hex_value h4 with
                | Some 0%nat, Some 0%nat, Some a, Some b =>
                    cons (ascii_of_nat (16 * a + b)) 5%nat
                | _, _, _, _ => None
                end
            | String e _ =>
                if Ascii.eqb e dquote then cons dquote 1%nat
                else if Ascii.eqb e "\" then cons "\"%char 1%nat
                else if Ascii.eqb e "/" then cons "/"%char 1%nat
                else if Ascii.eqb e "b" then cons (ascii_of_nat 8) 1%nat
                else if Ascii.eqb e "f" then cons (ascii_of_nat 12) 1%nat
                else if Ascii.eqb e "n" then cons (ascii_of_nat 10) 1%nat
                else if Ascii.eqb e "r" then cons (ascii_of_nat 13) 1%nat
                else if Ascii.eqb e "t" then cons (ascii_of_nat 9) 1%nat
                else None
            | EmptyString => None
            end
          else cons c 0%nat
      end
  end.

(** A number at the start of [s]: an optional minus, then a zero or a
    run of digits that starts with no zero, then an optional fraction and
    an optional exponent; the longest match. *)
Definition number (s : string) : option (json * string) :=
  let (neg, r0) := match s with String "-" r => (true, r) | _ => (false, s) end in
  let (ip, r1) :=
    match r0 with
    | String "0" r => ("0"%string, r)
    | _ => span_digits r0
    end in
  if String.eqb ip "" then None
  else
    let (fp, r2) :=
      match r1 with
      | String "." r =>
          let (d, r') := span_digits r in
          if String.eqb d "" then (EmptyString, r1) else (d, r')
      | _ => (EmptyString, r1)
      end in
    let (ex, r3) :=
      match r2 with
      | String c r =>
          if Ascii.eqb c "e" || Ascii.eqb c "E" then
            let (sg, r') :=
              match r with
              | String "-" t => (true, t)
              | String "+" t => (false, t)
              | _ => (false, r)
              end in
            let (d, r'') := span_digits r' in
            if String.eqb d "" then (None, r2)
            else (Some (if sg then - digits_value 0 d else digits_value 0 d), r'')
          else (None, r2)
      | EmptyString => (None, r2)
      end in
    let sign (z : Z) := if neg then - z else z in
    match fp, ex with
    | EmptyString, None => Some (JInt (sign (digits_value 0 ip)), r3)
    | _, _ =>
        let x := match ex with Some x => x | None => 0 end in
        Some (JFloat (round_decimal (sign (digits_value 0 (ip ++ fp)%string))
                                    (x - Z.of_nat (String.length fp))), r3)
    end.

(** A value at the start of [s], and what follows it. *)
Fixpoint value (fuel : nat) (s : string) : option (json * string) :=
  match fuel with
  | O => None
  | S fuel' =>
      if Str.startswith "null" s then Some (JNull, Str.drop 4 s)
      else if Str.startswith "true" s then Some (JBool true, Str.drop 4 s)
      else if Str.startswith "false" s then Some (JBool false, Str.drop 5 s)
      else if Str.startswith "NaN" s then Some (JFloat FNan, Str.drop 3 s)
      else if Str.startswith "Infinity" s then Some (JFloat (FInf false), Str.drop 8 s)
      else if Str.startswith "-Infinity" s then Some (JFloat (FInf true), Str.drop 9 s)
      else
        match s with
        | String c r =>
            if Ascii.eqb c dquote then
              option_map (fun p => (JStr (fst p), snd p)) (string_body r 0)
            else if Ascii.eqb c "[" then
              match skip_ws r with
              | String "]" r' => Some (JArr [], r')
              | r' => elements fuel' r'
              end
            else if Ascii.eqb c "{" then
              match skip_ws r with
              | String "}" r' => Some (JObj [], r')
              | r' => members fuel' r' []
              end
            else number s
        | EmptyString => None
        end
  end

with elements (fuel : nat) (s : string) : option (json * string) :=
  match fuel with
  | O => None
  | S fuel' =>
      match value fuel' s with
      | None => None
      | Some (v, r) =>
          match skip_ws r with
          | String "]" r' => Some (JArr [v], r')
          | String "," r' =>
              match elements fuel' (skip_ws r') with
              | Some (JArr vs, r'') => Some (JArr (v :: vs), r'')
              | _ => None
              end
          | _ => None
          end
      end
  end

with members (fuel : nat) (s : string) (acc : list (string * json))
  : option (json * string) :=
  match fuel with
  | O => None
  | S fuel' =>
      match s with
      | String q r =>
          if Ascii.eqb q dquote then
            match string_body r 0 with
            | None => None
            | Some (k, r1) =>
                match skip_ws r1 with
                | String ":" r2 =>
                    match value fuel' (skip_ws r2) with
                    | None => None
                    | Some (v, r3) =>
                        match skip_ws r3 with
                        | String "}" r4 => Some (JObj (dict_set k v acc), r4)
                        | String "," r4 => members fuel' (skip_ws r4) (dict_set k v acc)
                        | _ => None
                        end
                    end
                | _ => None
                end
            end
          else None
      | EmptyString => None
      end
  end.

Definition loads (s : string) : result json :=
  match value (2 * String.length s + 2) (skip_ws s) with
  | Some (v, r) =>
      match skip_ws r with
      | EmptyString => Ret v
      | _ => Raise JSONDecodeError
      end
  | None => Raise JSONDecodeError
  end.

(** *** [html.unescape] *)

Fixpoint unescape_from (s : string) (skip : nat) : string :=
  match s with
  | EmptyString => EmptyString
  | String c s' =>
      match skip with
      | S k => unescape_from s' k
      | O =>
          if Str.startswith "&amp;" s then String "&" (unescape_from s' 4)
          else if Str.startswith "&lt;" s then String "<" (unescape_from s' 3)
          else if Str.startswith "&gt;" s then String ">" (unescape_from s' 3)
          else if Str.startswith "&quot;" s then String dquote (unescape_from s' 5)
          else if Str.startswith "&apos;" s then String "'" (unescape_from s' 5)
          else if Str.startswith "&#39;" s then String "'" (unescape_from s' 4)
          else String c (unescape_from s' 0)
      end
  end.

Definition html_unescape (s : string) : string := unescape_from s 0.

(** *** [urllib.parse] *)

Definition is_alpha (c : ascii) : bool :=
  let n := nat_of_ascii c in
  (Nat.leb 65 n && Nat.leb n 90) || (Nat.leb 97 n && Nat.leb n 122).

Definition scheme_char (c : ascii) : bool :=
  is_alpha c || is_digit c || Ascii.eqb c "+" || Ascii.eqb c "-" || Ascii.eqb c ".".

Fixpoint remove_chars (p : ascii -> bool) (s : string) : string :=
  match s with
  | EmptyString => EmptyString
  | String c s' => if p c then remove_chars p s' else String c (remove_chars p s')
  end.

(** the longest prefix with no character of [p], and what follows it *)
Fixpoint span_until (p : ascii -> bool) (s : string) : string * string :=
  match s with
  | EmptyString => (EmptyString, EmptyString)
  | String c s' =>
      if p c then (EmptyString, s)
      else let (a, b) := span_until p s' in (String c a, b)
  end.

(** [s.partition(c)]: the part before the first [c], whether [c] occurs,
    and the part after it *)
Definition partition (c : ascii) (s : string) : string * bool * string :=
  let (a, b) := span_until (Ascii.eqb c) s in
  match b with
  | String _ b' => (a, true, b')
  | EmptyString => (a, false, EmptyString)
  end.

(** the part of [s] after its last [c], all of [s] without a [c] *)
Fixpoint after_last (c : ascii) (s : string) : string :=
  match s with
  | EmptyString => EmptyString
  | String a s' =>
      if Str.contains (String c EmptyString) s' then after_last c s'
      else if Ascii.eqb a c then s' else s
  end.

Definition uses_params : list string :=
  [""; "ftp"; "hdl"; "prospero"; "http"; "imap"; "https"; "shttp"; "rtsp";
   "rtspu"; "sip"; "sips"; "mms"; "sftp"; "tel"]%string.

(** the path without the parameters of its last segment *)
Definition strip_params (url : string) : string :=
  let last := after_last "/" url in
  let head := Str.take (String.length url - String.length last) url in
  (head ++ fst (span_until (Ascii.eqb ";") last))%string.

Definition host_of (netloc : string) : option string :=
  let hostinfo := after_last "@" netloc in
  let '(_, have_open_br, bracketed) := partition "[" hostinfo in
  let host :=
    if have_open_br then fst (fst (partition "]" bracketed))
    else fst (fst (partition ":" hostinfo)) in
  if String.eqb host "" then None
  else
    let '(h, percent, zone) := partition "%" host in
    Some (Str.lower h ++ (if percent then "%" else "") ++ zone)%string.

Definition url_parse (url0 : string) : result parsed_url :=
  let url1 := Str.lstrip_by (fun c => Nat.leb (nat_of_ascii c) 32) url0 in
  let url2 :=
    remove_chars (fun c => let n := nat_of_ascii c in
                           Nat.eqb n 9 || Nat.eqb n 10 || Nat.eqb n 13) url1 in
  let (sch, url3) :=
    match Str.find ":" url2, url2 with
    | Some (S i), String c0 _ =>
        if is_alpha c0 && Str.all scheme_char (Str.take (S i) url2)
        then (Str.lower (Str.take (S i) url2), Str.drop (S (S i)) url2)
        else (EmptyString, url2)
    | _, _ => (EmptyString, url2)
    end in
  let (loc, url4) :=
    if Str.startswith "//" url3 then
      span_until (fun c => Ascii.eqb c "/" || Ascii.eqb c "?" || Ascii.eqb c "#")
                 (Str.drop 2 url3)
    else (EmptyString, url3) in
  if xorb (Str.contains "[" loc) (Str.contains "]" loc) then Raise ValueError
  else
    let url5 := fst (fst (partition "#" url4)) in
    let '(url6, _, qs) := partition "?" url5 in
    let url7 :=
      if existsb (String.eqb sch) uses_params && Str.contains ";" url6
      then strip_params url6 else url6 in
    Ret {| scheme := sch; netloc := loc; path := url7; query := qs;
           hostname := host_of loc |}.

(** [%XX] below [%80] decoded, [+] already turned into a space *)
Fixpoint unquote (s : string) (skip : nat) : string :=
  match s with
  | EmptyString => EmptyString
  | String c s' =>
      match skip with
      | S k => unquote s' k
      | O =>
          match s with
          | String "%" (String h1 (String h2 _)) =>
              match hex_value h1, hex_value h2 with
              | Some a, Some b =>
                  if Nat.ltb a 8 then String (ascii_of_nat (16 * a + b)) (unquote s' 2)
                  else String c (unquote s' 0)
              | _, _ => String c (unquote s' 0)
              end
          | _ => String c (unquote s' 0)
          end
      end
  end.

Fixpoint plus_to_space (s : string) : string :=
  match s with
  | EmptyString => EmptyString
  | String c s' => String (if Ascii.eqb c "+" then " "%char else c) (plus_to_space s')
  end.

(** [parse_qsl]: the pairs with a non-empty value, in order *)
Fixpoint pairs_of (fields : list string) : list (string * string) :=
  match fields with
  | [] => []
  | f :: rest =>
      let '(name, has_eq, v) := partition "=" f in
      if has_eq && negb (String.eqb v "")
      then (unquote (plus_to_space name) 0, unquote (plus_to_space v) 0) :: pairs_of rest
      else pairs_of rest
  end.

(** the dict of [parse_qs]: a value joins the list of its name *)
Fixpoint group (pairs : list (string * string)) (acc : list (string * list string))
  : list (string * list string) :=
  match pairs with
  | [] => acc
  | (k, v) :: rest =>
      group rest (dict_set k (match lookup k acc with
                              | Some vs => vs ++ [v]
                              | None => [v]
                              end) acc)
  end.

Definition parse_query (qs : string) : list (string * list string) :=
  if String.eqb qs "" then [] else group (pairs_of (Str.split "&" qs)) [].

Definition hex_digit (n : nat) : ascii :=
  if Nat.ltb n 10 then ascii_of_nat (48 + n) else ascii_of_nat (55 + n).

Definition percent (n : nat) : string :=
  String "%" (String (hex_digit (n / 16)) (String (hex_digit (n mod 16)) EmptyString)).

(** [quote_plus]: letters, digits and [_.-~] stay, a space becomes [+],
    the rest is escaped byte by byte in UTF-8 *)
Fixpoint quote_plus (s : string) : string :=
  match s with
  | EmptyString => EmptyString
  | String c s' =>
      let n := nat_of_ascii c in
      (if is_alpha c || is_digit c || Ascii.eqb c "_" || Ascii.eqb c "."
          || Ascii.eqb c "-" || Ascii.eqb c "~"
       then String c EmptyString
       else if Ascii.eqb c " " then "+"
       else if Nat.ltb n 128 then percent n
       else percent (192 + n / 64) ++ percent (128 + n mod 64))%string
      ++ quote_plus s'
  end.

Fixpoint join_amp (parts : list string) : string :=
  match parts with
  | [] => EmptyString
  | [x] => x
  | x :: rest => (x ++ "&" ++ join_amp rest)%string
  end.

Definition url_encode (params : list (string * list string)) : string :=
  join_amp
    (flat_map (fun kv => map (fun v => (quote_plus (fst kv) ++ "=" ++ quote_plus v)%string)
                             (snd kv))
              params).

#[export] Instance library : Library := {|
  json_loads := loads;
  unescape := html_unescape;
  urlparse := url_parse;
  parse_qs := parse_query;
  urlencode := url_encode
|}.

(** *** The recursion limit of the decoder *)

(** The decoder of CPython calls itself for every array and object it
    enters, and raises [RecursionError] when the calls are nested deeper
    than the interpreter allows. [descent] follows the decoder from the
    start of the text down the first element of every array and the
    first member of every object, and counts the arrays and objects
    entered on the way; nothing else of the text has been looked at when
    the decoder is that deep. *)
Inductive descent_state : Type :=
| AtValue
| AtKey
| InKey (escaping : bool)
| AtColon.

Fixpoint descent (s : string) (st : descent_state) (depth : nat) : nat :=
  match s with
  | EmptyString => depth
  | String c r =>
      match st with
      | AtValue =>
          if json_ws c then descent r AtValue depth
          else if Ascii.eqb c "[" then descent r AtValue (S depth)
          else if Ascii.eqb c "{" then descent r AtKey (S depth)
          else depth
      | AtKey =>
          if json_ws c then descent r AtKey depth
          else if Ascii.eqb c dquote then descent r (InKey false) depth
          else depth
      | InKey true =>
          if Ascii.eqb c dquote || Ascii.eqb c "\" || Ascii.eqb c "/"
             || Ascii.eqb c "b" || Ascii.eqb c "f" || Ascii.eqb c "n"
             || Ascii.eqb c "r" || Ascii.eqb c "t"
          then descent r (InKey false) depth
          else depth
      | InKey false =>
          if Ascii.eqb c dquote then descent r AtColon depth
          else if Ascii.eqb c "\" then descent r (InKey true) depth
          else if Nat.ltb (nat_of_ascii c) 32 then depth
          else descent r (InKey false) depth
      | AtColon =>
          if json_ws c then descent r AtColon depth
          else if Ascii.eqb c ":" then descent r AtValue depth
          else depth
      end
  end.

(** [json.loads] under a recursion limit: a text whose descent is deeper
    than [limit] raises [RecursionError] before the decoder has seen
    whether the text is valid. The interpreter raises somewhat earlier, by
    the calls that surround the decoder; a nesting that is reached only
    after a first element is not counted. *)
Definition loads_limited (limit : nat) (s : string) : result json :=
  if Nat.ltb limit (descent s AtValue 0) then Raise RecursionError else loads s.

(** the library of an interpreter with the recursion limit [limit] *)
Definition library_limited (limit : nat) : Library := {|
  json_loads := loads_limited limit;
  unescape := html_unescape;
  urlparse := url_parse;
  parse_qs := parse_query;
  urlencode := url_encode
|}.

End Ref.

(** ** Properties stated by the specification *)

(** Some character of [s] does not satisfy [p]. *)
Fixpoint has_non (p : ascii -> bool) (s : string) : bool :=
  match s with
  | EmptyString => false
  | String c s' => negb (p c) || has_non p s'
  end.


(** The part of it that does not depend on the numbers sent by the host. *)
Definition segment_shape (s : segment) : Prop :=
  text s <> "" /\ (end_ms s <> None -> start_ms s <> None).

(** [r] is what one of the three producers of segments returned. *)
Inductive produced `{Library} : option (list segment) -> Prop :=
| produced_json3 (raw : string) (r : option (list segment)) :
    parse_json3_transcript raw = Ret r -> produced r
| produced_xml (xml : string) (r : option (list segment)) :
    parse_xml_transcript xml = Ret r -> produced r
| produced_youtubei (data : json) (r : option (list segment)) :
    parse_youtubei_response data = Ret r -> produced r.

(** the presence test [r is not None] *)
Definition is_some {A : Type} (r : option A) : bool :=
  match r with Some _ => true | None => false end.

(** The times of a segment of the compact format and of the endpoint come
    from the two fields of the input: the start is [int(start_v)], the end
    is the start plus [int(duration_v)]. *)
Definition times_from (start_v duration_v : json) (s : segment) : Prop :=
  (forall a, start_ms s = Some a -> Py.int start_v = Ret a) /\
  (forall b, end_ms s = Some b ->
     exists a d, start_ms s = Some a /\ Py.int duration_v = Ret d /\ b = (a + d)%Z).

(** The same for an element of the timed XML format: the two numbers are
    read from the attributes of the element. *)
Definition xml_times_from (g0 : string) (s : segment) : Prop :=
  (forall a, start_ms s = Some a ->
     exists v, search_attr "start" None g0 = Some v /\ float_ms v = Ret a) /\
  (forall b, end_ms s = Some b ->
     exists a v d, start_ms s = Some a /\ search_attr "dur" None g0 = Some v /\
                   float_ms v = Ret d /\ b = (a + d)%Z).


(** The cases in which the specification asks the extractor of the player
    response for [not found]. *)
Inductive not_found_case `{Library} (html : string) : Prop :=
| marker_absent :
    Str.find token html = None -> not_found_case html
| no_open_brace (idx : nat) :
    Str.find token html = Some idx ->
    Str.find_from "{" html idx = None -> not_found_case html
| never_closes (idx eq_idx start : nat) :
    Str.find token html = Some idx ->
    Str.find_from "=" html idx = Some eq_idx ->
    Str.find_from "{" html eq_idx = Some start ->
    scan (Str.drop start html) start 0 false false = None -> not_found_case html
| invalid_json (idx eq_idx : nat) (obj_text : string) :
    Str.find token html = Some idx ->
    Str.find_from "=" html idx = Some eq_idx ->
    extract_balanced_json html eq_idx = Some obj_text ->
    json_loads obj_text = Raise JSONDecodeError -> not_found_case html.

(** The order of the sort keys: first by [is_asr], then by [is_en]. *)
Definition key_le (a b : Z * Z) : Prop :=
  (fst a < fst b)%Z \/ (fst a = fst b /\ (snd a <= snd b)%Z).

Definition key_eqb (a b : Z * Z) : bool :=
  Z.eqb (fst a) (fst b) && Z.eqb (snd a) (snd b).

(** the items of a keyed list that have the key [k], in their order *)
Definition with_key {A : Type} (k : Z * Z) (l : list ((Z * Z) * A)) : list ((Z * Z) * A) :=
  filter (fun x => key_eqb (fst x) k) l.

Definition is_slash (c : ascii) : bool := Ascii.eqb c "/".

Definition not_slash (c : ascii) : bool := negb (Ascii.eqb c "/").

(** what may follow an identifier in a path: nothing, or a slash *)
Definition segment_end (rest : string) : Prop :=
  rest = "" \/ Str.startswith "/" rest = true.

(** The shapes of URL of the specification, read on the parsed URL, each
    with the identifier that the resolver is to return. *)
Inductive url_shape `{Library} (p : parsed_url) : option string -> Prop :=
| shape_short_domain (slashes id rest : string) :
    host_name p = "youtu.be" ->
    path p = (slashes ++ id ++ rest)%string ->
    Str.all is_slash slashes = true ->
    id <> "" -> Str.all not_slash id = true -> segment_end rest ->
    url_shape p (Some id)
| shape_watch (id : string) (more : list string) :
    host_name p <> "youtu.be" -> Str.contains "youtube.com" (host_name p) = true ->
    path p = "/watch" ->
    lookup "v" (parse_qs (query p)) = Some (id :: more) ->
    url_shape p (Some id)
| shape_prefix (prefix id rest : string) :
    host_name p <> "youtu.be" -> Str.contains "youtube.com" (host_name p) = true ->
    In prefix prefixes ->
    path p = (prefix ++ id ++ rest)%string ->
    Str.all not_slash id = true -> segment_end rest ->
    url_shape p (Some id)
| shape_other_host :
    host_name p <> "youtu.be" -> Str.contains "youtube.com" (host_name p) = false ->
    url_shape p None
| shape_other_path :
    host_name p <> "youtu.be" -> Str.contains "youtube.com" (host_name p) = true ->
    path p <> "/watch" ->
    (forall prefix, In prefix prefixes -> Str.startswith prefix (path p) = false) ->
    url_shape p None.

(** The boundary inputs on the recognized hosts. *)
Inductive boundary_case `{Library} (p : parsed_url) : option string -> Prop :=
| watch_without_v :
    host_name p <> "youtu.be" -> Str.contains "youtube.com" (host_name p) = true ->
    path p = "/watch" -> lookup "v" (parse_qs (query p)) = None ->
    boundary_case p None
| short_domain_empty_path :
    host_name p = "youtu.be" -> Str.all is_slash (path p) = true ->
    boundary_case p None
| prefix_alone (prefix : string) :
    host_name p <> "youtu.be" -> Str.contains "youtube.com" (host_name p) = true ->
    In prefix prefixes -> path p = prefix ->
    boundary_case p (Some "").

(** The label that [main] gives to a strategy. *)
Definition label (s : strategy) : string :=
  match s with
  | Youtubei => "youtubei"
  | CaptionTracks => "captionTracks"
  | AndroidPlayer => "android_player"
  end.

Definition failed (e : call) : Prop := yielded e = false.

(** The runs of the chain: what [main] ends with, and the calls made. *)
Inductive chain_run : result outcome -> list call -> Prop :=
| run_first (s : option (list segment)) :
    has_segments s = true ->
    chain_run (Ret (SUCCEEDED "youtubei" s)) [{| who := Youtubei; yielded := true |}]
| run_second (s : option (list segment)) (downloads : list call) :
    has_segments s = true ->
    Forall (fun e => who e = CaptionTracks /\ failed e) downloads ->
    chain_run (Ret (SUCCEEDED "captionTracks" s))
              ({| who := Youtubei; yielded := false |} :: downloads
               ++ [{| who := CaptionTracks; yielded := true |}])
| run_third (s : option (list segment)) (downloads : list call) :
    has_segments s = true ->
    Forall (fun e => who e = CaptionTracks /\ failed e) downloads ->
    chain_run (Ret (SUCCEEDED "android_player" s))
              ({| who := Youtubei; yielded := false |} :: downloads
               ++ [{| who := AndroidPlayer; yielded := true |}])
| run_failed (downloads : list call) :
    Forall (fun e => who e = CaptionTracks /\ failed e) downloads ->
    chain_run (Ret FAILED)
              ({| who := Youtubei; yielded := false |} :: downloads
               ++ [{| who := AndroidPlayer; yielded := false |}])
| run_raised (e : exn) (downloads last : list call) :
    Forall (fun e => who e = CaptionTracks /\ failed e) downloads ->
    last = [] \/ last = [{| who := AndroidPlayer; yielded := false |}] ->
    chain_run (Raise e) ({| who := Youtubei; yielded := false |} :: downloads ++ last).

(** Every call but the last one of the log yielded nothing. *)
Definition all_but_last_failed (log : list call) : Prop :=
  forall before e after, log = before ++ e :: after -> after <> [] -> failed e.

(** The calls come in the order of the strategies. *)
Definition in_fixed_order (log : list call) : Prop :=
  exists y downloads last,
    log = y :: downloads ++ last /\ who y = Youtubei /\
    Forall (fun e => who e = CaptionTracks) downloads /\
    (last = [] \/ exists a, last = [a] /\ who a = AndroidPlayer).

(** The texts on which the scanner keeps the balance: the inside of a
    quoted string, where a backslash protects the character after it and
    no other character is a quote or a backslash. *)
Inductive string_body : string -> Prop :=
| body_end : string_body ""
| body_char (c : ascii) (s : string) :
    is_quote c = false -> Ascii.eqb c "\" = false ->
    string_body s -> string_body (String c s)
| body_escape (c : ascii) (s : string) :
    string_body s -> string_body (String "\" (String c s)).

(** A text with balanced braces outside its quoted strings. *)
Inductive balanced : string -> Prop :=
| balanced_end : balanced ""
| balanced_char (c : ascii) (s : string) :
    is_quote c = false -> Ascii.eqb c "{" = false -> Ascii.eqb c "}" = false ->
    balanced s -> balanced (String c s)
| balanced_string (q1 q2 : ascii) (body s : string) :
    is_quote q1 = true -> is_quote q2 = true ->
    string_body body -> balanced s ->
    balanced (String q1 (body ++ String q2 s))
| balanced_object (inner s : string) :
    balanced inner -> balanced s ->
    balanced (String "{" (inner ++ String "}" s)).

Definition not_amp (c : ascii) : bool := negb (Ascii.eqb c "&").

(** where a value of a query parameter ends: at the end of the text or in
    front of an ampersand *)
Definition at_boundary (rest : string) : Prop :=
  rest = "" \/ Str.startswith "&" rest = true.

(** The first attempt of a download at [log] yields nothing and leaves
    the log at [log1]: the address of the track cannot be parsed, the
    request for the compact format fails, its answer makes the parser
    raise, or the parser returns no segments. *)
Inductive compact_yields_nothing `{Library} (net : network) (base_url : string)
    (log : list string) : list string -> Prop :=
| unparsed_address (e : exn) :
    urlparse base_url = Raise e ->
    compact_yields_nothing net base_url log log
| failed_request (p : parsed_url) (e : exn) :
    urlparse base_url = Ret p -> net log (json3_url p) = Raise e ->
    compact_yields_nothing net base_url log (log ++ [json3_url p])
| parser_raised (p : parsed_url) (t : string) (e : exn) :
    urlparse base_url = Ret p -> net log (json3_url p) = Ret t ->
    parse_json3_transcript t = Raise e ->
    compact_yields_nothing net base_url log (log ++ [json3_url p])
| no_segments (p : parsed_url) (t : string) (r : option (list segment)) :
    urlparse base_url = Ret p -> net log (json3_url p) = Ret t ->
    parse_json3_transcript t = Ret r -> has_segments r = false ->
    compact_yields_nothing net base_url log (log ++ [json3_url p]).

(** whether what a callee returned passes the test [if segments] *)
Definition yields (r : result (option (list segment))) : bool :=
  match r with
  | Ret v => has_segments v
  | Raise _ => false
  end.

(** Test doubles of the three callees that record their own calls: the
    world is the list of the calls made so far, each with what it yielded,
    and what a callee returns is decided by its answer function from the
    calls before it and from its arguments. *)
Definition recording_callees
    (answer1 : list call -> string -> string -> result (option (list segment)))
    (answer2 : list call -> json -> result (option (list segment)))
    (answer3 : list call -> string -> string -> result (option (list segment)))
  : callees (list call) :=
  {| try_youtubei_transcript := fun html url w =>
       (answer1 w html url,
        w ++ [{| who := Youtubei; yielded := yields (answer1 w html url) |}]);
     download_track := fun base_url w =>
       (answer2 w base_url,
        w ++ [{| who := CaptionTracks; yielded := yields (answer2 w base_url) |}]);
     try_android_player := fun html video_id w =>
       (answer3 w html video_id,
        w ++ [{| who := AndroidPlayer; yielded := yields (answer3 w html video_id) |}]) |}.

(** The two criteria of the ranking as the specification words them, read
    from the fields of a track: a track is automatic when its [kind] is
    [asr], and English when its [languageCode] begins with [en]. *)
Definition is_automatic (track : json) : bool :=
  match track with
  | JObj fields =>
      match lookup "kind" fields with
      | Some (JStr k) => String.eqb k "asr"
      | _ => false
      end
  | _ => false
  end.

Definition is_english (track : json) : bool :=
  match track with
  | JObj fields =>
      match lookup "languageCode" fields with
      | Some (JStr l) => Str.startswith "en" l
      | _ => false
      end
  | _ => false
  end.

(** the rank of a track: automatic tracks last, then tracks that are not
    English last *)
Definition rank (track : json) : Z * Z :=
  (if is_automatic track then 1%Z else 0%Z, if is_english track then 0%Z else 1%Z).

(** [a] stands somewhere in front of [b] in [l] *)
Definition before {A : Type} (a b : A) (l : list A) : Prop :=
  exists l1 l2 l3, l = l1 ++ a :: l2 ++ b :: l3.

(** The texts on which the depth of the scanner never comes back to the
    depth they begin at, less one: balanced texts, texts with an object
    that is opened and not closed, and texts with a string that is opened
    and not closed. *)
Inductive open_text : string -> Prop :=
| open_balanced (s : string) : balanced s -> open_text s
| open_object (b o : string) :
    balanced b -> open_text o -> open_text (b ++ String "{" o)
| open_string (b body : string) (q : ascii) :
    balanced b -> is_quote q = true -> string_body body ->
    open_text (b ++ String q body).





(** ** Properties of the rest of the script *)

Definition not_colon (c : ascii) : bool := negb (Ascii.eqb c ":").

Definition not_dquote (c : ascii) : bool := negb (Ascii.eqb c dquote).

Definition not_dquote_or_backslash (c : ascii) : bool :=
  negb (Ascii.eqb c dquote || Ascii.eqb c "\").

(** Every white-space character of [s] is a space that does not follow
    another one (nor the start of the text, when [prev_space] holds). *)
Fixpoint single_spaced (prev_space : bool) (s : string) : bool :=
  match s with
  | EmptyString => true
  | String c s' =>
      if Str.isspace c
      then Ascii.eqb c " " && negb prev_space && single_spaced true s'
      else single_spaced false s'
  end.

(** The same, and the text does not end with a space. *)
Fixpoint tidy_from (prev_space : bool) (s : string) : bool :=
  match s with
  | EmptyString => negb prev_space
  | String c s' =>
      if Str.isspace c
      then Ascii.eqb c " " && negb prev_space && tidy_from true s'
      else tidy_from false s'
  end.

(** A tidy text: it is not empty, begins and ends with a character that
    is not white space, and the only white space inside it are single
    spaces. *)
Definition tidy (s : string) : bool := tidy_from true s.
Definition not_newline (c : ascii) : bool := negb (Ascii.eqb c newline).

(** A callee for the downloads that only records: the world is the list
    of the addresses downloaded so far, and what a download yields is
    [answer] of that list and of the address. *)
Definition recording (answer : list json -> json -> result (option (list segment)))
  : json -> list json -> result (option (list segment)) * list json :=
  fun u log => (answer log u, log ++ [u]).

(** the addresses of the tracks that have one, in the order of the
    tracks, up to the first track that is no object *)
Fixpoint candidates (tracks : list json) : list json :=
  match tracks with
  | [] => []
  | track :: rest =>
      match track_url track with
      | Ret u => if truthy u then u :: candidates rest else candidates rest
      | Raise _ => []
      end
  end.

(** the downloads of [urls], made one after the other from [log] on, all
    returned without segments *)
Fixpoint unanswered (answer : list json -> json -> result (option (list segment)))
    (log urls : list json) : Prop :=
  match urls with
  | [] => True
  | u :: rest =>
      (exists s, answer log u = Ret s /\ has_segments s = false) /\
      unanswered answer (log ++ [u]) rest
  end.

(** the value of [key] in a dict, [None] (here [JNull]) when it is missing *)
Definition entry (key : string) (fields : list (string * json)) : json :=
  match lookup key fields with
  | Some v => v
  | None => JNull
  end.

(** [seg] is a fragment of an event of the compact format with the text
    [f]: an object whose [utf8] is that string, whatever else it holds. *)
Definition fragment_reads (seg : json) (f : string) : Prop :=
  exists fields, seg = JObj fields /\ lookup "utf8" fields = Some (JStr f).

(** [event] is an event of the compact format as the host writes it, with
    the fragments, the start and the duration of [e]: an object whose
    [segs] is a list of fragments and whose [tStartMs] and [dDurationMs]
    are integers, its keys in any order and among any others. *)
Definition event_reads (event : json) (e : list string * Z * Z) : Prop :=
  exists fields segs,
    event = JObj fields /\
    lookup "segs" fields = Some (JArr segs) /\
    Forall2 fragment_reads segs (fst (fst e)) /\
    lookup "tStartMs" fields = Some (JInt (snd (fst e))) /\
    lookup "dDurationMs" fields = Some (JInt (snd e)).

(** The segment that stands for such an event: none when its fragments
    put together are blank. *)
Definition segment_of (e : list string * Z * Z) : list segment :=
  let '(fragments, start, duration) := e in
  let joined := Str.strip (Str.join fragments) in
  if String.eqb joined "" then []
  else [{| text := Str.strip (Str.collapse_ws joined);
           start_ms := Some start;
           end_ms := Some (start + duration)%Z |}].

(** ** Concrete inputs *)

Module Sample.

(** one event of the compact format, with two fragments *)
Definition json3 : string :=
  Str.lit "{`events`:[{`segs`:[{`utf8`:`Hello `},{`utf8`:`world`}],`tStartMs`:1000,`dDurationMs`:500}]}".


(** one element of the timed XML format *)
Definition xml : string :=
  Str.lit "<text start=`1.5` dur=`2.0`>Hi &amp; bye</text>".

(** a response of the transcript endpoint with one segment *)
Definition youtubei : json :=
  let wrap (k : string) (v : json) := JObj [(k, v)] in
  wrap "actions"
    (JArr [wrap "updateEngagementPanelAction"
      (wrap "content" (wrap "transcriptRenderer" (wrap "content"
        (wrap "transcriptSearchPanelRenderer" (wrap "body"
          (wrap "transcriptSegmentListRenderer" (wrap "initialSegments"
            (JArr [wrap "transcriptSegmentRenderer"
               (JObj [("snippet", wrap "runs" (JArr [wrap "text" (JStr "Hi"); wrap "text" (JStr " there")]));
                      ("startMs", JStr "1200");
                      ("durationMs", JStr "800")])]))))))))]).

Definition track (kind lang : string) : json :=
  JObj [("kind", JStr kind); ("languageCode", JStr lang)].

(** a player response with three caption tracks *)
Definition player_response : json :=
  JObj [("captions",
         JObj [("playerCaptionsTracklistRenderer",
                JObj [("captionTracks",
                       JArr [track "asr" "fr"; track "manual" "de"; track "manual" "en"])])])].

(** two events of the compact format, the second without a duration *)
Definition json3_two : string :=
  Str.lit "{`events`:[{`segs`:[{`utf8`:`Hello `},{`utf8`:`world`}],`tStartMs`:1000,`dDurationMs`:500},{`segs`:[{`utf8`:` again `}],`tStartMs`:3661000}]}".

(** a page without any of the markers the script looks for *)
Definition page_plain : string := "<html><body>nothing to play</body></html>".

(** a page with a configuration and the parameters of the transcript
    endpoint *)
Definition page_config : string :=
  Str.lit "<script>ytcfg.set({`INNERTUBE_API_KEY`:`AIza_1`,`INNERTUBE_CONTEXT`:{`client`:{`hl`:`en`}}});</script>{`getTranscriptEndpoint`:{`params`:`CgtX`}}".

(** the same with a context whose client is a string *)
Definition page_bad_context : string :=
  Str.lit "<script>ytcfg.set({`INNERTUBE_API_KEY`:`AIza_1`,`INNERTUBE_CONTEXT`:{`client`:`web`}});</script>{`getTranscriptEndpoint`:{`params`:`CgtX`}}".

(** a player response with four tracks: one without an address, one with
    its address under [url] *)
Definition player_with_urls : json :=
  JObj [("captions",
         JObj [("playerCaptionsTracklistRenderer",
                JObj [("captionTracks",
                       JArr [JObj [("kind", JStr "asr"); ("languageCode", JStr "en");
                                   ("baseUrl", JStr "https://host.example/asr")];
                             JObj [("languageCode", JStr "de")];
                             JObj [("languageCode", JStr "en");
                                   ("baseUrl", JStr "https://host.example/en")];
                             JObj [("languageCode", JStr "fr");
                                   ("url", JStr "https://host.example/fr")]])])])].

(** downloads that yield one segment for the French track only *)
Definition answer_french (log : list json) (u : json)
  : result (option (list segment)) :=
  match u with
  | JStr "https://host.example/fr" =>
      Ret (Some [{| text := "Bonjour"; start_ms := Some 0%Z; end_ms := None |}])
  | _ => Ret None
  end.

(** three events of the compact format, the second one blank *)
Definition json3_blank : string :=
  Str.lit "{`events`:[{`segs`:[{`utf8`:`Hello `},{`utf8`:`world`}],`tStartMs`:1000,`dDurationMs`:500},{`segs`:[{`utf8`:` `},{`utf8`:``}],`tStartMs`:2000,`dDurationMs`:100},{`segs`:[{`utf8`:` again `}],`tStartMs`:3000,`dDurationMs`:250}]}".

(** answers of recording doubles: one segment, or nothing *)
Definition hi : option (list segment) :=
  Some [{| text := "Hi"; start_ms := None; end_ms := None |}].

Definition answer_page (ok : bool)
  : list call -> string -> string -> result (option (list segment)) :=
  fun _ _ _ => Ret (if ok then hi else None).

(** downloads that yield a segment for the address [good] only *)
Definition answer_track (good : string)
  : list call -> json -> result (option (list segment)) :=
  fun _ u =>
    match u with
    | JStr s => Ret (if String.eqb s good then hi else None)
    | _ => Ret None
    end.

(** a player response with an automatic English track in front of a manual
    German one *)
Definition player_two : json :=
  JObj [("captions",
         JObj [("playerCaptionsTracklistRenderer",
                JObj [("captionTracks",
                       JArr [track "asr" "en"; track "manual" "de"])])])].

(** [n] opening brackets *)
Fixpoint brackets (n : nat) : string :=
  match n with
  | O => EmptyString
  | S n' => String "[" (brackets n')
  end.

(** a watch page whose player response is an object with 2000 arrays
    opened one inside the other and none closed *)
Definition page_deep : string :=
  (Str.lit "var ytInitialPlayerResponse = {`a`:" ++ brackets 2000 ++ "};")%string.

(** three events of the compact format with their keys in different
    orders and among others, the second event blank *)
Definition json3_reordered : string :=
  Str.lit "{`wireMagic`:`pb3`,`events`:[{`tStartMs`:1000,`dDurationMs`:500,`segs`:[{`utf8`:`Hello `},{`utf8`:`world`}]},{`tStartMs`:2000,`wWinId`:1,`dDurationMs`:100,`segs`:[{`utf8`:` `},{`utf8`:``}]},{`segs`:[{`acAsrConf`:0,`utf8`:` again `}],`dDurationMs`:250,`tStartMs`:3000}]}".

(** a caption track whose address names a format *)
Definition base_url : string := "https://host.example/api/timedtext?v=1&fmt=srv3".

(** a network that serves the timed XML sample at the address without
    the format, and an empty text anywhere else *)
Definition net : network :=
  fun _ url =>
    if String.eqb url "https://host.example/api/timedtext?v=1" then Ret xml
    else Ret "".

(** Test doubles of the three callees over a counter of calls: the first
    strategy yields one segment when [first_ok], the others yield nothing. *)
Definition doubles (first_ok : bool) : callees nat := {|
  try_youtubei_transcript := fun _ _ n =>
    (Ret (if first_ok
          then Some [{| text := "Hi"; start_ms := None; end_ms := None |}]
          else None), S n);
  download_track := fun _ n => (Ret None, S n);
  try_android_player := fun _ _ n => (Ret None, S n)
|}.

(** a watch page with two caption tracks in its player response *)
Definition page_tracks : string :=
  Str.lit "var ytInitialPlayerResponse = {`captions`:{`playerCaptionsTracklistRenderer`:{`captionTracks`:[{`baseUrl`:`https://host.example/a`,`languageCode`:`de`},{`baseUrl`:`https://host.example/b`,`languageCode`:`en`}]}}};".

(** the inside of an object whose string value holds two braces and an
    escaped quote *)
Definition inner : string := Str.lit "`k`:`}\`{`".

(** a watch page whose player response holds an apostrophe *)
Definition page_apostrophe : string :=
  Str.lit "var ytInitialPlayerResponse = {`t`:`Don't`};".

(** a page whose string value holds an apostrophe and a closing brace *)
Definition page_brace : string :=
  Str.lit "var ytInitialPlayerResponse = {`a`:`it's }`};".

End Sample.

(** ** Theorems *)

Ltac inv_bind H :=
  repeat (unfold bind in H;
          match type of H with
          | context [match ?x with _ => _ end] =>
              lazymatch x with
              | context [match _ with _ => _ end] => fail
              | _ => destruct x eqn:?; try discriminate H
              end
          end).

Ltac ret_inv H := injection H as H; subst.

(** *** Strings *)

Lemma lstrip_has_non (p : ascii -> bool) (s : string) :
  has_non p (Str.lstrip_by p s) = has_non p s.
Proof.
  induction s as [|c s IH]; simpl; [reflexivity|].
  destruct (p c) eqn:E; simpl; [exact IH | rewrite E; reflexivity].
Qed.

Lemma rstrip_empty (p : ascii -> bool) (s : string) :
  has_non p s = false -> Str.rstrip_by p s = "".
Proof.
  induction s as [|c s IH]; simpl; [reflexivity|].
  intros H. apply orb_false_iff in H as [Hc Hs].
  rewrite (IH Hs). apply negb_false_iff in Hc. rewrite Hc. reflexivity.
Qed.

Lemma rstrip_has_non (p : ascii -> bool) (s : string) :
  has_non p (Str.rstrip_by p s) = has_non p s.
Proof.
  induction s as [|c s IH]; simpl; [reflexivity|].
  destruct (Str.rstrip_by p s) eqn:E.
  - simpl in IH. rewrite <- IH.
    destruct (p c) eqn:Ec; simpl; rewrite ?Ec; reflexivity.
  - simpl. simpl in IH. rewrite IH. reflexivity.
Qed.

Lemma has_non_nonempty (p : ascii -> bool) (s : string) :
  has_non p s = true -> s <> "".
Proof. destruct s; simpl; [discriminate | intros _; discriminate]. Qed.

Lemma strip_by_has_non (p : ascii -> bool) (s : string) :
  Str.strip_by p s <> "" -> has_non p (Str.strip_by p s) = true.
Proof.
  unfold Str.strip_by. intros H.
  destruct (has_non p (Str.lstrip_by p s)) eqn:E.
  - rewrite rstrip_has_non. exact E.
  - exfalso. apply H. apply rstrip_empty. exact E.
Qed.

Lemma has_non_strip_by (p : ascii -> bool) (s : string) :
  has_non p s = true -> Str.strip_by p s <> "".
Proof.
  intros H. apply (has_non_nonempty p). unfold Str.strip_by.
  rewrite rstrip_has_non, lstrip_has_non. exact H.
Qed.

Lemma collapse_has_non (b : bool) (s : string) :
  has_non Str.isspace (Str.collapse_ws_aux b s) = has_non Str.isspace s.
Proof.
  revert b. induction s as [|c s IH]; intros b; simpl; [reflexivity|].
  destruct (Str.isspace c) eqn:E; simpl.
  - destruct b; simpl; rewrite IH; reflexivity.
  - rewrite E, IH. reflexivity.
Qed.

(** The text of a segment: stripping, collapsing and stripping again a
    text with a visible character leaves a text that is not empty. *)
Lemma normalized_text_nonempty (x : string) :
  Str.strip x <> "" -> Str.strip (Str.collapse_ws (Str.strip x)) <> "".
Proof.
  intros H. apply has_non_strip_by. unfold Str.collapse_ws.
  rewrite collapse_has_non. apply strip_by_has_non. exact H.
Qed.

Lemma eqb_false_neq (a b : string) : String.eqb a b = false -> a <> b.
Proof. intros H. apply String.eqb_neq. exact H. Qed.

(** *** Segments *)

Lemma nonempty_or_none_some (l l' : list segment) :
  nonempty_or_none l = Some l' -> l' = l /\ l <> [].
Proof.
  destruct l; simpl; intros H; [discriminate|].
  injection H as <-. split; [reflexivity | discriminate].
Qed.

Lemma nonempty_or_none_has (l : list segment) :
  nonempty_or_none l <> Some [] /\
  has_segments (nonempty_or_none l) = is_some (nonempty_or_none l).
Proof. destruct l; simpl; split; try reflexivity; discriminate. Qed.

Lemma json3_segment_shape (t : string) (sv dv : json) (s : segment) :
  json3_segment t sv dv = Ret s ->
  text s = t /\ (end_ms s <> None -> start_ms s <> None).
Proof.
  unfold json3_segment. intros H. inv_bind H.
  all: ret_inv H; simpl; split; [reflexivity | congruence].
Qed.

Lemma youtubei_segment_shape (t : string) (sv dv : json) (s : segment) :
  youtubei_segment t sv dv = Ret s ->
  text s = t /\ (end_ms s <> None -> start_ms s <> None).
Proof.
  unfold youtubei_segment, try_except. intros H. inv_bind H.
  all: ret_inv H; simpl; split; [reflexivity | congruence].
Qed.

Lemma json3_event_shape (event : json) (s : segment) :
  json3_event event = Ret (Some s) -> segment_shape s.
Proof.
  unfold json3_event. intros H. inv_bind H. ret_inv H.
  match goal with E : json3_segment _ _ _ = Ret _ |- _ =>
    apply json3_segment_shape in E as [Ht Hs] end.
  split; [|exact Hs]. rewrite Ht. apply normalized_text_nonempty.
  apply eqb_false_neq. assumption.
Qed.

Lemma json3_events_shape (events : list json) (segments : list segment) :
  json3_events events = Ret segments -> Forall segment_shape segments.
Proof.
  revert segments. induction events as [|ev rest IH]; simpl; intros segments H.
  - ret_inv H. constructor.
  - inv_bind H; ret_inv H.
    + constructor; [eapply json3_event_shape; eassumption | apply IH; reflexivity].
    + apply IH; reflexivity.
Qed.

Lemma youtubei_item_shape (seg : json) (s : segment) :
  youtubei_item seg = Ret (Some s) -> segment_shape s.
Proof.
  unfold youtubei_item. intros H. inv_bind H. ret_inv H.
  match goal with E : youtubei_segment _ _ _ = Ret _ |- _ =>
    apply youtubei_segment_shape in E as [Ht Hs] end.
  split; [|exact Hs]. rewrite Ht. apply normalized_text_nonempty.
  apply eqb_false_neq. assumption.
Qed.

Lemma youtubei_items_shape (segs : list json) (segments : list segment) :
  youtubei_items segs = Ret segments -> Forall segment_shape segments.
Proof.
  revert segments. induction segs as [|seg rest IH]; simpl; intros segments H.
  - ret_inv H. constructor.
  - inv_bind H; ret_inv H.
    + constructor; [eapply youtubei_item_shape; eassumption | apply IH; reflexivity].
    + apply IH; reflexivity.
Qed.


Lemma xml_segment_shape `{Library} (g0 g1 : string) (s : segment) :
  xml_segment g0 g1 = Ret (Some s) -> segment_shape s /\ xml_times_from g0 s.
Proof.
  unfold xml_segment, try_except. intros H0.
  destruct (String.eqb _ "") eqn:Et; [discriminate|].
  apply eqb_false_neq in Et.
  destruct (search_attr "start" None g0) as [v|] eqn:Es;
    destruct (search_attr "dur" None g0) as [w|] eqn:Ed;
    try destruct (float_ms v) as [a|e] eqn:Ev; try destruct e;
    try destruct (float_ms w) as [d|e'] eqn:Ew; try destruct e';
    simpl in H0; try discriminate H0; ret_inv H0;
    (split; [split; simpl; [assumption | congruence]|]);
    (split; simpl; intros x Hx; try discriminate Hx; injection Hx as <-; eauto 8).
Qed.

Lemma xml_segments_shape `{Library} (matches : list (string * string))
    (segments : list segment) :
  xml_segments matches = Ret segments -> Forall segment_shape segments.
Proof.
  revert segments. induction matches as [|[g0 g1] rest IH]; simpl; intros segments H0.
  - ret_inv H0. constructor.
  - destruct (xml_segment g0 g1) as [o|] eqn:Eo; [|discriminate].
    simpl in H0. destruct (xml_segments rest) as [l|]; [|discriminate].
    simpl in H0. ret_inv H0. destruct o as [s|].
    + constructor; [apply (xml_segment_shape g0 g1), Eo | apply IH; reflexivity].
    + apply IH; reflexivity.
Qed.

Lemma json3_segment_times (t : string) (sv dv : json) (s : segment) :
  json3_segment t sv dv = Ret s -> times_from sv dv s.
Proof.
  unfold json3_segment. intros H. inv_bind H.
  all: ret_inv H; split; simpl; intros x Hx; try discriminate Hx;
    injection Hx as <-; eauto.
Qed.

Lemma youtubei_segment_times (t : string) (sv dv : json) (s : segment) :
  youtubei_segment t sv dv = Ret s -> times_from sv dv s.
Proof.
  unfold youtubei_segment, try_except, bind. intros H.
  destruct (is_not_none sv); [|ret_inv H; split; simpl; intros; discriminate].
  destruct (Py.int sv) as [a|e] eqn:Ea.
  - destruct (is_not_none dv).
    + destruct (Py.int dv) as [d|e] eqn:Ed.
      * ret_inv H. split; simpl; intros x Hx; injection Hx as <-; eauto.
      * destruct (existsb _ _); [|discriminate].
        ret_inv H. split; simpl; intros x Hx; try discriminate; injection Hx as <-; eauto.
    + ret_inv H. split; simpl; intros x Hx; try discriminate; injection Hx as <-; eauto.
  - destruct (existsb _ _); [|discriminate].
    ret_inv H. split; simpl; intros; discriminate.
Qed.

(** *** The three producers *)

Lemma produced_cases `{Library} (r : option (list segment)) :
  produced r ->
  r = None \/ exists segments, r = nonempty_or_none segments /\ Forall segment_shape segments.
Proof.
  intros [raw r' H0 | xml r' H0 | data r' H0].
  - unfold parse_json3_transcript in H0.
    destruct (json_loads raw) as [data|e].
    + unfold parse_json3_data in H0. inv_bind H0; ret_inv H0; auto.
      right. eexists; split; [reflexivity|]. eapply json3_events_shape; eassumption.
    + destruct e; try discriminate. ret_inv H0. auto.
  - unfold parse_xml_transcript in H0. inv_bind H0. ret_inv H0.
    right. eexists; split; [reflexivity|]. eapply xml_segments_shape; eassumption.
  - unfold parse_youtubei_response, try_except in H0.
    destruct (youtubei_body data) as [r0|e] eqn:Eb.
    + ret_inv H0. unfold youtubei_body in Eb. inv_bind Eb; ret_inv Eb; auto.
      right. eexists; split; [reflexivity|]. eapply youtubei_items_shape; eassumption.
    + destruct (existsb _ _); [|discriminate]. ret_inv H0. auto.
Qed.

(** C9. A producer of segments that returns a sequence returns one that
    is not empty: what it returns is [None] or a list with an element, so
    the caller's test [if result] and the test [result is not None] agree. *)
Theorem producers_return_none_or_nonempty `{Library} (r : option (list segment)) :
  produced r -> r <> Some [] /\ has_segments r = is_some r.
Proof.
  intros Hp. destruct (produced_cases r Hp) as [-> | (l & -> & _)].
  - split; [discriminate | reflexivity].
  - apply nonempty_or_none_has.
Qed.










Lemma producers_return_none_or_nonempty_witness :
  let r := Some [{| text := "Hello world"; start_ms := Some 1000%Z; end_ms := Some 1500%Z |}] in
  @produced Ref.library r /\ (r <> Some [] /\ has_segments r = is_some r).
Proof.
  assert (Hp : @produced Ref.library
                 (Some [{| text := "Hello world"; start_ms := Some 1000%Z;
                           end_ms := Some 1500%Z |}])).
  { apply (@produced_json3 Ref.library Sample.json3). vm_compute. reflexivity. }
  split; [exact Hp | exact (@producers_return_none_or_nonempty Ref.library _ Hp)].
Defined.



(** *** Totality of the two format parsers *)







(** *** The player response: the cases without a result *)

Lemma find_none_drop (sub s : string) (k : nat) :
  Str.find sub s = None -> Str.find sub (Str.drop k s) = None.
Proof.
  revert s. induction k as [|k IH]; intros s H; [exact H|].
  destruct s as [|c s]; [exact H|].
  simpl. apply IH. simpl in H.
  destruct (Str.startswith sub (String c s)); [discriminate|].
  destruct (Str.find sub s); [discriminate | reflexivity].
Qed.

Lemma drop_drop (a b : nat) (s : string) :
  Str.drop b (Str.drop a s) = Str.drop (a + b) s.
Proof.
  revert s. induction a as [|a IH]; intros s; [reflexivity|].
  destruct s as [|c s]; simpl; [destruct b; reflexivity | apply IH].
Qed.

Lemma find_from_none_later (sub s : string) (a b : nat) :
  Str.find_from sub s a = None -> a <= b -> Str.find_from sub s b = None.
Proof.
  unfold Str.find_from. intros H Hab.
  destruct (Nat.leb b (String.length s)) eqn:Eb; [|reflexivity].
  apply Nat.leb_le in Eb.
  assert (Ea : Nat.leb a (String.length s) = true) by (apply Nat.leb_le; lia).
  rewrite Ea in H.
  destruct (Str.find sub (Str.drop a s)) eqn:Ef; [discriminate|].
  replace b with (a + (b - a)) by lia. rewrite <- drop_drop.
  rewrite (find_none_drop _ _ _ Ef). reflexivity.
Qed.

Lemma find_from_ge (sub s : string) (a i : nat) :
  Str.find_from sub s a = Some i -> a <= i.
Proof.
  unfold Str.find_from. destruct (Nat.leb a (String.length s)); [|discriminate].
  destruct (Str.find sub (Str.drop a s)); simpl; [|discriminate].
  intros H. injection H as <-. lia.
Qed.

(** *** The scanner *)

Lemma append_length (a b : string) :
  String.length (a ++ b) = String.length a + String.length b.
Proof. induction a as [|c a IH]; simpl; [reflexivity | rewrite IH; reflexivity]. Qed.

Lemma append_assoc (a b c : string) : ((a ++ b) ++ c)%string = (a ++ (b ++ c))%string.
Proof. induction a as [|x a IH]; simpl; [reflexivity | rewrite IH; reflexivity]. Qed.

Lemma drop_append (a b : string) : Str.drop (String.length a) (a ++ b) = b.
Proof. induction a as [|c a IH]; simpl; [reflexivity | exact IH]. Qed.

Lemma take_append (a b : string) : Str.take (String.length a) (a ++ b) = a.
Proof. induction a as [|c a IH]; simpl; [reflexivity | rewrite IH; reflexivity]. Qed.

(** Inside a string the scanner runs to the closing quote and leaves the
    depth as it was. *)
Lemma scan_string_body (body : string) :
  string_body body ->
  forall (q : ascii) (rest : string) (i : nat) (d : Z),
    is_quote q = true ->
    scan (body ++ String q rest) i d true false
    = scan rest (i + String.length body + 1) d false false.
Proof.
  induction 1 as [|c s Hq Hb _ IH|c s _ IH]; intros q rest i d Hquote;
    cbn [scan String.append String.length].
  - destruct (Ascii.eqb q "\") eqn:E.
    + apply Ascii.eqb_eq in E. subst q. discriminate Hquote.
    + rewrite Hquote. f_equal. lia.
  - rewrite Hb, Hq. rewrite (IH q rest (S i) d Hquote). f_equal. lia.
  - rewrite Ascii.eqb_refl. rewrite (IH q rest (S (S i)) d Hquote). f_equal. lia.
Qed.

(** Over a balanced text, at a depth above zero, the scanner does not
    return and comes out at the same depth. *)
Lemma scan_balanced (s : string) :
  balanced s ->
  forall (rest : string) (i : nat) (d : Z),
    (0 < d)%Z ->
    scan (s ++ rest) i d false false = scan rest (i + String.length s) d false false.
Proof.
  induction 1 as [|c s Hq Ho Hc _ IH|q1 q2 body s H1 H2 Hb _ IH|inner s _ IHi _ IHs];
    intros rest i d Hd; cbn [scan String.append String.length].
  - f_equal. lia.
  - rewrite Hq, Ho, Hc. rewrite (IH rest (S i) d Hd). f_equal. lia.
  - rewrite H1. rewrite append_assoc. cbn [String.append].
    rewrite (scan_string_body body Hb q2 (s ++ rest) (S i) d H2).
    rewrite (IH rest _ d Hd). f_equal.
    rewrite append_length. cbn [String.length]. lia.
  - change (is_quote "{") with false. rewrite Ascii.eqb_refl.
    rewrite append_assoc. cbn [String.append].
    rewrite (IHi (String "}" (s ++ rest)) (S i) (d + 1)%Z ltac:(lia)).
    cbn [scan]. change (is_quote "}") with false.
    change (Ascii.eqb "}" "{") with false. rewrite Ascii.eqb_refl.
    replace (d + 1 - 1)%Z with d by lia.
    destruct (Z.eqb d 0) eqn:E; [apply Z.eqb_eq in E; lia|].
    rewrite (IHs rest _ d Hd). f_equal.
    rewrite append_length. cbn [String.length]. lia.
Qed.

Lemma find_brace_after (pre rest : string) :
  Str.contains "{" pre = false ->
  Str.find "{" (pre ++ String "{" rest) = Some (String.length pre).
Proof.
  unfold Str.contains. induction pre as [|c pre IH]; intros H; [reflexivity|].
  cbn [Str.find Str.startswith String.append String.length] in *.
  destruct (Ascii.eqb "{" c); cbn [andb] in *; [discriminate H|].
  destruct (Str.find "{" pre) eqn:E; [discriminate H|].
  rewrite (IH eq_refl). reflexivity.
Qed.

(** The object that starts at the first opening brace from [start_at] on
    is returned whole when its inside is balanced. *)
Theorem extract_balanced_json_balanced (skipped pre inner suffix : string) :
  Str.contains "{" pre = false ->
  balanced inner ->
  extract_balanced_json
    (skipped ++ pre ++ String "{" (inner ++ String "}" suffix))
    (String.length skipped)
  = Some (String "{" (inner ++ "}")).
Proof.
  intros Hpre Hbal. unfold extract_balanced_json, Str.find_from.
  assert (Hle : Nat.leb (String.length skipped)
                  (String.length (skipped ++ pre ++ String "{" (inner ++ String "}" suffix)))
                = true).
  { apply Nat.leb_le. rewrite append_length. lia. }
  rewrite Hle, drop_append, (find_brace_after _ _ Hpre). simpl option_map.
  rewrite <- append_assoc, <- append_length, drop_append.
  cbn [scan]. change (is_quote "{") with false. rewrite Ascii.eqb_refl.
  rewrite (scan_balanced inner Hbal (String "}" suffix) _ 1%Z ltac:(lia)).
  cbn [scan]. change (is_quote "}") with false.
  change (Ascii.eqb "}" "{") with false. rewrite Ascii.eqb_refl.
  change (Z.eqb (1 - 1) 0) with true. cbv iota.
  assert (Hlen : S (String.length (skipped ++ pre)) + String.length inner + 1
                 - String.length (skipped ++ pre)
                 = String.length (String "{" (inner ++ "}"))).
  { cbn [String.length]. rewrite !append_length. cbn [String.length]. lia. }
  unfold Str.slice. rewrite drop_append, Hlen.
  replace (String "{" (inner ++ String "}" suffix))
    with ((String "{" (inner ++ "}")) ++ suffix)%string
    by (simpl; rewrite append_assoc; reflexivity).
  rewrite take_append. reflexivity.
Qed.

Lemma extract_balanced_json_balanced_witness :
  Str.contains "{" " = " = false /\
  balanced Sample.inner /\
  extract_balanced_json
    ("var ytInitialPlayerResponse" ++ " = " ++ String "{" (Sample.inner ++ String "}" ";"))
    (String.length "var ytInitialPlayerResponse")
  = Some (String "{" (Sample.inner ++ "}")).
Proof.
  assert (Hb : balanced Sample.inner).
  { apply (balanced_string dquote dquote "k" (Str.lit ":`}\`{`")); try reflexivity.
    - apply body_char; try reflexivity. apply body_end.
    - apply balanced_char; try reflexivity.
      apply (balanced_string dquote dquote (Str.lit "}\`{") ""); try reflexivity;
        [|apply balanced_end].
      apply body_char; try reflexivity.
      apply (body_escape dquote). apply body_char; try reflexivity. apply body_end. }
  split; [reflexivity|]. split; [exact Hb|].
  exact (extract_balanced_json_balanced "var ytInitialPlayerResponse" " = "
           Sample.inner ";" eq_refl Hb).
Defined.

(** C1. On a page whose player response is the valid JSON object with the
    member [t] equal to [Don't], the scanner takes the apostrophe for the
    end of the string and finds no balanced object; when the string also
    holds a closing brace, that brace ends the scan and the text returned
    stops inside the string. *)
Theorem apostrophe_unbalances_scanner :
  Ref.loads (Str.lit "{`t`:`Don't`}") = Ret (JObj [("t", JStr "Don't")]) /\
  extract_balanced_json Sample.page_apostrophe 28 = None /\
  @extract_initial_player_response Ref.library Sample.page_apostrophe = Ret None /\
  Ref.loads (Str.lit "{`a`:`it's }`}") = Ret (JObj [("a", JStr "it's }")]) /\
  extract_balanced_json Sample.page_brace 28 = Some (Str.lit "{`a`:`it's }").
Proof. vm_compute. repeat split. Qed.

(** *** The player response: what the extractor does not find *)

Lemma scan_unclosed_string (body : string) :
  string_body body ->
  forall (i : nat) (d : Z), scan body i d true false = None.
Proof.
  induction 1 as [|c s Hq Hb _ IH|c s _ IH]; intros i d; cbn [scan].
  - reflexivity.
  - rewrite Hb, Hq. apply IH.
  - rewrite Ascii.eqb_refl. destruct s as [|c' s']; apply IH.
Qed.

Lemma append_empty (s : string) : (s ++ "")%string = s.
Proof. induction s as [|c s IH]; cbn [String.append]; [|rewrite IH]; reflexivity. Qed.

(** On such a text the scanner, at a depth above zero, comes to the end
    without returning. *)
Lemma scan_open_text (o : string) :
  open_text o ->
  forall (i : nat) (d : Z), (0 < d)%Z -> scan o i d false false = None.
Proof.
  induction 1 as [s Hs | b o Hb _ IH | b body q Hb Hq Hbody]; intros i d Hd.
  - rewrite <- (append_empty s), (scan_balanced s Hs "" i d Hd). reflexivity.
  - rewrite (scan_balanced b Hb _ i d Hd). cbn [scan].
    change (is_quote "{") with false. rewrite Ascii.eqb_refl.
    apply IH. lia.
  - rewrite (scan_balanced b Hb _ i d Hd). cbn [scan]. rewrite Hq.
    apply scan_unclosed_string, Hbody.
Qed.

Lemma scan_returns_inside (rest : string) :
  forall (i j : nat) (d : Z) (in_string escaping : bool),
    scan rest i d in_string escaping = Some j -> i <= j /\ rest <> "".
Proof.
  induction rest as [|c rest IH]; intros i j d in_string escaping; cbn [scan];
    [discriminate|].
  intros E. split; [|discriminate].
  repeat match type of E with
         | (if ?b then _ else _) = _ => destruct b
         end;
    try (apply IH in E; lia).
  injection E as <-. lia.
Qed.

Lemma extract_balanced_json_nonempty (source : string) (start_at : nat) (obj : string) :
  extract_balanced_json source start_at = Some obj -> obj <> "".
Proof.
  unfold extract_balanced_json.
  destruct (Str.find_from "{" source start_at) as [start|]; [|discriminate].
  destruct (scan (Str.drop start source) start 0 false false) as [i|] eqn:E; [|discriminate].
  apply scan_returns_inside in E as [Hle Hne].
  intros F. injection F as <-. unfold Str.slice.
  replace (i + 1 - start) with (S (i - start)) by lia.
  destruct (Str.drop start source); [contradiction|discriminate].
Qed.

(** C7, as amended. The extractor of the player response returns [None],
    and raises nothing, when the marker is absent, when no opening brace
    follows the marker, when the depth tracked by the scanner never comes
    back to zero before the end of the text (as on every text in which
    the object, or a string of it, is opened and not closed), and when
    the decoder rejects the extracted text with [JSONDecodeError]. Any
    other exception of the decoder is not caught and leaves the
    extractor. *)
Theorem player_response_not_found `{Library} (html : string) :
  (not_found_case html -> extract_initial_player_response html = Ret None) /\
  (forall idx eq_idx start rest,
      Str.find token html = Some idx ->
      Str.find_from "=" html idx = Some eq_idx ->
      Str.find_from "{" html eq_idx = Some start ->
      Str.drop start html = String "{" rest -> open_text rest ->
      extract_initial_player_response html = Ret None) /\
  (forall idx eq_idx obj_text e,
      Str.find token html = Some idx ->
      Str.find_from "=" html idx = Some eq_idx ->
      extract_balanced_json html eq_idx = Some obj_text ->
      json_loads obj_text = Raise e -> e <> JSONDecodeError ->
      extract_initial_player_response html = Raise e).
Proof.
  unfold extract_initial_player_response. split; [|split].
  - intros [Hm | idx Hm Hb | idx eq_idx start Hm He Hb Hs | idx eq_idx obj Hm He Hx Hj].
    + rewrite Hm. reflexivity.
    + rewrite Hm. destruct (Str.find_from "=" html idx) as [eq_idx|] eqn:He; [|reflexivity].
      unfold extract_balanced_json.
      rewrite (find_from_none_later _ _ _ _ Hb (find_from_ge _ _ _ _ He)). reflexivity.
    + rewrite Hm, He. unfold extract_balanced_json. rewrite Hb, Hs. reflexivity.
    + rewrite Hm, He, Hx, Hj. destruct (String.eqb obj ""); reflexivity.
  - intros idx eq_idx start rest Hm He Hb Hd Ho.
    rewrite Hm, He. unfold extract_balanced_json. rewrite Hb, Hd. cbn [scan].
    change (is_quote "{") with false. rewrite Ascii.eqb_refl.
    rewrite (scan_open_text rest Ho (S start) (0 + 1)%Z ltac:(lia)). reflexivity.
  - intros idx eq_idx obj e Hm He Hx Hj Hne. rewrite Hm, He, Hx.
    pose proof (extract_balanced_json_nonempty _ _ _ Hx) as Hobj.
    apply String.eqb_neq in Hobj. rewrite Hobj, Hj.
    destruct e; try reflexivity. contradiction.
Qed.

Lemma player_response_not_found_witness :
  @extract_initial_player_response Ref.library "<html>no marker</html>" = Ret None /\
  @extract_initial_player_response Ref.library "var ytInitialPlayerResponse = null;" = Ret None /\
  @extract_initial_player_response Ref.library
     (Str.lit "var ytInitialPlayerResponse = {`a`: {`b`: 1};") = Ret None /\
  @extract_initial_player_response Ref.library
     (Str.lit "var ytInitialPlayerResponse = {a: 1};") = Ret None /\
  @extract_initial_player_response Ref.library
     (Str.lit "var ytInitialPlayerResponse = {`a`: `b};") = Ret None.
Proof.
  split; [|split; [|split; [|split]]].
  - apply (proj1 (@player_response_not_found Ref.library _)).
    apply marker_absent. vm_compute. reflexivity.
  - apply (proj1 (@player_response_not_found Ref.library _)).
    apply (no_open_brace _ 4); vm_compute; reflexivity.
  - apply (proj1 (proj2 (@player_response_not_found Ref.library _)) 4 28 30
             (Str.lit "`a`: {`b`: 1};")); try (vm_compute; reflexivity).
    apply open_balanced.
    apply (balanced_string dquote dquote "a" (Str.lit ": {`b`: 1};")); try reflexivity.
    + apply body_char; try reflexivity. apply body_end.
    + do 2 (apply balanced_char; try reflexivity).
      apply (balanced_object (Str.lit "`b`: 1") ";").
      * apply (balanced_string dquote dquote "b" ": 1"); try reflexivity.
        -- apply body_char; try reflexivity. apply body_end.
        -- do 3 (apply balanced_char; try reflexivity). apply balanced_end.
      * apply balanced_char; try reflexivity. apply balanced_end.
  - apply (proj1 (@player_response_not_found Ref.library _)).
    apply (invalid_json _ 4 28 "{a: 1}"); vm_compute; reflexivity.
  - apply (proj1 (proj2 (@player_response_not_found Ref.library _)) 4 28 30
             (Str.lit "`a`: `b};")); try (vm_compute; reflexivity).
    apply (open_string (Str.lit "`a`: ") "b};" dquote); try reflexivity.
    + apply (balanced_string dquote dquote "a" ": "); try reflexivity.
      * apply body_char; try reflexivity. apply body_end.
      * do 2 (apply balanced_char; try reflexivity). apply balanced_end.
    + do 3 (apply body_char; try reflexivity). apply body_end.
Defined.

(** C7, counterexample. On a page whose player response opens 2000 arrays
    one inside the other, the text extracted is not valid JSON, and the
    decoder of an interpreter with the usual recursion limit of 1000
    raises [RecursionError] before it can tell; the extractor does not
    catch it. *)
Lemma player_response_raises_on_deep_nesting :
  @extract_initial_player_response (Ref.library_limited 1000) Sample.page_deep
  = Raise RecursionError /\
  @extract_initial_player_response Ref.library Sample.page_deep = Ret None.
Proof.
  split; vm_compute; reflexivity.
Qed.

(** *** The ranking of the caption tracks *)

Lemma key_lt_true (a b : Z * Z) :
  key_lt a b = true <-> (fst a < fst b \/ (fst a = fst b /\ snd a < snd b))%Z.
Proof.
  unfold key_lt. rewrite orb_true_iff, andb_true_iff.
  rewrite !Z.ltb_lt, Z.eqb_eq. reflexivity.
Qed.

Lemma key_lt_false (a b : Z * Z) : key_lt a b = false <-> key_le b a.
Proof.
  unfold key_le. split.
  - intros H. destruct (key_lt a b) eqn:E; [discriminate|].
    assert (N : ~ (fst a < fst b \/ (fst a = fst b /\ snd a < snd b))%Z).
    { intros C. apply key_lt_true in C. congruence. }
    lia.
  - intros H. destruct (key_lt a b) eqn:E; [|reflexivity].
    apply key_lt_true in E. lia.
Qed.

Lemma key_eqb_true (a b : Z * Z) :
  key_eqb a b = true <-> fst a = fst b /\ snd a = snd b.
Proof. unfold key_eqb. rewrite andb_true_iff, !Z.eqb_eq. reflexivity. Qed.

Section Sorting.

Context {A : Type}.

Implicit Types (x y : (Z * Z) * A) (l : list ((Z * Z) * A)).

Lemma insert_keyed_perm x l : Permutation (insert_keyed x l) (x :: l).
Proof.
  induction l as [|y l IH]; simpl; [apply Permutation_refl|].
  destruct (key_lt (fst y) (fst x)); [|apply Permutation_refl].
  eapply perm_trans; [apply perm_skip, IH | apply perm_swap].
Qed.

Lemma insert_keyed_sorted x l :
  StronglySorted (fun a b => key_le (fst a) (fst b)) l ->
  StronglySorted (fun a b => key_le (fst a) (fst b)) (insert_keyed x l).
Proof.
  induction 1 as [|y l Hs IH Hy]; simpl.
  - constructor; constructor.
  - destruct (key_lt (fst y) (fst x)) eqn:E.
    + constructor; [exact IH|].
      apply key_lt_true in E.
      rewrite Forall_forall. intros z Hz.
      apply (Permutation_in _ (insert_keyed_perm x l)) in Hz.
      destruct Hz as [<- | Hz]; [unfold key_le; lia|].
      rewrite Forall_forall in Hy. apply Hy, Hz.
    + apply key_lt_false in E.
      constructor; [constructor; assumption|].
      constructor; [exact E|].
      rewrite Forall_forall in Hy |- *. intros z Hz. specialize (Hy z Hz).
      unfold key_le in *. lia.
Qed.

(** An item goes in front of the items of its own key. *)
Lemma insert_keyed_stable (k : Z * Z) x l :
  with_key k (insert_keyed x l) = with_key k (x :: l).
Proof.
  unfold with_key. induction l as [|y l IH]; [reflexivity|].
  cbn [insert_keyed]. destruct (key_lt (fst y) (fst x)) eqn:E; [|reflexivity].
  cbn [filter] in *. rewrite IH.
  destruct (key_eqb (fst y) k) eqn:Ey; destruct (key_eqb (fst x) k) eqn:Ex;
    try reflexivity.
  apply key_lt_true in E. apply key_eqb_true in Ey, Ex. lia.
Qed.

Lemma sort_keyed_perm l : Permutation (sort_keyed l) l.
Proof.
  induction l as [|x l IH]; simpl; [constructor|].
  eapply perm_trans; [apply insert_keyed_perm | apply perm_skip, IH].
Qed.

Lemma sort_keyed_sorted l :
  StronglySorted (fun a b => key_le (fst a) (fst b)) (sort_keyed l).
Proof.
  induction l as [|x l IH]; simpl; [constructor | apply insert_keyed_sorted, IH].
Qed.

Lemma sort_keyed_stable (k : Z * Z) l : with_key k (sort_keyed l) = with_key k l.
Proof.
  induction l as [|x l IH]; [reflexivity|].
  cbn [sort_keyed fold_right]. fold (sort_keyed l).
  rewrite insert_keyed_stable. unfold with_key in *. cbn [filter]. rewrite IH.
  reflexivity.
Qed.

End Sorting.

Lemma with_keys_spec (tracks : list json) (keyed : list ((Z * Z) * json)) :
  with_keys tracks = Ret keyed ->
  map snd keyed = tracks /\
  Forall (fun kt => sort_key (snd kt) = Ret (fst kt)) keyed.
Proof.
  revert keyed. induction tracks as [|t rest IH]; simpl; intros keyed H.
  - ret_inv H. split; constructor.
  - inv_bind H. ret_inv H. destruct (IH _ eq_refl) as [Hm Hk].
    split; simpl; [rewrite Hm; reflexivity | constructor; assumption].
Qed.

(** The key that the code computes is the rank of the specification. *)
Lemma sort_key_rank (track : json) (k : Z * Z) :
  sort_key track = Ret k -> k = rank track.
Proof.
  unfold sort_key, rank, is_automatic, is_english.
  destruct track as [| | | | | |fields]; try discriminate.
  cbn [Py.get bind].
  destruct (lookup "languageCode" fields) as [[| | | |l| |]|];
    cbn [Py.startswith bind]; try discriminate;
    intros E; injection E as <-;
    destruct (lookup "kind" fields) as [[| | | |kd| |]|]; reflexivity.
Qed.

Lemma sorted_by_rank (l : list ((Z * Z) * json)) :
  Forall (fun kt => fst kt = rank (snd kt)) l ->
  StronglySorted (fun a b => key_le (fst a) (fst b)) l ->
  StronglySorted (fun a b => key_le (rank a) (rank b)) (map snd l).
Proof.
  intros Hk Hs. induction Hs as [|x l Hs IH Hx]; cbn [map]; [constructor|].
  inversion Hk as [|? ? Hkx Hkl]; subst. constructor; [apply IH, Hkl|].
  rewrite Forall_forall in *. intros t Ht.
  apply in_map_iff in Ht as (y & <- & Hy).
  rewrite <- Hkx, <- (Hkl y Hy). apply Hx, Hy.
Qed.

Lemma filter_by_rank (k : Z * Z) (l : list ((Z * Z) * json)) :
  Forall (fun kt => fst kt = rank (snd kt)) l ->
  filter (fun t => key_eqb (rank t) k) (map snd l) = map snd (with_key k l).
Proof.
  unfold with_key. induction l as [|x l IH]; intros Hk; [reflexivity|].
  inversion Hk as [|? ? Hx Hl]; subst. cbn [map filter].
  rewrite <- Hx, (IH Hl). destruct (key_eqb (fst x) k); reflexivity.
Qed.

Lemma sorted_before {A : Type} (R : A -> A -> Prop) (a b : A) (l : list A) :
  StronglySorted R l -> before a b l -> R a b.
Proof.
  intros Hs (l1 & l2 & l3 & ->).
  induction l1 as [|x l1 IH]; cbn [app] in Hs.
  - apply StronglySorted_inv in Hs as [_ Hf]. rewrite Forall_forall in Hf.
    apply Hf. apply in_or_app. right. left. reflexivity.
  - apply StronglySorted_inv in Hs as [Hs _]. apply IH, Hs.
Qed.

(** C6. The catalog holds the tracks of the player response, ranked:
    automatic tracks come after all the others, and among the tracks of
    one kind those that are not English come after the English ones;
    tracks of the same rank keep the order they had. The three tracks of
    the specification come out English manual, German manual, French
    automatic, and an automatic English track comes after a manual
    German one. *)
Theorem caption_tracks_ranked :
  (forall player_response ranked,
      get_caption_tracks player_response = Ret ranked ->
      exists tracks,
        caption_track_list player_response = Ret tracks /\
        Permutation ranked tracks /\
        StronglySorted (fun a b => key_le (rank a) (rank b)) ranked /\
        (forall a b, before a b ranked ->
           (is_automatic a = true -> is_automatic b = true) /\
           (is_automatic a = is_automatic b ->
            is_english b = true -> is_english a = true)) /\
        (forall k, filter (fun t => key_eqb (rank t) k) ranked
                   = filter (fun t => key_eqb (rank t) k) tracks)) /\
  get_caption_tracks Sample.player_response
  = Ret [Sample.track "manual" "en"; Sample.track "manual" "de"; Sample.track "asr" "fr"] /\
  get_caption_tracks Sample.player_two
  = Ret [Sample.track "manual" "de"; Sample.track "asr" "en"].
Proof.
  split; [|split; vm_compute; reflexivity].
  intros pr ranked H. unfold get_caption_tracks in H.
  destruct (caption_track_list pr) as [tracks|] eqn:Et; [|discriminate].
  cbn [bind] in H. unfold sorted_tracks in H.
  destruct (with_keys tracks) as [keyed|] eqn:Ek; [|discriminate].
  cbn [bind] in H. ret_inv H.
  destruct (with_keys_spec _ _ Ek) as [Hm Hk].
  assert (Hr : Forall (fun kt => fst kt = rank (snd kt)) keyed).
  { revert Hk. apply Forall_impl. intros kt E. apply sort_key_rank, E. }
  assert (Hr' : Forall (fun kt => fst kt = rank (snd kt)) (sort_keyed keyed)).
  { rewrite Forall_forall in *. intros x Hx. apply Hr.
    apply (Permutation_in x (sort_keyed_perm keyed)), Hx. }
  assert (Hs : StronglySorted (fun a b => key_le (rank a) (rank b))
                 (map snd (sort_keyed keyed))).
  { apply sorted_by_rank; [exact Hr' | apply sort_keyed_sorted]. }
  exists tracks. split; [reflexivity|]. split; [|split; [|split]].
  - rewrite <- Hm. apply Permutation_map, sort_keyed_perm.
  - exact Hs.
  - intros a b Hab. pose proof (sorted_before _ a b _ Hs Hab) as Hle.
    unfold key_le, rank in Hle. cbn [fst snd] in Hle.
    destruct (is_automatic a), (is_automatic b), (is_english a), (is_english b);
      split; intros; try reflexivity; try discriminate; lia.
  - intros k. rewrite <- Hm, !filter_by_rank by assumption.
    rewrite sort_keyed_stable. reflexivity.
Qed.

Lemma caption_tracks_ranked_witness :
  get_caption_tracks Sample.player_two
  = Ret [Sample.track "manual" "de"; Sample.track "asr" "en"] /\
  exists tracks,
    caption_track_list Sample.player_two = Ret tracks /\
    Permutation [Sample.track "manual" "de"; Sample.track "asr" "en"] tracks /\
    StronglySorted (fun a b => key_le (rank a) (rank b))
      [Sample.track "manual" "de"; Sample.track "asr" "en"] /\
    (forall a b,
       before a b [Sample.track "manual" "de"; Sample.track "asr" "en"] ->
       (is_automatic a = true -> is_automatic b = true) /\
       (is_automatic a = is_automatic b ->
        is_english b = true -> is_english a = true)) /\
    (forall k,
       filter (fun t => key_eqb (rank t) k)
         [Sample.track "manual" "de"; Sample.track "asr" "en"]
       = filter (fun t => key_eqb (rank t) k) tracks).
Proof.
  split; [exact (proj2 (proj2 caption_tracks_ranked))|].
  apply (proj1 caption_tracks_ranked Sample.player_two).
  vm_compute. reflexivity.
Defined.

(** *** The video identifier *)

Lemma lstrip_slashes (slashes t : string) :
  Str.all is_slash slashes = true ->
  Str.lstrip_by (Ascii.eqb "/") (slashes ++ t) = Str.lstrip_by (Ascii.eqb "/") t.
Proof.
  induction slashes as [|c s IH]; cbn [Str.all String.append Str.lstrip_by];
    [reflexivity|].
  intros H. apply andb_true_iff in H as [Hc Hs]. unfold is_slash in Hc.
  rewrite Ascii.eqb_sym, Hc. apply IH, Hs.
Qed.

Lemma lstrip_identifier (id t : string) :
  Str.all not_slash id = true -> id <> "" ->
  Str.lstrip_by (Ascii.eqb "/") (id ++ t) = (id ++ t)%string.
Proof.
  destruct id as [|c s]; [congruence|]. cbn [Str.all String.append Str.lstrip_by].
  intros H _. apply andb_true_iff in H as [Hc _]. unfold not_slash in Hc.
  apply negb_true_iff in Hc. rewrite Ascii.eqb_sym, Hc. reflexivity.
Qed.

Lemma rstrip_identifier (id t : string) :
  Str.all not_slash id = true -> id <> "" ->
  Str.rstrip_by (Ascii.eqb "/") (id ++ t)
  = (id ++ Str.rstrip_by (Ascii.eqb "/") t)%string.
Proof.
  induction id as [|c s IH]; [congruence|].
  cbn [Str.all String.append Str.rstrip_by]. intros H _.
  apply andb_true_iff in H as [Hc Hs]. unfold not_slash in Hc.
  apply negb_true_iff in Hc. rewrite Ascii.eqb_sym in Hc.
  destruct s as [|c' s'].
  - cbn [String.append]. destruct (Str.rstrip_by (Ascii.eqb "/") t); [|reflexivity].
    rewrite Hc. reflexivity.
  - rewrite (IH Hs ltac:(discriminate)). reflexivity.
Qed.

Lemma rstrip_head (p : ascii -> bool) (c : ascii) (s : string) :
  Str.rstrip_by p (String c s) = "" \/
  exists r, Str.rstrip_by p (String c s) = String c r.
Proof.
  cbn [Str.rstrip_by]. destruct (Str.rstrip_by p s); [|eauto].
  destruct (p c); eauto.
Qed.

Lemma rstrip_segment_end (t : string) :
  segment_end t -> segment_end (Str.rstrip_by (Ascii.eqb "/") t).
Proof.
  intros [-> | H]; [left; reflexivity|].
  destruct t as [|c s]; [discriminate|].
  destruct (rstrip_head (Ascii.eqb "/") c s) as [-> | [r ->]];
    [left; reflexivity | right; exact H].
Qed.

Lemma split_identifier (id t : string) :
  Str.all not_slash id = true -> segment_end t ->
  exists rest, Str.split "/" (id ++ t) = id :: rest.
Proof.
  intros Hid Ht. induction id as [|c s IH]; cbn [String.append].
  - destruct Ht as [-> | Ht]; [cbn; eauto|].
    destruct t as [|c s]; [discriminate|]. cbn [Str.startswith] in Ht.
    apply andb_true_iff in Ht as [Hc _].
    cbn [Str.split]. rewrite Ascii.eqb_sym, Hc. eauto.
  - cbn [Str.all] in Hid. apply andb_true_iff in Hid as [Hc Hs].
    unfold not_slash in Hc. apply negb_true_iff in Hc.
    cbn [Str.split]. rewrite Hc. destruct (IH Hs) as [rest ->]. eauto.
Qed.

Lemma strip_all_slashes (s : string) :
  Str.all is_slash s = true -> Str.strip_char "/" s = "".
Proof.
  intros H. unfold Str.strip_char, Str.strip_by.
  assert (E : Str.lstrip_by (Ascii.eqb "/") s = "").
  { induction s as [|c s IH]; [reflexivity|].
    cbn [Str.all] in H. apply andb_true_iff in H as [Hc Hs]. unfold is_slash in Hc.
    cbn [Str.lstrip_by]. rewrite Ascii.eqb_sym, Hc. apply IH, Hs. }
  rewrite E. reflexivity.
Qed.

Lemma startswith_append (p s : string) : Str.startswith p (p ++ s) = true.
Proof.
  induction p as [|c p IH]; cbn; [reflexivity|].
  rewrite Ascii.eqb_refl. exact IH.
Qed.

Lemma match_prefixes_found (prefix id rest : string) :
  In prefix prefixes -> Str.all not_slash id = true -> segment_end rest ->
  match_prefixes prefixes (prefix ++ id ++ rest) = Some (Some id).
Proof.
  intros Hin Hid Hrest.
  destruct (split_identifier id rest Hid Hrest) as [tl Hsplit].
  unfold prefixes in *. cbn [In] in Hin.
  destruct Hin as [<- | [<- | [<- | [<- | []]]]];
    cbn -[Str.split]; rewrite Hsplit; reflexivity.
Qed.

Lemma match_prefixes_none (ps : list string) (p : string) :
  (forall prefix, In prefix ps -> Str.startswith prefix p = false) ->
  match_prefixes ps p = None.
Proof.
  induction ps as [|q ps IH]; intros H; cbn [match_prefixes]; [reflexivity|].
  rewrite (H q (or_introl eq_refl)). apply IH. intros r Hr. apply H. right. exact Hr.
Qed.

Lemma not_short_domain (h : string) : h <> "youtu.be" -> String.eqb h "youtu.be" = false.
Proof. intros H. apply String.eqb_neq. exact H. Qed.

(** C3, counterexample. The resolver raises on a URL that [urlparse]
    rejects: it is not a total function of the URL. *)
Lemma resolver_raises_on_bad_bracket :
  @extract_video_id Ref.library "http://[" = Raise ValueError.
Proof. vm_compute. reflexivity. Qed.

(** C3, as amended. On every URL that [urlparse] accepts, the resolver
    returns the identifier of the shape the URL has, and [None] for another
    host and for a path of no known shape. *)
Theorem resolver_follows_shapes `{Library} (url : string) (p : parsed_url)
    (r : option string) :
  urlparse url = Ret p -> url_shape p r -> extract_video_id url = Ret r.
Proof.
  intros Hp Hs. unfold extract_video_id. rewrite Hp. cbn [bind].
  destruct Hs as [slashes id rest Hh Hpath Hsl Hne Hid Hrest
                 | id more Hh Hc Hpath Hv
                 | prefix id rest Hh Hc Hin Hpath Hid Hrest
                 | Hh Hc
                 | Hh Hc Hpath Hnone].
  - rewrite Hh, Hpath. cbn [String.eqb Ascii.eqb Bool.eqb].
    unfold Str.strip_char, Str.strip_by.
    rewrite (lstrip_slashes _ _ Hsl), (lstrip_identifier _ _ Hid Hne),
      (rstrip_identifier _ _ Hid Hne).
    destruct (split_identifier id _ Hid (rstrip_segment_end _ Hrest)) as [tl ->].
    apply String.eqb_neq in Hne. rewrite Hne. reflexivity.
  - rewrite (not_short_domain _ Hh), Hc, Hpath, Hv. reflexivity.
  - rewrite (not_short_domain _ Hh), Hc. cbn [negb].
    destruct (String.eqb (path p) "/watch") eqn:Ew.
    + apply String.eqb_eq in Ew. rewrite Hpath in Ew. exfalso.
      unfold prefixes in Hin. cbn [In] in Hin.
      destruct Hin as [<- | [<- | [<- | [<- | []]]]]; discriminate Ew.
    + rewrite Hpath, (match_prefixes_found _ _ _ Hin Hid Hrest). reflexivity.
  - rewrite (not_short_domain _ Hh), Hc. reflexivity.
  - rewrite (not_short_domain _ Hh), Hc. cbn [negb].
    apply String.eqb_neq in Hpath. rewrite Hpath.
    rewrite (match_prefixes_none _ _ Hnone). reflexivity.
Qed.

Lemma resolver_follows_shapes_witness :
  ((exists p, @urlparse Ref.library "https://youtu.be/dQw4w9WgXcQ?t=3" = Ret p /\
              @url_shape Ref.library p (Some "dQw4w9WgXcQ")) /\
   @extract_video_id Ref.library "https://youtu.be/dQw4w9WgXcQ?t=3"
   = Ret (Some "dQw4w9WgXcQ")) /\
  ((exists p, @urlparse Ref.library "https://www.youtube.com/watch?v=abc123&t=1" = Ret p /\
              @url_shape Ref.library p (Some "abc123")) /\
   @extract_video_id Ref.library "https://www.youtube.com/watch?v=abc123&t=1"
   = Ret (Some "abc123")) /\
  ((exists p, @urlparse Ref.library "https://m.youtube.com/shorts/xyz/extra" = Ret p /\
              @url_shape Ref.library p (Some "xyz")) /\
   @extract_video_id Ref.library "https://m.youtube.com/shorts/xyz/extra"
   = Ret (Some "xyz")) /\
  ((exists p, @urlparse Ref.library "https://example.com/watch?v=abc123" = Ret p /\
              @url_shape Ref.library p None) /\
   @extract_video_id Ref.library "https://example.com/watch?v=abc123" = Ret None) /\
  ((exists p, @urlparse Ref.library "https://www.youtube.com/feed/library" = Ret p /\
              @url_shape Ref.library p None) /\
   @extract_video_id Ref.library "https://www.youtube.com/feed/library" = Ret None).
Proof.
  assert (H1 : exists p, @urlparse Ref.library "https://youtu.be/dQw4w9WgXcQ?t=3" = Ret p /\
                         @url_shape Ref.library p (Some "dQw4w9WgXcQ")).
  { eexists. split; [vm_compute; reflexivity|].
    apply (@shape_short_domain Ref.library _ "/" "dQw4w9WgXcQ" "");
      try reflexivity; [discriminate | left; reflexivity]. }
  assert (H2 : exists p, @urlparse Ref.library "https://www.youtube.com/watch?v=abc123&t=1" = Ret p /\
                         @url_shape Ref.library p (Some "abc123")).
  { eexists. split; [vm_compute; reflexivity|].
    apply (@shape_watch Ref.library _ "abc123" []); try reflexivity. discriminate. }
  assert (H3 : exists p, @urlparse Ref.library "https://m.youtube.com/shorts/xyz/extra" = Ret p /\
                         @url_shape Ref.library p (Some "xyz")).
  { eexists. split; [vm_compute; reflexivity|].
    apply (@shape_prefix Ref.library _ "/shorts/" "xyz" "/extra"); try reflexivity;
      [discriminate | left; reflexivity | right; reflexivity]. }
  assert (H4 : exists p, @urlparse Ref.library "https://example.com/watch?v=abc123" = Ret p /\
                         @url_shape Ref.library p None).
  { eexists. split; [vm_compute; reflexivity|].
    apply (@shape_other_host Ref.library); [discriminate | reflexivity]. }
  assert (H5 : exists p, @urlparse Ref.library "https://www.youtube.com/feed/library" = Ret p /\
                         @url_shape Ref.library p None).
  { eexists. split; [vm_compute; reflexivity|].
    apply (@shape_other_path Ref.library); [discriminate | reflexivity | discriminate |].
    intros prefix Hin. unfold prefixes in Hin. cbn [In] in Hin.
    destruct Hin as [<- | [<- | [<- | [<- | []]]]]; reflexivity. }
  repeat match goal with |- _ /\ _ => split end; try assumption.
  - destruct H1 as (p & Hp & Hs). exact (@resolver_follows_shapes Ref.library _ p _ Hp Hs).
  - destruct H2 as (p & Hp & Hs). exact (@resolver_follows_shapes Ref.library _ p _ Hp Hs).
  - destruct H3 as (p & Hp & Hs). exact (@resolver_follows_shapes Ref.library _ p _ Hp Hs).
  - destruct H4 as (p & Hp & Hs). exact (@resolver_follows_shapes Ref.library _ p _ Hp Hs).
  - destruct H5 as (p & Hp & Hs). exact (@resolver_follows_shapes Ref.library _ p _ Hp Hs).
Defined.

(** C10. On the recognized hosts the resolver raises nothing at the
    boundaries: a [/watch] URL without a [v] parameter and a [youtu.be] URL
    with an empty path give [None], and a path that is one of the prefixes
    with nothing after it gives the empty identifier. *)
Theorem resolver_boundaries `{Library} (url : string) (p : parsed_url)
    (r : option string) :
  urlparse url = Ret p -> boundary_case p r ->
  extract_video_id url = Ret r /\ (r = None \/ r = Some "").
Proof.
  intros Hp Hb. unfold extract_video_id. rewrite Hp. cbn [bind].
  destruct Hb as [Hh Hc Hpath Hv | Hh Hsl | prefix Hh Hc Hin Hpath].
  - rewrite (not_short_domain _ Hh), Hc, Hpath, Hv. auto.
  - rewrite Hh, (strip_all_slashes _ Hsl). auto.
  - rewrite (not_short_domain _ Hh), Hc, Hpath. cbn [negb].
    unfold prefixes in Hin. cbn [In] in Hin.
    destruct Hin as [<- | [<- | [<- | [<- | []]]]]; auto.
Qed.

Lemma resolver_boundaries_witness :
  ((exists p, @urlparse Ref.library "https://www.youtube.com/watch?t=1" = Ret p /\
              @boundary_case Ref.library p None) /\
   @extract_video_id Ref.library "https://www.youtube.com/watch?t=1" = Ret None) /\
  ((exists p, @urlparse Ref.library "https://youtu.be/" = Ret p /\
              @boundary_case Ref.library p None) /\
   @extract_video_id Ref.library "https://youtu.be/" = Ret None) /\
  ((exists p, @urlparse Ref.library "https://www.youtube.com/shorts/" = Ret p /\
              @boundary_case Ref.library p (Some "")) /\
   @extract_video_id Ref.library "https://www.youtube.com/shorts/" = Ret (Some "")).
Proof.
  assert (H1 : exists p, @urlparse Ref.library "https://www.youtube.com/watch?t=1" = Ret p /\
                         @boundary_case Ref.library p None).
  { eexists. split; [vm_compute; reflexivity|].
    apply (@watch_without_v Ref.library); try reflexivity. discriminate. }
  assert (H2 : exists p, @urlparse Ref.library "https://youtu.be/" = Ret p /\
                         @boundary_case Ref.library p None).
  { eexists. split; [vm_compute; reflexivity|].
    apply (@short_domain_empty_path Ref.library); reflexivity. }
  assert (H3 : exists p, @urlparse Ref.library "https://www.youtube.com/shorts/" = Ret p /\
                         @boundary_case Ref.library p (Some "")).
  { eexists. split; [vm_compute; reflexivity|].
    apply (@prefix_alone Ref.library _ "/shorts/"); try reflexivity;
      [discriminate | left; reflexivity]. }
  repeat match goal with |- _ /\ _ => split end; try assumption.
  - destruct H1 as (p & Hp & Hs).
    exact (proj1 (@resolver_boundaries Ref.library _ p _ Hp Hs)).
  - destruct H2 as (p & Hp & Hs).
    exact (proj1 (@resolver_boundaries Ref.library _ p _ Hp Hs)).
  - destruct H3 as (p & Hp & Hs).
    exact (proj1 (@resolver_boundaries Ref.library _ p _ Hp Hs)).
Defined.

(** *** The download of a caption track *)

Lemma lookup_dict_set_same {A : Type} (k : string) (v : A) (l : list (string * A)) :
  lookup k (dict_set k v l) = Some v.
Proof.
  induction l as [|[k' w] l IH]; cbn [dict_set lookup].
  - rewrite String.eqb_refl. reflexivity.
  - destruct (String.eqb k' k) eqn:E; cbn [lookup]; rewrite E; [reflexivity | exact IH].
Qed.

Lemma lookup_dict_set_other {A : Type} (k k' : string) (v : A) (l : list (string * A)) :
  k <> k' -> lookup k' (dict_set k v l) = lookup k' l.
Proof.
  intros Hne. induction l as [|[j w] l IH]; cbn [dict_set lookup].
  - apply String.eqb_neq in Hne. rewrite Hne. reflexivity.
  - destruct (String.eqb j k) eqn:E; cbn [lookup].
    + apply String.eqb_eq in E. subst j.
      apply String.eqb_neq in Hne. rewrite Hne. reflexivity.
    + rewrite IH. reflexivity.
Qed.

Lemma remove_fmt_without_fmt (s : string) :
  Str.contains "&fmt=" s = false -> remove_fmt s 0 = s.
Proof.
  unfold Str.contains. induction s as [|c s IH]; [reflexivity|].
  cbn [Str.find remove_fmt].
  destruct (Str.startswith "&fmt=" (String c s)); [discriminate|].
  destruct (Str.find "&fmt=" s); [discriminate|].
  intros _. rewrite (IH eq_refl). reflexivity.
Qed.

(** C4, counterexample. The address of the track names a format: the
    fallback fetches the address without it, and the segments returned are
    those of that answer; the address as given is never fetched. *)
Lemma fallback_fetches_modified_url :
  fst (@json3_attempt Ref.library Sample.net Sample.base_url []) = None /\
  @download_caption_track Ref.library Sample.net Sample.base_url []
  = (Ret (Some [{| text := "Hi & bye"; start_ms := Some 1500%Z; end_ms := Some 3500%Z |}]),
     ["https://host.example/api/timedtext?v=1&fmt=json3&alt=json";
      "https://host.example/api/timedtext?v=1"]) /\
  xml_url Sample.base_url <> Sample.base_url /\
  @parse_xml_transcript Ref.library "" = Ret None.
Proof.
  split; [vm_compute; reflexivity|]. split; [vm_compute; reflexivity|].
  split; [vm_compute; discriminate | vm_compute; reflexivity].
Qed.

Lemma remove_fmt_skip (a b : string) :
  remove_fmt (a ++ b) (String.length a) = remove_fmt b 0.
Proof.
  induction a as [|c a IH]; [reflexivity|].
  cbn [String.append String.length remove_fmt]. exact IH.
Qed.

(** No fragment begins inside a text that has none and ends where the
    next parameter begins. *)
Lemma no_fmt_across (s t : string) :
  s <> "" -> at_boundary t ->
  Str.startswith "&fmt=" (s ++ t) = Str.startswith "&fmt=" s.
Proof.
  intros Hs Ht.
  destruct s as [|c1 [|c2 [|c3 [|c4 [|c5 s]]]]]; [contradiction| | | | |reflexivity];
    destruct Ht as [-> | Ht];
    try (destruct t as [|d t]; [discriminate Ht|];
         cbn [Str.startswith] in Ht; rewrite andb_true_r in Ht;
         apply Ascii.eqb_eq in Ht; subst d);
    cbn [String.append Str.startswith];
    repeat match goal with |- context [Ascii.eqb ?a ?b] =>
             destruct (Ascii.eqb a b) eqn:?; cbn [andb] end;
    try reflexivity; discriminate.
Qed.

Lemma remove_fmt_before (pre t : string) :
  Str.contains "&fmt=" pre = false -> at_boundary t ->
  remove_fmt (pre ++ t) 0 = (pre ++ remove_fmt t 0)%string.
Proof.
  unfold Str.contains. intros Hp Ht. induction pre as [|c pre IH]; [reflexivity|].
  cbn [Str.find] in Hp.
  destruct (Str.startswith "&fmt=" (String c pre)) eqn:E; [discriminate Hp|].
  destruct (Str.find "&fmt=" pre) eqn:F; [discriminate Hp|].
  change (String c pre ++ t)%string with (String c (pre ++ t)).
  cbn [remove_fmt].
  change (String c (pre ++ t)) with (String c pre ++ t)%string.
  rewrite (no_fmt_across (String c pre) t ltac:(discriminate) Ht), E.
  cbn [String.append]. rewrite (IH eq_refl). reflexivity.
Qed.

Lemma span_not_amp_value (v rest : string) :
  Str.all not_amp v = true -> at_boundary rest -> span_not_amp (v ++ rest) = v.
Proof.
  intros Hv Hr. induction v as [|c v IH]; cbn [String.append].
  - destruct Hr as [-> | Hr]; [reflexivity|].
    destruct rest as [|d rest]; [reflexivity|].
    cbn [Str.startswith] in Hr. rewrite andb_true_r in Hr.
    apply Ascii.eqb_eq in Hr. subst d. reflexivity.
  - cbn [Str.all] in Hv. apply andb_true_iff in Hv as [Hc Hv].
    cbn [span_not_amp]. unfold not_amp in Hc. apply negb_true_iff in Hc.
    rewrite Hc, (IH Hv). reflexivity.
Qed.

(** A fragment with a value is removed, and the rest is treated alike. *)
Lemma xml_url_removes (pre v rest : string) :
  Str.contains "&fmt=" pre = false -> v <> "" -> Str.all not_amp v = true ->
  at_boundary rest ->
  xml_url (pre ++ "&fmt=" ++ v ++ rest) = (pre ++ xml_url rest)%string.
Proof.
  intros Hp Hne Hv Hr. unfold xml_url.
  rewrite (remove_fmt_before pre _ Hp) by (right; reflexivity).
  f_equal. cbn [String.append remove_fmt Str.startswith Ascii.eqb Bool.eqb andb Str.drop].
  rewrite (span_not_amp_value v rest Hv Hr).
  destruct v as [|c v]; [contradiction|].
  apply (remove_fmt_skip ("fmt=" ++ String c v) rest).
Qed.

(** A fragment without a value stays. *)
Lemma xml_url_keeps_empty (pre rest : string) :
  Str.contains "&fmt=" pre = false -> at_boundary rest ->
  xml_url (pre ++ "&fmt=" ++ rest) = (pre ++ "&fmt=" ++ xml_url rest)%string.
Proof.
  intros Hp Hr. unfold xml_url.
  rewrite (remove_fmt_before pre _ Hp) by (right; reflexivity).
  f_equal. cbn [String.append remove_fmt Str.startswith Ascii.eqb Bool.eqb andb Str.drop].
  replace (span_not_amp rest) with "" by (symmetry; apply (span_not_amp_value "" rest eq_refl Hr)).
  reflexivity.
Qed.

(** C4, as amended. The compact format is tried first, on the address of
    the track with [fmt] and [alt] set; segments found there are returned
    with no other request. When the first attempt yields nothing, one more
    request goes to the address of the track from which every fragment
    [&fmt=value] with a value that is not empty has been removed; an
    address without such a fragment is requested as it is. The answer is
    read as compact events first and as timed XML when they give no
    segments; whatever fails there gives [None]. *)
Theorem download_attempts `{Library} (net : network) (base_url : string)
    (log : list string) :
  (forall p, urlparse base_url = Ret p ->
     lookup "fmt" (json3_params p) = Some ["json3"] /\
     lookup "alt" (json3_params p) = Some ["json"] /\
     (forall k, k <> "fmt" -> k <> "alt" ->
                lookup k (json3_params p) = lookup k (parse_qs (query p))) /\
     json3_url p
     = (scheme p ++ "://" ++ netloc p ++ path p ++ "?"
          ++ urlencode (json3_params p))%string /\
     exists later,
       snd (download_caption_track net base_url log) = log ++ json3_url p :: later) /\
  (forall p t r,
     urlparse base_url = Ret p -> net log (json3_url p) = Ret t ->
     parse_json3_transcript t = Ret r -> has_segments r = true ->
     download_caption_track net base_url log = (Ret r, log ++ [json3_url p])) /\
  (forall log1,
     compact_yields_nothing net base_url log log1 ->
     snd (download_caption_track net base_url log) = log1 ++ [xml_url base_url] /\
     (forall e, net log1 (xml_url base_url) = Raise e ->
        fst (download_caption_track net base_url log) = Ret None) /\
     (forall t e, net log1 (xml_url base_url) = Ret t ->
        parse_json3_transcript t = Raise e ->
        fst (download_caption_track net base_url log) = Ret None) /\
     (forall t r, net log1 (xml_url base_url) = Ret t ->
        parse_json3_transcript t = Ret r -> has_segments r = true ->
        fst (download_caption_track net base_url log) = Ret r) /\
     (forall t r, net log1 (xml_url base_url) = Ret t ->
        parse_json3_transcript t = Ret r -> has_segments r = false ->
        fst (download_caption_track net base_url log)
        = match parse_xml_transcript t with
          | Ret x => Ret x
          | Raise _ => Ret None
          end)) /\
  (forall pre v rest,
     Str.contains "&fmt=" pre = false -> v <> "" -> Str.all not_amp v = true ->
     at_boundary rest ->
     xml_url (pre ++ "&fmt=" ++ v ++ rest) = (pre ++ xml_url rest)%string) /\
  (forall pre rest,
     Str.contains "&fmt=" pre = false -> at_boundary rest ->
     xml_url (pre ++ "&fmt=" ++ rest) = (pre ++ "&fmt=" ++ xml_url rest)%string) /\
  (Str.contains "&fmt=" base_url = false -> xml_url base_url = base_url).
Proof.
  split; [|split; [|split; [|split; [|split]]]].
  - intros p Hp. unfold json3_params.
    split; [|split; [|split; [|split]]].
    + rewrite lookup_dict_set_other by discriminate. apply lookup_dict_set_same.
    + apply lookup_dict_set_same.
    + intros k Hf Ha. rewrite !lookup_dict_set_other by congruence. reflexivity.
    + reflexivity.
    + unfold download_caption_track, json3_attempt, xml_attempt, fetch_url. rewrite Hp.
      destruct (t <- net log (json3_url p) ;; parse_json3_transcript t) as [r|e].
      * destruct (has_segments r) eqn:Hr.
        -- destruct r as [r|]; [|discriminate Hr]. exists []. reflexivity.
        -- exists [xml_url base_url]. cbn [snd]. rewrite <- app_assoc. reflexivity.
      * exists [xml_url base_url]. cbn [snd]. rewrite <- app_assoc. reflexivity.
  - intros p t r Hp Ht Hr Hs.
    unfold download_caption_track, json3_attempt, fetch_url.
    rewrite Hp, Ht. cbn [bind]. rewrite Hr, Hs.
    destruct r as [r|]; [reflexivity | discriminate Hs].
  - intros log1 Hfirst.
    assert (E : download_caption_track net base_url log = xml_attempt net base_url log1).
    { unfold download_caption_track, json3_attempt, fetch_url.
      destruct Hfirst as [e Hp | p e Hp Hn | p t e Hp Hn Hj | p t r Hp Hn Hj Hs];
        rewrite Hp; [reflexivity | rewrite Hn; reflexivity
                     | rewrite Hn; cbn [bind]; rewrite Hj; reflexivity
                     | rewrite Hn; cbn [bind]; rewrite Hj, Hs; reflexivity]. }
    rewrite E. unfold xml_attempt, fetch_url, try_except_Exception. cbn [fst snd].
    split; [reflexivity|]. split; [|split; [|split]].
    + intros e He. rewrite He. reflexivity.
    + intros t e Ht Hj. rewrite Ht. cbn [bind]. rewrite Hj. reflexivity.
    + intros t r Ht Hj Hs. rewrite Ht. cbn [bind]. rewrite Hj. cbn [bind].
      rewrite Hs. reflexivity.
    + intros t r Ht Hj Hs. rewrite Ht. cbn [bind]. rewrite Hj. cbn [bind].
      rewrite Hs. destruct (parse_xml_transcript t); reflexivity.
  - apply xml_url_removes.
  - apply xml_url_keeps_empty.
  - apply remove_fmt_without_fmt.
Qed.

Lemma download_attempts_witness :
  (@compact_yields_nothing Ref.library Sample.net Sample.base_url []
     ["https://host.example/api/timedtext?v=1&fmt=json3&alt=json"] /\
   snd (@download_caption_track Ref.library Sample.net Sample.base_url [])
   = ["https://host.example/api/timedtext?v=1&fmt=json3&alt=json"]
     ++ [xml_url Sample.base_url]) /\
  xml_url ("https://host.example/api/timedtext?v=1" ++ "&fmt=" ++ "srv3" ++ "&lang=en")
  = ("https://host.example/api/timedtext?v=1" ++ xml_url "&lang=en")%string /\
  xml_url ("https://host.example/api/timedtext?v=1" ++ "&fmt=" ++ "&lang=en")
  = ("https://host.example/api/timedtext?v=1" ++ "&fmt=" ++ xml_url "&lang=en")%string.
Proof.
  assert (Hf : @compact_yields_nothing Ref.library Sample.net Sample.base_url []
                 ["https://host.example/api/timedtext?v=1&fmt=json3&alt=json"]).
  { apply (@no_segments Ref.library Sample.net Sample.base_url []
             {| scheme := "https"; netloc := "host.example"; path := "/api/timedtext";
                query := "v=1&fmt=srv3"; hostname := Some "host.example" |} "" None);
      vm_compute; reflexivity. }
  split; [split; [exact Hf|]|split].
  - exact (proj1 (proj1 (proj2 (proj2 (@download_attempts Ref.library Sample.net
                                         Sample.base_url []))) _ Hf)).
  - apply (proj1 (proj2 (proj2 (proj2 (@download_attempts Ref.library Sample.net "" []))))
             "https://host.example/api/timedtext?v=1" "srv3" "&lang=en");
      [reflexivity | discriminate | reflexivity | right; reflexivity].
  - apply (proj1 (proj2 (proj2 (proj2 (proj2 (@download_attempts Ref.library Sample.net
                                                "" [])))))
             "https://host.example/api/timedtext?v=1" "&lang=en");
      [reflexivity | right; reflexivity].
Defined.

(** *** The chain of strategies *)

Section ChainProofs.

Context `{Library} {W : Type} (c : callees W).

(** The loop over the tracks adds calls of the download only, all without
    segments but the last one when the loop ends on a success. *)
Lemma try_tracks_log (tracks : list json) :
  forall (w : W) (log : list call),
  exists (w' : W) (ds : list call),
    Forall (fun e => who e = CaptionTracks /\ failed e) ds /\
    ((exists s, try_tracks c tracks (w, log) = (Ret s, (w', log ++ ds)) /\
                has_segments s = false) \/
     (exists s, try_tracks c tracks (w, log)
                = (Ret s, (w', log ++ ds ++ [{| who := CaptionTracks; yielded := true |}])) /\
                has_segments s = true) \/
     (exists e, try_tracks c tracks (w, log) = (Raise e, (w', log ++ ds)))).
Proof.
  induction tracks as [|track rest IH]; intros w log; cbn [try_tracks].
  - exists w, []. split; [constructor|]. left. exists None.
    rewrite app_nil_r. split; reflexivity.
  - destruct (track_url track) as [base_url|e].
    2:{ exists w, []. split; [constructor|]. right; right. exists e.
        rewrite app_nil_r. reflexivity. }
    destruct (truthy base_url); cbn [negb]; [|apply IH].
    unfold invoke. cbn [fst snd].
    destruct (download_track c base_url w) as [[segments|e] w1].
    + destruct (has_segments segments) eqn:Es.
      * exists w1, []. split; [constructor|]. right; left. exists segments.
        split; [reflexivity | exact Es].
      * destruct (IH w1 (log ++ [{| who := CaptionTracks; yielded := false |}]))
          as (w' & ds & Hds & Hcases).
        exists w', ({| who := CaptionTracks; yielded := false |} :: ds).
        split; [constructor; [split; reflexivity | exact Hds]|].
        destruct Hcases as [(s & E & Hs) | [(s & E & Hs) | (e & E)]];
          rewrite <- app_assoc in E; cbn [app] in E; eauto 6.
    + exists w1, [{| who := CaptionTracks; yielded := false |}].
      split; [constructor; [split; reflexivity | constructor]|].
      right; right. exists e. reflexivity.
Qed.

Lemma try_caption_tracks_log (html : string) (w : W) (log : list call) :
  exists (w' : W) (ds : list call),
    Forall (fun e => who e = CaptionTracks /\ failed e) ds /\
    ((exists s, try_caption_tracks c html (w, log) = (Ret s, (w', log ++ ds)) /\
                has_segments s = false) \/
     (exists s, try_caption_tracks c html (w, log)
                = (Ret s, (w', log ++ ds ++ [{| who := CaptionTracks; yielded := true |}])) /\
                has_segments s = true) \/
     (exists e, try_caption_tracks c html (w, log) = (Raise e, (w', log ++ ds)))).
Proof.
  unfold try_caption_tracks.
  assert (Hnone : forall r : result (option (list segment)),
             (r = Ret None \/ exists e, r = Raise e) ->
             exists (w' : W) (ds : list call),
               Forall (fun e => who e = CaptionTracks /\ failed e) ds /\
               ((exists s, (r, (w, log)) = (Ret s, (w', log ++ ds)) /\
                           has_segments s = false) \/
                (exists s, (r, (w, log))
                   = (Ret s, (w', log ++ ds ++ [{| who := CaptionTracks; yielded := true |}])) /\
                   has_segments s = true) \/
                (exists e, (r, (w, log)) = (Raise e, (w', log ++ ds))))).
  { intros r Hr. exists w, []. split; [constructor|]. rewrite app_nil_r.
    destruct Hr as [-> | [e ->]]; [left; exists None; auto | right; right; eauto]. }
  destruct (extract_initial_player_response html) as [[pr|]|e]; [|auto|eauto].
  destruct (truthy pr); [|auto].
  destruct (get_caption_tracks pr) as [tracks|e]; [apply try_tracks_log | eauto].
Qed.

(** Every run of the chain is one of the five runs of [chain_run]. *)
Lemma main_chain_run (html video_id : string) (w : W) :
  chain_run (fst (main_chain c html video_id (w, [])))
            (snd (snd (main_chain c html video_id (w, [])))).
Proof.
  unfold main_chain, invoke. cbn [fst snd app].
  destruct (try_youtubei_transcript c html _ w) as [[s1|e] w1].
  2:{ cbn [fst snd]. apply (run_raised e [] []); [constructor | left; reflexivity]. }
  destruct (has_segments s1) eqn:E1.
  { cbn [fst snd]. apply run_first. exact E1. }
  destruct (try_caption_tracks_log html w1 [{| who := Youtubei; yielded := false |}])
    as (w2 & ds & Hds & [(s2 & -> & E2) | [(s2 & -> & E2) | (e & ->)]]).
  - rewrite E2. cbn [fst snd].
    destruct (try_android_player c html video_id w2) as [[s3|e] w3].
    + destruct (has_segments s3) eqn:E3; cbn [fst snd app];
        [apply run_third | apply run_failed]; assumption.
    + cbn [fst snd app]. apply run_raised; [exact Hds | right; reflexivity].
  - rewrite E2. cbn [fst snd app]. apply run_second; assumption.
  - cbn [fst snd app]. rewrite <- (app_nil_r ds).
    apply run_raised; [exact Hds | left; reflexivity].
Qed.

End ChainProofs.

Lemma all_failed_but_last (l : list call) (x : call) :
  Forall failed l -> all_but_last_failed (l ++ [x]).
Proof.
  intros Hl before e after Heq Hne.
  destruct (exists_last Hne) as (after' & z & ->).
  change (before ++ e :: after' ++ [z]) with (before ++ (e :: after') ++ [z]) in Heq.
  rewrite app_assoc in Heq. apply app_inj_tail in Heq as [-> _].
  rewrite Forall_forall in Hl. apply Hl.
  apply in_or_app. right. left. reflexivity.
Qed.

Lemma all_failed (l : list call) : Forall failed l -> all_but_last_failed l.
Proof.
  intros Hl before e after -> _. rewrite Forall_forall in Hl. apply Hl.
  apply in_or_app. right. left. reflexivity.
Qed.

Lemma downloads_failed (ds : list call) :
  Forall (fun e => who e = CaptionTracks /\ failed e) ds ->
  Forall failed ds /\ Forall (fun e => who e = CaptionTracks) ds.
Proof.
  intros Hd. split; eapply Forall_impl; try exact Hd; intros e [Ha Hb]; assumption.
Qed.

(** With callees that record their calls, the world and the log of the
    chain grow by the same calls. *)
Lemma try_tracks_recorded `{Library} answer1 answer2 answer3 (tracks : list json) :
  forall (w log : list call),
  exists calls,
    snd (try_tracks (recording_callees answer1 answer2 answer3) tracks (w, log))
    = (w ++ calls, log ++ calls).
Proof.
  induction tracks as [|track rest IH]; intros w log; cbn [try_tracks].
  - exists []. rewrite !app_nil_r. reflexivity.
  - destruct (track_url track) as [u|e]; [|exists []; rewrite !app_nil_r; reflexivity].
    destruct (truthy u); cbn [negb]; [|apply IH].
    unfold invoke. cbn [recording_callees download_track fst snd].
    destruct (answer2 w u) as [s|e] eqn:Ea; cbn [yields].
    + destruct (has_segments s) eqn:Es.
      * eexists [_]. reflexivity.
      * destruct (IH (w ++ [{| who := CaptionTracks; yielded := false |}])
                     (log ++ [{| who := CaptionTracks; yielded := false |}]))
          as (calls & E).
        exists ({| who := CaptionTracks; yielded := false |} :: calls).
        rewrite E, <- !app_assoc. reflexivity.
    + eexists [_]. reflexivity.
Qed.

Lemma main_chain_recorded `{Library} answer1 answer2 answer3
    (html video_id : string) (w : list call) :
  fst (snd (main_chain (recording_callees answer1 answer2 answer3) html video_id (w, [])))
  = w ++ snd (snd (main_chain (recording_callees answer1 answer2 answer3)
                     html video_id (w, []))).
Proof.
  unfold main_chain, invoke.
  cbn [recording_callees try_youtubei_transcript try_android_player fst snd app].
  destruct (answer1 w html _) as [s1|e]; cbn [yields fst snd]; [|reflexivity].
  destruct (has_segments s1); cbn [fst snd]; [reflexivity|].
  assert (T : exists calls,
             snd (try_caption_tracks (recording_callees answer1 answer2 answer3) html
                    (w ++ [{| who := Youtubei; yielded := false |}],
                     [{| who := Youtubei; yielded := false |}]))
             = ((w ++ [{| who := Youtubei; yielded := false |}]) ++ calls,
                [{| who := Youtubei; yielded := false |}] ++ calls)).
  { unfold try_caption_tracks.
    destruct (extract_initial_player_response html) as [[pr|]|e];
      try (exists []; rewrite !app_nil_r; reflexivity).
    destruct (truthy pr); [|exists []; rewrite !app_nil_r; reflexivity].
    destruct (get_caption_tracks pr) as [tracks|e];
      [apply try_tracks_recorded | exists []; rewrite !app_nil_r; reflexivity]. }
  destruct T as (calls & T).
  destruct (try_caption_tracks _ html _) as [r2 st2]. cbn [snd] in T. subst st2.
  destruct r2 as [s2|e]; cbn [fst snd]; [|rewrite <- app_assoc; reflexivity].
  destruct (has_segments s2); cbn [fst snd]; [rewrite <- app_assoc; reflexivity|].
  destruct (answer3 _ html video_id) as [s3|e]; cbn [yields fst snd].
  - destruct (has_segments s3); cbn [fst snd]; rewrite <- !app_assoc; reflexivity.
  - rewrite <- !app_assoc. reflexivity.
Qed.

(** The tracks of a catalog are objects: the address of each can be read. *)
Lemma catalog_tracks_have_urls (player_response : json) (tracks : list json) :
  get_caption_tracks player_response = Ret tracks ->
  Forall (fun t => exists u, track_url t = Ret u) tracks.
Proof.
  unfold get_caption_tracks. intros E.
  destruct (caption_track_list player_response) as [items|]; [|discriminate].
  cbn [bind] in E. unfold sorted_tracks in E.
  destruct (with_keys items) as [keyed|] eqn:Ek; [|discriminate].
  cbn [bind] in E. ret_inv E.
  destruct (with_keys_spec _ _ Ek) as [_ Hk].
  apply Forall_forall. intros t Ht. apply in_map_iff in Ht as (kt & <- & Hin).
  apply (Permutation_in kt (sort_keyed_perm keyed)) in Hin.
  rewrite Forall_forall in Hk. specialize (Hk kt Hin).
  unfold sort_key in Hk. destruct (snd kt) as [| | | | | |fields]; try discriminate Hk.
  unfold track_url. cbn [Py.get bind].
  destruct (truthy _); eauto.
Qed.

(** When no download yields segments, every track with an address is
    downloaded, in the order of the catalog. *)
Lemma try_tracks_all_fail `{Library} answer1 answer2 answer3 (tracks : list json) :
  (forall w u, exists r, answer2 w u = Ret r /\ has_segments r = false) ->
  Forall (fun t => exists u, track_url t = Ret u) tracks ->
  forall (w log : list call),
    try_tracks (recording_callees answer1 answer2 answer3) tracks (w, log)
    = (Ret None,
       (w ++ map (fun _ => {| who := CaptionTracks; yielded := false |}) (candidates tracks),
        log ++ map (fun _ => {| who := CaptionTracks; yielded := false |}) (candidates tracks))).
Proof.
  intros Hno Hu. induction Hu as [|track rest (u & Hu) _ IH]; intros w log;
    cbn [try_tracks candidates map].
  - rewrite !app_nil_r. reflexivity.
  - rewrite Hu. destruct (truthy u); cbn [negb]; [|apply IH].
    unfold invoke. cbn [recording_callees download_track fst snd].
    destruct (Hno w u) as (r & -> & Hr). cbn [yields]. rewrite Hr.
    rewrite IH. cbn [map]. rewrite <- !app_assoc. reflexivity.
Qed.

(** C5. With callees that record their own calls, the calls that a run of
    the chain has made are in the order of the strategies, and every call
    but the last one yielded nothing: a later strategy is called only
    after all the earlier calls came back without segments. When the first
    strategy yields segments it is the only call; a run that succeeds
    ends with the call of the strategy it names, which yielded segments;
    a run ends as failed only with the call of the last strategy, which
    yielded nothing like every call before it. When the first strategy
    and all the downloads yield nothing, every track of the catalog
    that has an address is downloaded, in the order of the catalog,
    before the last strategy is called. *)
Theorem chain_short_circuits `{Library}
    (answer1 : list call -> string -> string -> result (option (list segment)))
    (answer2 : list call -> json -> result (option (list segment)))
    (answer3 : list call -> string -> string -> result (option (list segment)))
    (html video_id : string) :
  let run := main_chain (recording_callees answer1 answer2 answer3) html video_id
               ([], []) in
  let calls := fst (snd run) in
  in_fixed_order calls /\
  all_but_last_failed calls /\
  (forall s,
      answer1 [] html ("https://www.youtube.com/watch?v=" ++ video_id)%string = Ret s ->
      has_segments s = true ->
      fst run = Ret (SUCCEEDED "youtubei" s) /\
      calls = [{| who := Youtubei; yielded := true |}]) /\
  (fst run = Ret FAILED ->
   Forall failed calls /\
   exists before, calls = before ++ [{| who := AndroidPlayer; yielded := false |}]) /\
  (forall source s,
      fst run = Ret (SUCCEEDED source s) ->
      has_segments s = true /\
      exists before winner,
        calls = before ++ [{| who := winner; yielded := true |}] /\
        source = label winner /\ Forall failed before) /\
  (forall s1 player_response tracks,
      answer1 [] html ("https://www.youtube.com/watch?v=" ++ video_id)%string = Ret s1 ->
      has_segments s1 = false ->
      extract_initial_player_response html = Ret (Some player_response) ->
      truthy player_response = true ->
      get_caption_tracks player_response = Ret tracks ->
      (forall w u, exists r, answer2 w u = Ret r /\ has_segments r = false) ->
      exists last,
        calls = {| who := Youtubei; yielded := false |}
                :: map (fun _ => {| who := CaptionTracks; yielded := false |})
                       (candidates tracks)
                ++ [{| who := AndroidPlayer; yielded := last |}]).
Proof.
  intros run calls.
  assert (Hpin : forall s1 player_response tracks,
      answer1 [] html ("https://www.youtube.com/watch?v=" ++ video_id)%string = Ret s1 ->
      has_segments s1 = false ->
      extract_initial_player_response html = Ret (Some player_response) ->
      truthy player_response = true ->
      get_caption_tracks player_response = Ret tracks ->
      (forall w u, exists r, answer2 w u = Ret r /\ has_segments r = false) ->
      exists last,
        calls = {| who := Youtubei; yielded := false |}
                :: map (fun _ => {| who := CaptionTracks; yielded := false |})
                       (candidates tracks)
                ++ [{| who := AndroidPlayer; yielded := last |}]).
  { intros s1 pr tracks Ha Hs Hpr Hp Ht Hno. subst calls run.
    unfold main_chain, invoke.
    cbn [recording_callees try_youtubei_transcript try_android_player fst snd app].
    rewrite Ha. cbn [yields]. rewrite Hs. cbn [fst snd].
    unfold try_caption_tracks. rewrite Hpr, Hp, Ht.
    rewrite (try_tracks_all_fail _ _ _ tracks Hno (catalog_tracks_have_urls _ _ Ht)).
    cbn [has_segments fst snd app].
    destruct (answer3 _ html video_id) as [s3|e]; cbn [yields fst snd];
      [destruct (has_segments s3); cbn [fst snd]|]; eexists; reflexivity. }
  assert (Hw : calls = snd (snd run))
    by (apply (main_chain_recorded answer1 answer2 answer3 html video_id [])).
  assert (Hrun : chain_run (fst run) calls) by (rewrite Hw; apply main_chain_run).
  clearbody calls. clear Hw.
  split; [|split; [|split; [|split; [|split; [|exact Hpin]]]]].
  - inversion Hrun as [s Hs | s ds Hs Hd | s ds Hs Hd | ds Hd | e ds last Hd Hl];
      try (apply downloads_failed in Hd as [_ Hd]).
    + exists {| who := Youtubei; yielded := true |}, [], []. repeat split; auto.
    + eexists _, (ds ++ [{| who := CaptionTracks; yielded := true |}]), [].
      rewrite app_nil_r. repeat split; auto.
      apply Forall_app. split; [exact Hd | repeat constructor].
    + eexists _, ds, _. repeat split; eauto.
    + eexists _, ds, _. repeat split; eauto.
    + eexists _, ds, last. repeat split; auto.
      destruct Hl as [-> | ->]; eauto.
  - inversion Hrun as [s Hs | s ds Hs Hd | s ds Hs Hd | ds Hd | e ds last Hd Hl];
      try (apply downloads_failed in Hd as [Hd _]).
    + apply (all_failed_but_last []). constructor.
    + apply (all_failed_but_last (_ :: ds)). constructor; [reflexivity | exact Hd].
    + apply (all_failed_but_last (_ :: ds)). constructor; [reflexivity | exact Hd].
    + apply (all_failed_but_last (_ :: ds)). constructor; [reflexivity | exact Hd].
    + apply all_failed. constructor; [reflexivity|].
      apply Forall_app. split; [exact Hd|].
      destruct Hl as [-> | ->]; repeat constructor.
  - intros s Hy Hs.
    assert (E : fst run = Ret (SUCCEEDED "youtubei" s)).
    { subst run. unfold main_chain, invoke.
      cbn [recording_callees try_youtubei_transcript fst snd app].
      rewrite Hy. cbn [yields]. rewrite Hs. reflexivity. }
    split; [exact E|]. rewrite E in Hrun.
    inversion Hrun as [s' Hs' | s' ds Hs' Hd | s' ds Hs' Hd | |]. reflexivity.
  - intros Hf. rewrite Hf in Hrun.
    inversion Hrun as [| | | ds Hd |]. apply downloads_failed in Hd as [Hd _].
    split.
    + constructor; [reflexivity|]. apply Forall_app. split; [exact Hd|].
      repeat constructor.
    + exists ({| who := Youtubei; yielded := false |} :: ds). reflexivity.
  - intros source s Hs. rewrite Hs in Hrun.
    inversion Hrun as [s' Hs' | s' ds Hs' Hd | s' ds Hs' Hd | |]; subst;
      try (apply downloads_failed in Hd as [Hd _]); (split; [assumption|]).
    + exists [], Youtubei. repeat split. constructor.
    + exists ({| who := Youtubei; yielded := false |} :: ds), CaptionTracks.
      repeat split. constructor; [reflexivity | exact Hd].
    + exists ({| who := Youtubei; yielded := false |} :: ds), AndroidPlayer.
      repeat split. constructor; [reflexivity | exact Hd].
Qed.

Lemma chain_short_circuits_witness :
  (fst (@main_chain Ref.library _
          (recording_callees (Sample.answer_page true) (Sample.answer_track "")
                             (Sample.answer_page false))
          Sample.page_tracks "abc" ([], []))
   = Ret (SUCCEEDED "youtubei" Sample.hi) /\
   fst (snd (@main_chain Ref.library _
               (recording_callees (Sample.answer_page true) (Sample.answer_track "")
                                  (Sample.answer_page false))
               Sample.page_tracks "abc" ([], [])))
   = [{| who := Youtubei; yielded := true |}]) /\
  (fst (snd (@main_chain Ref.library _
               (recording_callees (Sample.answer_page false)
                                  (Sample.answer_track "https://host.example/a")
                                  (Sample.answer_page true))
               Sample.page_tracks "abc" ([], [])))
   = [{| who := Youtubei; yielded := false |};
      {| who := CaptionTracks; yielded := false |};
      {| who := CaptionTracks; yielded := true |}] /\
   all_but_last_failed
     (fst (snd (@main_chain Ref.library _
                  (recording_callees (Sample.answer_page false)
                                     (Sample.answer_track "https://host.example/a")
                                     (Sample.answer_page true))
                  Sample.page_tracks "abc" ([], []))))) /\
  (fst (snd (@main_chain Ref.library _
               (recording_callees (Sample.answer_page false) (Sample.answer_track "")
                                  (Sample.answer_page false))
               Sample.page_tracks "abc" ([], [])))
   = [{| who := Youtubei; yielded := false |};
      {| who := CaptionTracks; yielded := false |};
      {| who := CaptionTracks; yielded := false |};
      {| who := AndroidPlayer; yielded := false |}] /\
   Forall failed
     (fst (snd (@main_chain Ref.library _
                  (recording_callees (Sample.answer_page false) (Sample.answer_track "")
                                     (Sample.answer_page false))
                  Sample.page_tracks "abc" ([], []))))).
Proof.
  split; [|split].
  - apply (proj1 (proj2 (proj2 (@chain_short_circuits Ref.library
                                  (Sample.answer_page true) (Sample.answer_track "")
                                  (Sample.answer_page false) Sample.page_tracks "abc"))));
      reflexivity.
  - split; [vm_compute; reflexivity|].
    exact (proj1 (proj2 (@chain_short_circuits Ref.library
                           (Sample.answer_page false)
                           (Sample.answer_track "https://host.example/a")
                           (Sample.answer_page true) Sample.page_tracks "abc"))).
  - split; [vm_compute; reflexivity|].
    refine (proj1 (proj1 (proj2 (proj2 (proj2
              (@chain_short_circuits Ref.library
                 (Sample.answer_page false) (Sample.answer_track "")
                 (Sample.answer_page false) Sample.page_tracks "abc")))) _)).
    vm_compute. reflexivity.
Defined.

(** *** The examples of the specification and the empty catalog *)

(** The examples of the specification for the format parsers,
    evaluated with the reference library: one event with two fragments, and
    one timed element with an entity. *)
Theorem format_parsers_examples :
  @parse_json3_transcript Ref.library Sample.json3
  = Ret (Some [{| text := "Hello world"; start_ms := Some 1000%Z; end_ms := Some 1500%Z |}]) /\
  @parse_xml_transcript Ref.library Sample.xml
  = Ret (Some [{| text := "Hi & bye"; start_ms := Some 1500%Z; end_ms := Some 3500%Z |}]) /\
  parse_youtubei_response Sample.youtubei
  = Ret (Some [{| text := "Hi there"; start_ms := Some 1200%Z; end_ms := Some 2000%Z |}]).
Proof.
  split; [|split]; vm_compute; reflexivity.
Qed.

(** X3. A player response that lacks one of the keys on the way to the
    tracks gives the empty catalog, and no error. *)
Theorem catalog_empty_without_keys (fields : list (string * json)) :
  lookup "captions" fields = None \/
  (exists captions,
      lookup "captions" fields = Some (JObj captions) /\
      (lookup "playerCaptionsTracklistRenderer" captions = None \/
       exists renderer,
         lookup "playerCaptionsTracklistRenderer" captions = Some (JObj renderer) /\
         lookup "captionTracks" renderer = None)) ->
  get_caption_tracks (JObj fields) = Ret [].
Proof.
  unfold get_caption_tracks, caption_track_list.
  intros [Hc | (captions & Hc & [Hr | (renderer & Hr & Ht)])]; cbn [Py.get bind].
  - rewrite Hc. reflexivity.
  - rewrite Hc. cbn [Py.get bind]. rewrite Hr. reflexivity.
  - rewrite Hc. cbn [Py.get bind]. rewrite Hr. cbn [Py.get bind]. rewrite Ht. reflexivity.
Qed.

Lemma catalog_empty_without_keys_witness :
  get_caption_tracks (JObj [("videoDetails", JObj [])]) = Ret [] /\
  get_caption_tracks (JObj [("captions", JObj [("playerCaptionsTracklistRenderer", JObj [])])])
  = Ret [].
Proof.
  split; apply catalog_empty_without_keys.
  - left. reflexivity.
  - right. eexists. split; [reflexivity|]. right. eexists. split; reflexivity.
Defined.

(** *** Timestamps *)

Lemma uint_no_colon (u : Decimal.uint) :
  Str.all not_colon (NilEmpty.string_of_uint u) = true.
Proof. induction u; simpl; auto. Qed.

Lemma str_of_int_no_colon (z : Z) : Str.all not_colon (str_of_int z) = true.
Proof.
  unfold str_of_int. destruct (Z.to_int z) as [u|u]; simpl;
    destruct u; try reflexivity; apply (uint_no_colon (_ u)).
Qed.

Lemma pad2_no_colon (z : Z) : Str.all not_colon (pad2 z) = true.
Proof.
  unfold pad2. destruct (Nat.ltb _ 2); simpl; apply str_of_int_no_colon.
Qed.

Lemma colon_splits (s1 s2 r1 r2 : string) :
  Str.all not_colon s1 = true -> Str.all not_colon s2 = true ->
  (s1 ++ String ":" r1)%string = (s2 ++ String ":" r2)%string ->
  s1 = s2 /\ r1 = r2.
Proof.
  revert s2. induction s1 as [|a s1 IH]; intros [|b s2] H1 H2 E; simpl in *.
  - injection E as E. auto.
  - injection E as Ec E. subst b. discriminate H2.
  - injection E as Ec E. subst a. discriminate H1.
  - injection E as Ec E. subst b.
    apply andb_true_iff in H1 as [_ H1]. apply andb_true_iff in H2 as [_ H2].
    destruct (IH s2 H1 H2 E) as [-> ->]. auto.
Qed.

Lemma colon_inside (s r : string) :
  Str.all not_colon (s ++ String ":" r) = false.
Proof.
  induction s as [|a s IH]; simpl; [reflexivity|].
  rewrite IH. apply andb_false_r.
Qed.

Lemma str_of_int_inj (a b : Z) : str_of_int a = str_of_int b -> a = b.
Proof.
  unfold str_of_int. intros E. apply DecimalZ.to_int_inj.
  assert (N : forall z, NilZero.int_of_string (NilZero.string_of_int (Z.to_int z))
                        = Some (Z.to_int z)).
  { intros z. apply NilZero.isi; destruct z; simpl; try discriminate;
      intros F; injection F as F; exact (DecimalPos.Unsigned.to_uint_nonnil _ F). }
  apply (f_equal NilZero.int_of_string) in E. rewrite !N in E. congruence.
Qed.

Lemma pad2_inj (a b : Z) :
  (0 <= a < 60)%Z -> (0 <= b < 60)%Z -> pad2 a = pad2 b -> a = b.
Proof.
  intros Ha Hb E.
  assert (T : forallb (fun i => forallb (fun j =>
                implb (String.eqb (pad2 (Z.of_nat i)) (pad2 (Z.of_nat j))) (Nat.eqb i j))
                (seq 0 60)) (seq 0 60) = true) by (vm_compute; reflexivity).
  rewrite forallb_forall in T.
  specialize (T (Z.to_nat a)). rewrite forallb_forall in T.
  assert (Ia : In (Z.to_nat a) (seq 0 60)) by (apply in_seq; lia).
  assert (Ib : In (Z.to_nat b) (seq 0 60)) by (apply in_seq; lia).
  specialize (T Ia (Z.to_nat b) Ib).
  rewrite !Z2Nat.id in T by lia. rewrite E, String.eqb_refl in T. simpl in T.
  apply Nat.eqb_eq in T. lia.
Qed.

(** X4. Two non-negative offsets are printed as the same timestamp only
    when they lie in the same second: the timestamp determines the whole
    seconds, whether or not the hours are shown. *)
Theorem timestamp_determines_seconds (a b : Z) :
  (0 <= a)%Z -> (0 <= b)%Z ->
  format_timestamp a = format_timestamp b ->
  (a / 1000 = b / 1000)%Z.
Proof.
  intros Ha Hb. unfold format_timestamp.
  set (ta := (a / 1000)%Z). set (tb := (b / 1000)%Z).
  assert (Hta : (0 <= ta)%Z) by (apply Z.div_pos; lia).
  assert (Htb : (0 <= tb)%Z) by (apply Z.div_pos; lia).
  assert (Ma : (0 <= ta mod 3600 / 60 < 60)%Z).
  { pose proof (Z.mod_pos_bound ta 3600 ltac:(lia)).
    split; [apply Z.div_pos; lia | apply Z.div_lt_upper_bound; lia]. }
  assert (Mb : (0 <= tb mod 3600 / 60 < 60)%Z).
  { pose proof (Z.mod_pos_bound tb 3600 ltac:(lia)).
    split; [apply Z.div_pos; lia | apply Z.div_lt_upper_bound; lia]. }
  pose proof (Z.mod_pos_bound ta 60 ltac:(lia)) as Sa.
  pose proof (Z.mod_pos_bound tb 60 ltac:(lia)) as Sb.
  assert (Da : (ta = 3600 * (ta / 3600) + 60 * (ta mod 3600 / 60) + ta mod 60)%Z).
  { clear. Z.div_mod_to_equations. lia. }
  assert (Db : (tb = 3600 * (tb / 3600) + 60 * (tb mod 3600 / 60) + tb mod 60)%Z).
  { clear. Z.div_mod_to_equations. lia. }
  assert (Pa : (0 <= ta / 3600)%Z) by (apply Z.div_pos; lia).
  assert (Pb : (0 <= tb / 3600)%Z) by (apply Z.div_pos; lia).
  destruct (Z.ltb 0 (ta / 3600)) eqn:Ea; destruct (Z.ltb 0 (tb / 3600)) eqn:Eb;
    cbn [String.append]; intros E.
  - apply colon_splits in E as [Eh E]; try apply str_of_int_no_colon.
    apply colon_splits in E as [Em Es]; try apply pad2_no_colon.
    apply str_of_int_inj in Eh. apply pad2_inj in Em; [|assumption..].
    apply pad2_inj in Es; [|assumption..]. lia.
  - apply colon_splits in E as [_ E]; try apply str_of_int_no_colon.
    apply (f_equal (Str.all not_colon)) in E.
    rewrite colon_inside, pad2_no_colon in E. discriminate E.
  - apply colon_splits in E as [_ E]; try apply str_of_int_no_colon.
    apply (f_equal (Str.all not_colon)) in E.
    rewrite colon_inside, pad2_no_colon in E. discriminate E.
  - apply colon_splits in E as [Em Es]; try apply str_of_int_no_colon.
    apply str_of_int_inj in Em. apply pad2_inj in Es; [|assumption..].
    apply Z.ltb_ge in Ea, Eb. lia.
Qed.

Lemma timestamp_determines_seconds_witness :
  format_timestamp 3661000 = format_timestamp 3661999 /\
  (3661000 / 1000 = 3661999 / 1000)%Z.
Proof.
  split; [reflexivity|].
  apply (timestamp_determines_seconds 3661000 3661999); [lia | lia | reflexivity].
Defined.

(** X5. A negative offset is printed without a sign and without hours:
    its timestamp is that of the offset counted from the hour before,
    so [-1] is printed like 59 minutes 59 seconds. *)
Theorem negative_timestamp_wraps (ms : Z) :
  (ms < 0)%Z ->
  format_timestamp ms = format_timestamp (1000 * ((ms / 1000) mod 3600)) /\
  format_timestamp ms
  = (str_of_int ((ms / 1000) mod 3600 / 60) ++ ":" ++ pad2 ((ms / 1000) mod 60))%string.
Proof.
  intros Hneg. unfold format_timestamp.
  set (t := (ms / 1000)%Z).
  assert (Ht : (t < 0)%Z) by (apply Z.div_lt_upper_bound; lia).
  assert (Hh : Z.ltb 0 (t / 3600) = false).
  { apply Z.ltb_ge. pose proof (Z.div_lt_upper_bound t 3600 0 ltac:(lia) ltac:(lia)). lia. }
  rewrite Hh.
  replace (1000 * (t mod 3600) / 1000)%Z with (t mod 3600)%Z
    by (rewrite Z.mul_comm, Z.div_mul; lia).
  pose proof (Z.mod_pos_bound t 3600 ltac:(lia)) as Hr.
  rewrite (Z.div_small (t mod 3600) 3600) by lia.
  change (Z.ltb 0 0) with false. cbv iota.
  rewrite Z.mod_mod by lia.
  rewrite (Z.mod_mod_divide t 3600 60) by (exists 60%Z; reflexivity).
  split; reflexivity.
Qed.

Lemma negative_timestamp_wraps_witness :
  (-1 < 0)%Z /\ format_timestamp (-1) = format_timestamp 3599000.
Proof.
  split; [lia|]. exact (proj1 (negative_timestamp_wraps (-1) ltac:(lia))).
Defined.

(** *** The values scraped by patterns *)

Lemma startswith_split (a b s : string) :
  Str.startswith (a ++ b) s = true ->
  Str.startswith a s = true /\ Str.startswith b (Str.drop (String.length a) s) = true.
Proof.
  revert s. induction a as [|c a IH]; intros s E; simpl in *; [auto|].
  destruct s as [|d s]; [discriminate|].
  apply andb_true_iff in E as [-> E]. simpl. apply IH, E.
Qed.

Lemma find_none_nowhere (sub s : string) (k : nat) :
  Str.find sub s = None -> Str.startswith sub (Str.drop k s) = false.
Proof.
  intros E. apply (find_none_drop _ _ k) in E.
  destruct (Str.startswith sub (Str.drop k s)) eqn:F; [|reflexivity].
  destruct (Str.drop k s); cbn [Str.find] in E; rewrite F in E; discriminate E.
Qed.

Lemma nowhere_find_none (sub s : string) :
  (forall k, Str.startswith sub (Str.drop k s) = false) -> Str.find sub s = None.
Proof.
  induction s as [|c s IH]; intros E; pose proof (E 0) as E0;
    cbn [Str.drop] in E0; cbn [Str.find]; rewrite E0; [reflexivity|].
  rewrite IH; [reflexivity|]. intros k. apply (E (S k)).
Qed.

(** A text that does not occur is not the middle of a text that does. *)
Lemma find_none_inside (a b c s : string) :
  Str.find b s = None -> Str.find (a ++ b ++ c) s = None.
Proof.
  intros E. apply nowhere_find_none. intros k.
  destruct (Str.startswith (a ++ b ++ c) (Str.drop k s)) eqn:F; [|reflexivity].
  apply startswith_split in F as [_ F]. apply startswith_split in F as [F _].
  rewrite drop_drop, (find_none_nowhere _ _ _ E) in F. discriminate F.
Qed.

Lemma search_capture_absent (prefix : string) stop (closing s : string) :
  Str.find prefix s = None -> search_capture prefix stop closing s = None.
Proof.
  induction s as [|c s IH]; intros E; cbn [Str.find] in E.
  - destruct (Str.startswith prefix "") eqn:F; [discriminate|].
    cbn [search_capture]. unfold capture_at. rewrite F. reflexivity.
  - destruct (Str.startswith prefix (String c s)) eqn:F; [discriminate|].
    cbn [search_capture]. unfold capture_at. rewrite F. apply IH.
    destruct (Str.find prefix s); [discriminate | reflexivity].
Qed.

Lemma search_capture_first (prefix : string) stop (closing s : string) (i : nat) (v : string) :
  Str.find prefix s = Some i ->
  capture_at prefix stop closing (Str.drop i s) = Some v ->
  search_capture prefix stop closing s = Some v.
Proof.
  revert i. induction s as [|c s IH]; intros i E C.
  - destruct i; cbn [Str.drop] in C; cbn [search_capture]; rewrite C; reflexivity.
  - cbn [Str.find] in E. destruct (Str.startswith prefix (String c s)) eqn:F.
    + injection E as <-. cbn [Str.drop] in C. cbn [search_capture]. rewrite C. reflexivity.
    + destruct (Str.find prefix s) as [j|] eqn:G; [|discriminate].
      injection E as <-. cbn [Str.drop] in C. cbn [search_capture].
      unfold capture_at at 1. rewrite F. apply (IH j); [reflexivity | exact C].
Qed.

Lemma take_until_stop (stop : ascii -> bool) (v : string) (c : ascii) (r : string) :
  Str.all (fun x => negb (stop x)) v = true -> stop c = true ->
  take_until stop (v ++ String c r) = (v, String c r).
Proof.
  intros Hv Hc. induction v as [|a v IH]; simpl in *.
  - rewrite Hc. reflexivity.
  - apply andb_true_iff in Hv as [Ha Hv]. apply negb_true_iff in Ha.
    rewrite Ha, (IH Hv). reflexivity.
Qed.

Lemma startswith_self (p s : string) : Str.startswith p (p ++ s) = true.
Proof.
  induction p as [|c p IH]; simpl; [reflexivity|].
  rewrite Ascii.eqb_refl. exact IH.
Qed.

Lemma capture_at_here (prefix : string) stop (v : string) (c : ascii) (cl rest : string) :
  v <> "" -> Str.all (fun x => negb (stop x)) v = true -> stop c = true ->
  capture_at prefix stop (String c cl) (prefix ++ v ++ String c (cl ++ rest)) = Some v.
Proof.
  intros Hne Hv Hc. unfold capture_at.
  rewrite startswith_self, drop_append, (take_until_stop _ _ _ _ Hv Hc).
  destruct v as [|a v]; [contradiction|].
  cbn [String.eqb negb andb Str.startswith]. rewrite Ascii.eqb_refl, startswith_self.
  reflexivity.
Qed.

(** X6. On a page in which the first occurrence of the key's label (in
    plain quotes, or when that form is absent in quotes behind
    backslashes) is followed by a non-empty value up to the closing
    quote, the API key is that value with the white space at its ends
    removed. *)
Theorem api_key_extracted (html before key rest : string) :
  key <> "" ->
  (html = (before ++ api_key_prefix ++ key ++ String dquote rest)%string /\
   Str.find api_key_prefix html = Some (String.length before) /\
   Str.all not_dquote key = true)
  \/
  (html = (before ++ api_key_prefix_escaped ++ key ++ String "\" (String dquote rest))%string /\
   Str.find api_key_prefix html = None /\
   Str.find api_key_prefix_escaped html = Some (String.length before) /\
   Str.all not_dquote_or_backslash key = true) ->
  extract_innertube_api_key html = Some (Str.strip key).
Proof.
  intros Hne [(-> & Hf & Hk) | (-> & Hn & Hf & Hk)]; unfold extract_innertube_api_key.
  - rewrite (search_capture_first _ _ _ _ _ key Hf); [reflexivity|].
    rewrite drop_append.
    apply (capture_at_here api_key_prefix is_dquote key dquote "" rest Hne Hk).
    reflexivity.
  - rewrite (search_capture_absent _ _ _ _ Hn).
    rewrite (search_capture_first _ _ _ _ _ key Hf); [reflexivity|].
    rewrite drop_append.
    apply (capture_at_here api_key_prefix_escaped is_dquote_or_backslash key "\"
             (String dquote "") rest Hne Hk).
    reflexivity.
Qed.

Lemma api_key_extracted_witness :
  extract_innertube_api_key
    ("ytcfg.set({" ++ api_key_prefix ++ " AIza_1 " ++ String dquote "});")
  = Some "AIza_1" /\
  extract_innertube_api_key
    ("var c = '{\" ++ api_key_prefix_escaped ++ "AIza_2" ++ String "\" (String dquote "}';"))
  = Some "AIza_2".
Proof.
  split.
  - apply (api_key_extracted _ "ytcfg.set({" " AIza_1 " "});"); [discriminate|].
    left. split; [reflexivity|]. split; reflexivity.
  - apply (api_key_extracted _ "var c = '{\" "AIza_2" "}';"); [discriminate|].
    right. split; [reflexivity|]. split; [reflexivity|]. split; reflexivity.
Defined.

Lemma api_key_absent (html : string) :
  Str.contains "INNERTUBE_API_KEY" html = false ->
  extract_innertube_api_key html = None.
Proof.
  unfold Str.contains, extract_innertube_api_key. intros E.
  destruct (Str.find "INNERTUBE_API_KEY" html) eqn:F; [discriminate|].
  rewrite (search_capture_absent api_key_prefix).
  - rewrite (search_capture_absent api_key_prefix_escaped); [reflexivity|].
    apply (find_none_inside "" "INNERTUBE_API_KEY" (String "\" (Str.lit "`:\`")) html F).
  - apply (find_none_inside (Str.lit "`") "INNERTUBE_API_KEY" (Str.lit "`:`") html F).
Qed.

Lemma transcript_params_absent (html : string) :
  Str.contains "getTranscriptEndpoint" html = false ->
  extract_transcript_params html = None.
Proof.
  unfold Str.contains, extract_transcript_params. intros E.
  destruct (Str.find "getTranscriptEndpoint" html) eqn:F; [discriminate|].
  apply search_capture_absent.
  apply (find_none_inside (Str.lit "`") "getTranscriptEndpoint"
           (Str.lit "`:{`params`:`") html F).
Qed.

(** X7. The parameters of the transcript endpoint are the value that
    follows the first occurrence of the endpoint's label, up to the
    closing quote and brace, taken as it stands. *)
Theorem transcript_params_extracted (before value rest : string) :
  Str.find transcript_params_prefix
    (before ++ transcript_params_prefix ++ value ++ String dquote (String "}" rest))
  = Some (String.length before) ->
  value <> "" ->
  Str.all not_dquote value = true ->
  extract_transcript_params
    (before ++ transcript_params_prefix ++ value ++ String dquote (String "}" rest))
  = Some value.
Proof.
  unfold extract_transcript_params. intros Hf Hne Hv.
  apply (search_capture_first _ _ _ _ _ value Hf).
  rewrite drop_append.
  apply (capture_at_here transcript_params_prefix is_dquote value dquote "}" rest Hne Hv).
  reflexivity.
Qed.

Lemma transcript_params_extracted_witness :
  extract_transcript_params
    ("{" ++ transcript_params_prefix ++ "CgtkUXc0dzlXZ1hjURIS"
         ++ String dquote (String "}" "}"))
  = Some "CgtkUXc0dzlXZ1hjURIS".
Proof.
  apply (transcript_params_extracted "{" "CgtkUXc0dzlXZ1hjURIS" "}");
    [reflexivity | discriminate | reflexivity].
Defined.

(** *** The bootstrap configuration *)

Lemma find_some_startswith (sub s : string) (i : nat) :
  Str.find sub s = Some i -> Str.startswith sub (Str.drop i s) = true.
Proof.
  revert i. induction s as [|c s IH]; intros i; cbn [Str.find].
  - destruct (Str.startswith sub "") eqn:F; [|discriminate].
    intros E. injection E as <-. exact F.
  - destruct (Str.startswith sub (String c s)) eqn:F.
    + intros E. injection E as <-. exact F.
    + destruct (Str.find sub s) as [j|]; [|discriminate].
      intros E. injection E as <-. apply (IH j eq_refl).
Qed.

Lemma drop_nonempty (k : nat) (s : string) :
  Str.drop k s <> "" -> k < String.length s.
Proof.
  revert s. induction k as [|k IH]; intros [|c s] H; simpl in *;
    try contradiction; try lia.
  apply IH in H. lia.
Qed.

(** Looking again from the brace that was found finds the same brace. *)
Lemma find_from_found (s : string) (a b : nat) :
  Str.find_from "{" s a = Some b -> Str.find_from "{" s b = Some b.
Proof.
  unfold Str.find_from. destruct (Nat.leb a (String.length s)) eqn:La; [|discriminate].
  destruct (Str.find "{" (Str.drop a s)) as [j|] eqn:F; [|discriminate].
  cbn [option_map]. intros E. injection E as <-.
  apply find_some_startswith in F. rewrite drop_drop in F.
  assert (Hlt : a + j < String.length s).
  { apply drop_nonempty. intros N. rewrite N in F. discriminate F. }
  assert (Lb : Nat.leb (a + j) (String.length s) = true) by (apply Nat.leb_le; lia).
  rewrite Lb. destruct (Str.drop (a + j) s) as [|c t]; [discriminate F|].
  cbn [Str.find]. rewrite F. cbn [option_map]. f_equal. lia.
Qed.

Lemma extract_balanced_json_again (s : string) (a b : nat) :
  Str.find_from "{" s a = Some b ->
  extract_balanced_json s b = extract_balanced_json s a.
Proof.
  intros E. unfold extract_balanced_json. rewrite E, (find_from_found _ _ _ E).
  reflexivity.
Qed.

(** X8. When the scan from the start of the match of [ytcfg.set(] finds no
    balanced object, the configuration is [None]: the second scan, from
    the next opening brace, starts at the brace the first scan started
    at, and finds nothing either. *)
Theorem bootstrap_retry_finds_nothing `{Library} (html : string) (start : nat) :
  find_ytcfg html = Some start ->
  extract_balanced_json html start = None ->
  extract_bootstrap_config html = Ret None.
Proof.
  intros Hm Hn. unfold extract_bootstrap_config. rewrite Hm, Hn.
  destruct (Str.find_from "{" html start) as [b|] eqn:E; [|reflexivity].
  rewrite (extract_balanced_json_again _ _ _ E), Hn. reflexivity.
Qed.

Lemma bootstrap_retry_finds_nothing_witness :
  @extract_bootstrap_config Ref.library (Str.lit "ytcfg.set({`a`:{`b`:1}") = Ret None.
Proof.
  apply (bootstrap_retry_finds_nothing _ 0); reflexivity.
Defined.

Lemma scan_object (inner suffix : string) (n : nat) :
  balanced inner ->
  scan (String "{" (inner ++ String "}" suffix)) n 0 false false
  = Some (n + String.length inner + 1).
Proof.
  intros Hb. cbn [scan]. change (is_quote "{") with false. rewrite Ascii.eqb_refl.
  rewrite (scan_balanced inner Hb (String "}" suffix) _ 1%Z ltac:(lia)).
  cbn [scan]. change (is_quote "}") with false.
  change (Ascii.eqb "}" "{") with false. rewrite Ascii.eqb_refl.
  change (Z.eqb (1 - 1) 0) with true. cbv iota. f_equal. lia.
Qed.

Lemma take_whole (s : string) : Str.take (String.length s) s = s.
Proof. induction s as [|c s IH]; simpl; [reflexivity | rewrite IH; reflexivity]. Qed.

(** The object behind a text without braces, from anywhere in that text. *)
Lemma object_behind (skipped pre inner suffix : string) :
  Str.contains "{" pre = false ->
  balanced inner ->
  extract_balanced_json
    (skipped ++ pre ++ String "{" (inner ++ String "}" suffix))
    (String.length skipped)
  = Some (String "{" (inner ++ "}")).
Proof.
  intros Hpre Hb. unfold extract_balanced_json, Str.find_from.
  rewrite append_length.
  replace (Nat.leb (String.length skipped)
             (String.length skipped
              + String.length (pre ++ String "{" (inner ++ String "}" suffix))))
    with true by (symmetry; apply Nat.leb_le; lia).
  rewrite drop_append, (find_brace_after _ _ Hpre). cbn [option_map].
  rewrite <- append_length, <- append_assoc, drop_append, (scan_object _ _ _ Hb).
  unfold Str.slice. rewrite drop_append.
  replace (String.length (skipped ++ pre) + String.length inner + 1 + 1
           - String.length (skipped ++ pre))
    with (String.length (String "{" (inner ++ "}")))
    by (cbn [String.length]; rewrite append_length; cbn [String.length]; lia).
  replace (String "{" (inner ++ String "}" suffix))
    with ((String "{" (inner ++ "}")) ++ suffix)%string
    by (cbn [String.append]; rewrite append_assoc; reflexivity).
  rewrite take_append. reflexivity.
Qed.

Lemma all_append (p : ascii -> bool) (a b : string) :
  Str.all p (a ++ b) = Str.all p a && Str.all p b.
Proof.
  induction a as [|c a IH]; simpl; [reflexivity|]. rewrite IH. apply andb_assoc.
Qed.

Lemma all_weaken (p q : ascii -> bool) (s : string) :
  (forall c, p c = true -> q c = true) -> Str.all p s = true -> Str.all q s = true.
Proof.
  intros Hpq. induction s as [|c s IH]; simpl; [reflexivity|].
  intros E. apply andb_true_iff in E as [Hc Hs].
  rewrite (Hpq c Hc), (IH Hs). reflexivity.
Qed.

Lemma no_char_not_contained (x : ascii) (s : string) :
  Str.all (fun c => negb (Ascii.eqb x c)) s = true ->
  Str.contains (String x "") s = false.
Proof.
  unfold Str.contains. induction s as [|c s IH]; [reflexivity|].
  cbn [Str.all Str.find Str.startswith]. intros E.
  apply andb_true_iff in E as [Hc Hs]. apply negb_true_iff in Hc.
  rewrite Hc. cbn [andb]. specialize (IH Hs).
  destruct (Str.find (String x "") s); [discriminate IH | reflexivity].
Qed.

Lemma lstrip_all (p : ascii -> bool) (ws : string) (c : ascii) (r : string) :
  Str.all p ws = true -> p c = false ->
  Str.lstrip_by p (ws ++ String c r) = String c r.
Proof.
  intros Hws Hc. induction ws as [|a ws IH]; simpl in *.
  - rewrite Hc. reflexivity.
  - apply andb_true_iff in Hws as [Ha Hws]. rewrite Ha. apply IH, Hws.
Qed.

Lemma find_ytcfg_first (s : string) (i : nat) :
  Str.find "ytcfg.set" s = Some i -> ytcfg_at (Str.drop i s) = true ->
  find_ytcfg s = Some i.
Proof.
  revert i. induction s as [|c s IH]; intros i; cbn [Str.find].
  - destruct (Str.startswith "ytcfg.set" ""); [|discriminate].
    intros E. injection E as <-. cbn [Str.drop find_ytcfg]. intros ->. reflexivity.
  - destruct (Str.startswith "ytcfg.set" (String c s)) eqn:F.
    + intros E. injection E as <-. cbn [Str.drop find_ytcfg]. intros ->. reflexivity.
    + destruct (Str.find "ytcfg.set" s) as [j|]; [|discriminate].
      intros E. injection E as <-. cbn [Str.drop find_ytcfg]. intros Hy.
      unfold ytcfg_at at 1. rewrite F. rewrite (IH j eq_refl Hy). reflexivity.
Qed.

(** X9. On a page in which the first occurrence of [ytcfg.set] is a call
    with an object whose inside is balanced (white space allowed around
    the parenthesis), the configuration is that object decoded: [None]
    when the decoder rejects it as invalid JSON, while any other
    exception of the decoder leaves the function. *)
Theorem bootstrap_config_located `{Library}
    (html before ws1 ws2 inner rest : string) :
  html = (before ++ "ytcfg.set" ++ ws1
            ++ String "(" (ws2 ++ String "{" (inner ++ String "}" rest)))%string ->
  Str.find "ytcfg.set" html = Some (String.length before) ->
  Str.all Str.isspace ws1 = true ->
  Str.all Str.isspace ws2 = true ->
  balanced inner ->
  extract_bootstrap_config html
  = match json_loads (String "{" (inner ++ "}")) with
    | Ret v => Ret (Some v)
    | Raise JSONDecodeError => Ret None
    | Raise e => Raise e
    end.
Proof.
  intros -> Hf H1 H2 Hb. unfold extract_bootstrap_config.
  rewrite (find_ytcfg_first _ _ Hf).
  - assert (Hpre : Str.contains "{" ("ytcfg.set" ++ ws1 ++ String "(" ws2) = false).
    { apply no_char_not_contained.
      assert (S : forall ws, Str.all Str.isspace ws = true ->
                  Str.all (fun c => negb (Ascii.eqb "{" c)) ws = true).
      { intros ws. apply all_weaken. intros c Hc.
        destruct (Ascii.eqb_spec "{" c) as [<-|]; [discriminate Hc | reflexivity]. }
      rewrite !all_append. cbn [Str.all]. rewrite (S _ H1), (S _ H2). reflexivity. }
    pose proof (object_behind before _ inner rest Hpre Hb) as E.
    rewrite !append_assoc in E. cbn [String.append] in E.
    cbn [String.append]. rewrite E. reflexivity.
  - rewrite drop_append. unfold ytcfg_at. rewrite startswith_self.
    change 9 with (String.length "ytcfg.set"). rewrite drop_append.
    rewrite (lstrip_all Str.isspace ws1 "(" _ H1 eq_refl).
    rewrite (lstrip_all Str.isspace ws2 "{" _ H2 eq_refl). reflexivity.
Qed.

Lemma bootstrap_config_located_witness :
  @extract_bootstrap_config Ref.library
    ("<script>" ++ "ytcfg.set" ++ " " ++ String "(" ("" ++ String "{" (Sample.inner ++ String "}" ");")))
  = match @json_loads Ref.library (String "{" (Sample.inner ++ "}")) with
    | Ret v => Ret (Some v)
    | Raise JSONDecodeError => Ret None
    | Raise e => Raise e
    end.
Proof.
  apply (bootstrap_config_located _ "<script>" " " "" Sample.inner ");");
    try reflexivity.
  apply (balanced_string dquote dquote "k" (Str.lit ":`}\`{`")); try reflexivity.
  - apply body_char; try reflexivity. apply body_end.
  - apply balanced_char; try reflexivity.
    apply (balanced_string dquote dquote (Str.lit "}\`{") ""); try reflexivity;
      [|apply balanced_end].
    apply body_char; try reflexivity.
    apply (body_escape dquote). apply body_char; try reflexivity. apply body_end.
Defined.

(** *** Requests that post JSON *)

Lemma take_until_rest (stop : ascii -> bool) (v : string) (c : ascii) (r : string) :
  Str.all (fun x => negb (stop x)) v = true -> stop c = true ->
  snd (take_until stop (v ++ String c r)) = String c r.
Proof.
  intros Hv Hc. rewrite (take_until_stop _ _ _ _ Hv Hc). reflexivity.
Qed.

Lemma strip_xssi_guard (junk body : string) :
  Str.all (fun c => negb (is_newline c)) junk = true ->
  strip_xssi (")]}'" ++ junk ++ String newline body) = body.
Proof.
  intros Hj. unfold strip_xssi. rewrite startswith_self.
  change 4 with (String.length ")]}'"). rewrite drop_append.
  rewrite (take_until_rest is_newline junk newline body Hj eq_refl). reflexivity.
Qed.

(** X10. An answer that begins with the guard line (the four guard
    characters and anything up to the end of the line) is decoded as if
    the host had sent only what follows that line; what the decoder
    rejects, for whatever reason, gives [None]. The request is the one
    entry added to the log. *)
Theorem fetch_json_drops_guard `{Library} (json_dumps : json -> string) (www : web)
    (url : string) (payload : json) (extra_headers : list (string * json))
    (log : list request) (junk body : string) :
  Str.all (fun c => negb (is_newline c)) junk = true ->
  (forall req, req_url req = url ->
     www log req = Ret (")]}'" ++ junk ++ String newline body)%string) ->
  exists req,
    req_url req = url /\
    fetch_json json_dumps www url payload extra_headers log
    = (match json_loads body with Ret v => Some v | Raise _ => None end,
       log ++ [req]).
Proof.
  intros Hj Hw. unfold fetch_json. eexists (Build_request url _ _).
  split; [reflexivity|].
  rewrite Hw by reflexivity. rewrite (strip_xssi_guard _ _ Hj). reflexivity.
Qed.

Lemma fetch_json_drops_guard_witness :
  exists req,
    req_url req = "https://host.example/api" /\
    @fetch_json Ref.library (fun _ => "{}")
      (fun _ _ => Ret (")]}'" ++ " guard" ++ String newline (Str.lit "{`a`:1}"))%string)
      "https://host.example/api" (JObj []) [] []
    = (match @json_loads Ref.library (Str.lit "{`a`:1}") with
       | Ret v => Some v
       | Raise _ => None
       end, [] ++ [req]).
Proof.
  apply (@fetch_json_drops_guard Ref.library _ _ _ _ _ _ " guard" (Str.lit "{`a`:1}"));
    [reflexivity|].
  intros req _. reflexivity.
Defined.

(** *** The requests of one download *)

(** X11. One download of a caption track makes one or two requests and no
    more, whatever the network answers: the log it returns is the log it
    was given followed by the address of the compact format alone, by
    the fallback address alone (when the address of the track cannot be
    parsed), or by both in this order. *)
Theorem download_request_bound `{Library} (net : network) (base_url : string)
    (log : list string) :
  exists added,
    snd (download_caption_track net base_url log) = log ++ added /\
    1 <= length added <= 2 /\
    (added = [xml_url base_url] \/
     exists p, urlparse base_url = Ret p /\
               (added = [json3_url p] \/ added = [json3_url p; xml_url base_url])).
Proof.
  unfold download_caption_track, json3_attempt, xml_attempt, fetch_url.
  destruct (urlparse base_url) as [p|e].
  - destruct (t <- net log (json3_url p) ;; parse_json3_transcript t) as [r|e].
    + destruct (has_segments r) eqn:Hr.
      * destruct r as [r|]; [|discriminate Hr].
        exists [json3_url p]. cbn. split; [reflexivity|]. split; [lia|]. eauto.
      * exists [json3_url p; xml_url base_url]. cbn [snd].
        rewrite <- app_assoc. split; [reflexivity|]. cbn. split; [lia|]. eauto.
    + exists [json3_url p; xml_url base_url]. cbn [snd].
      rewrite <- app_assoc. split; [reflexivity|]. cbn. split; [lia|]. eauto.
  - exists [xml_url base_url]. cbn. split; [reflexivity|]. split; [lia|]. auto.
Qed.

(** *** The text of a segment *)

Lemma single_spaced_collapse (b : bool) (s : string) :
  single_spaced b (Str.collapse_ws_aux b s) = true.
Proof.
  revert b. induction s as [|c s IH]; intros b; cbn [Str.collapse_ws_aux]; [reflexivity|].
  destruct (Str.isspace c) eqn:E.
  - destruct b; [apply IH|]. cbn [single_spaced]. apply IH.
  - cbn [single_spaced]. rewrite E. apply IH.
Qed.

Lemma single_spaced_lstrip (b : bool) (s : string) :
  single_spaced b s = true -> single_spaced true (Str.lstrip_by Str.isspace s) = true.
Proof.
  revert b. induction s as [|c s IH]; intros b; cbn [single_spaced Str.lstrip_by]; [auto|].
  destruct (Str.isspace c) eqn:E.
  - intros H. apply andb_true_iff in H as [_ H]. apply (IH true H).
  - intros H. cbn [single_spaced]. rewrite E. exact H.
Qed.

Lemma tidy_rstrip (b : bool) (s : string) :
  single_spaced b s = true -> Str.rstrip_by Str.isspace s <> "" ->
  tidy_from b (Str.rstrip_by Str.isspace s) = true.
Proof.
  revert b. induction s as [|c s IH]; intros b; cbn [single_spaced Str.rstrip_by].
  - intros _ N. contradiction.
  - destruct (Str.rstrip_by Str.isspace s) as [|d r] eqn:R.
    + destruct (Str.isspace c) eqn:E; [intros _ N; contradiction|].
      intros _ _. cbn [tidy_from]. rewrite E. reflexivity.
    + intros H _. cbn [tidy_from]. destruct (Str.isspace c) eqn:E.
      * apply andb_true_iff in H as [Hc H]. rewrite Hc. cbn [andb].
        apply (IH true H). discriminate.
      * apply (IH false H). discriminate.
Qed.

(** a text collapsed and then stripped *)
Lemma tidy_strip_collapse (x : string) :
  Str.strip (Str.collapse_ws x) <> "" -> tidy (Str.strip (Str.collapse_ws x)) = true.
Proof.
  unfold Str.strip, Str.strip_by, Str.collapse_ws, tidy. intros N.
  apply tidy_rstrip; [|exact N].
  apply (single_spaced_lstrip false), single_spaced_collapse.
Qed.

Lemma rstrip_fixed (p : ascii -> bool) (s : string) :
  Str.rstrip_by p (Str.rstrip_by p s) = Str.rstrip_by p s.
Proof.
  induction s as [|c s IH]; cbn [Str.rstrip_by]; [reflexivity|].
  destruct (Str.rstrip_by p s) as [|d r] eqn:R.
  - destruct (p c) eqn:E; [reflexivity|]. cbn [Str.rstrip_by]. rewrite E. reflexivity.
  - cbn [Str.rstrip_by] in *. rewrite IH. reflexivity.
Qed.

Lemma tidy_collapse_stripped (b : bool) (z : string) :
  Str.rstrip_by Str.isspace z = z -> z <> "" ->
  tidy_from b (Str.collapse_ws_aux b z) = true.
Proof.
  revert b. induction z as [|c z IH]; intros b; [intros _ N; contradiction|].
  cbn [Str.rstrip_by Str.collapse_ws_aux]. intros R _.
  destruct (Str.rstrip_by Str.isspace z) as [|d r] eqn:Rz.
  - destruct (Str.isspace c) eqn:E; [discriminate R|].
    injection R as <-. cbn [Str.collapse_ws_aux tidy_from]. rewrite E. reflexivity.
  - injection R as R. destruct (Str.isspace c) eqn:E.
    + destruct b; [apply IH; [exact R | rewrite <- R; discriminate]|].
      cbn [tidy_from]. change (Str.isspace " ") with true.
      change (Ascii.eqb " " " ") with true. cbn [andb negb]. apply IH; [exact R | rewrite <- R; discriminate].
    + cbn [tidy_from]. rewrite E. apply IH; [exact R | rewrite <- R; discriminate].
Qed.

Lemma lstrip_head (p : ascii -> bool) (s : string) (c : ascii) (r : string) :
  Str.lstrip_by p s = String c r -> p c = false.
Proof.
  induction s as [|a s IH]; cbn [Str.lstrip_by]; [discriminate|].
  destruct (p a) eqn:E; [exact IH|]. intros F. injection F as <- _. exact E.
Qed.

Lemma rstrip_keeps_head (p : ascii -> bool) (c : ascii) (s : string) (d : ascii) (r : string) :
  Str.rstrip_by p (String c s) = String d r -> d = c.
Proof.
  cbn [Str.rstrip_by]. destruct (Str.rstrip_by p s); [destruct (p c)|];
    intros F; try discriminate F; injection F as <- _; reflexivity.
Qed.

(** a text stripped and then collapsed *)
Lemma tidy_collapse_strip (y : string) :
  Str.collapse_ws (Str.strip y) <> "" -> tidy (Str.collapse_ws (Str.strip y)) = true.
Proof.
  unfold tidy, Str.collapse_ws. intros N.
  assert (Hz : Str.strip y <> "") by (intros Z; rewrite Z in N; apply N; reflexivity).
  assert (R : Str.rstrip_by Str.isspace (Str.strip y) = Str.strip y)
    by apply rstrip_fixed.
  pose proof (tidy_collapse_stripped false _ R Hz) as T.
  unfold Str.strip, Str.strip_by in *.
  destruct (Str.lstrip_by Str.isspace y) as [|c s] eqn:L; [contradiction Hz; reflexivity|].
  apply lstrip_head in L.
  destruct (Str.rstrip_by Str.isspace (String c s)) as [|d r] eqn:Rs; [contradiction Hz; reflexivity|].
  apply rstrip_keeps_head in Rs. subst d.
  cbn [Str.collapse_ws_aux tidy_from] in *. rewrite L in *.
  cbn [tidy_from] in *. rewrite L in *. exact T.
Qed.

Lemma json3_event_text (event : json) (s : segment) :
  json3_event event = Ret (Some s) -> exists x, text s = Str.strip (Str.collapse_ws x).
Proof.
  unfold json3_event. intros H. inv_bind H. ret_inv H.
  match goal with E : json3_segment _ _ _ = Ret _ |- _ =>
    apply json3_segment_shape in E as [Ht _] end.
  eexists. exact Ht.
Qed.

Lemma youtubei_item_text (seg : json) (s : segment) :
  youtubei_item seg = Ret (Some s) -> exists x, text s = Str.strip (Str.collapse_ws x).
Proof.
  unfold youtubei_item. intros H. inv_bind H. ret_inv H.
  match goal with E : youtubei_segment _ _ _ = Ret _ |- _ =>
    apply youtubei_segment_shape in E as [Ht _] end.
  eexists. exact Ht.
Qed.

Lemma xml_segment_text `{Library} (g0 g1 : string) (s : segment) :
  xml_segment g0 g1 = Ret (Some s) -> exists y, text s = Str.collapse_ws (Str.strip y).
Proof.
  unfold xml_segment, try_except. intros H0.
  destruct (String.eqb _ "") eqn:Et; [discriminate|].
  inv_bind H0. all: ret_inv H0; eexists; reflexivity.
Qed.

Lemma json3_events_tidy (events : list json) (segments : list segment) :
  json3_events events = Ret segments ->
  Forall (fun s => tidy (text s) = true) segments.
Proof.
  revert segments. induction events as [|ev rest IH]; simpl; intros segments H.
  - ret_inv H. constructor.
  - inv_bind H; ret_inv H; [constructor|]; try (apply IH; reflexivity).
    match goal with E : json3_event _ = Ret (Some ?s) |- _ =>
      destruct (json3_event_text _ _ E) as [x Hx];
      destruct (json3_event_shape _ _ E) as [Hn _] end.
    rewrite Hx in *. apply tidy_strip_collapse, Hn.
Qed.

Lemma youtubei_items_tidy (segs : list json) (segments : list segment) :
  youtubei_items segs = Ret segments ->
  Forall (fun s => tidy (text s) = true) segments.
Proof.
  revert segments. induction segs as [|seg rest IH]; simpl; intros segments H.
  - ret_inv H. constructor.
  - inv_bind H; ret_inv H; [constructor|]; try (apply IH; reflexivity).
    match goal with E : youtubei_item _ = Ret (Some ?s) |- _ =>
      destruct (youtubei_item_text _ _ E) as [x Hx];
      destruct (youtubei_item_shape _ _ E) as [Hn _] end.
    rewrite Hx in *. apply tidy_strip_collapse, Hn.
Qed.

Lemma xml_segments_tidy `{Library} (matches : list (string * string))
    (segments : list segment) :
  xml_segments matches = Ret segments ->
  Forall (fun s => tidy (text s) = true) segments.
Proof.
  revert segments. induction matches as [|[g0 g1] rest IH]; simpl; intros segments H0.
  - ret_inv H0. constructor.
  - destruct (xml_segment g0 g1) as [o|] eqn:Eo; [|discriminate].
    simpl in H0. destruct (xml_segments rest) as [l|]; [|discriminate].
    simpl in H0. ret_inv H0. destruct o as [s|]; [constructor|]; try (apply IH; reflexivity).
    destruct (xml_segment_text _ _ _ Eo) as [y Hy].
    destruct (xml_segment_shape _ _ _ Eo) as [[Hn _] _].
    rewrite Hy in *. apply tidy_collapse_strip, Hn.
Qed.

Lemma produced_texts_tidy `{Library} (r : option (list segment))
    (segments : list segment) (s : segment) :
  produced r -> r = Some segments -> In s segments -> tidy (text s) = true.
Proof.
  intros Hp -> Hin.
  assert (Hall : exists l, Some segments = nonempty_or_none l /\
                           Forall (fun s => tidy (text s) = true) l).
  { inversion Hp as [raw r' H0 | xml r' H0 | data r' H0]; subst r'.
    - unfold parse_json3_transcript in H0.
      destruct (json_loads raw) as [data|e].
      + unfold parse_json3_data in H0. inv_bind H0. all: ret_inv H0; try discriminate.
        eexists; split; [symmetry; eassumption|].
        eapply json3_events_tidy; eassumption.
      + destruct e; discriminate.
    - unfold parse_xml_transcript in H0. inv_bind H0. all: ret_inv H0; try discriminate.
      eexists; split; [symmetry; eassumption|].
      eapply xml_segments_tidy; eassumption.
    - unfold parse_youtubei_response, try_except in H0.
      destruct (youtubei_body data) as [r0|e] eqn:Eb.
      + ret_inv H0. unfold youtubei_body in Eb. inv_bind Eb.
        all: ret_inv Eb; try discriminate.
        eexists; split; [symmetry; eassumption|].
        eapply youtubei_items_tidy; eassumption.
      + destruct (existsb _ _); discriminate. }
  destruct Hall as (l & E & Hall).
  symmetry in E. apply nonempty_or_none_some in E as [-> _].
  rewrite Forall_forall in Hall. apply Hall, Hin.
Qed.

(** X12. The text of every segment emitted by one of the three producers
    is tidy: it begins and ends with a character that is not white
    space, and the only white space inside it are single spaces; in
    particular it holds no line break and no tab. *)
Theorem emitted_text_tidy `{Library} (r : option (list segment))
    (segments : list segment) (s : segment) :
  produced r -> r = Some segments -> In s segments -> tidy (text s) = true.
Proof. apply produced_texts_tidy. Qed.

Lemma emitted_text_tidy_witness :
  @produced Ref.library
    (Some [{| text := "Hello world"; start_ms := Some 1000%Z; end_ms := Some 1500%Z |}]) /\
  tidy "Hello world" = true.
Proof.
  assert (Hp : @produced Ref.library
                 (Some [{| text := "Hello world"; start_ms := Some 1000%Z;
                           end_ms := Some 1500%Z |}])).
  { apply (@produced_json3 Ref.library Sample.json3). vm_compute. reflexivity. }
  split; [exact Hp|].
  exact (@emitted_text_tidy Ref.library _ _ _ Hp eq_refl (or_introl eq_refl)).
Defined.

(** *** The output *)

Lemma tidy_no_newline (b : bool) (s : string) :
  tidy_from b s = true -> Str.all not_newline s = true.
Proof.
  revert b. induction s as [|c s IH]; intros b; cbn [tidy_from Str.all]; [reflexivity|].
  destruct (Str.isspace c) eqn:E.
  - intros H. apply andb_true_iff in H as [H Hs]. apply andb_true_iff in H as [Hc _].
    apply Ascii.eqb_eq in Hc. subst c. rewrite (IH _ Hs). reflexivity.
  - intros Hs. rewrite (IH _ Hs).
    unfold not_newline. destruct (Ascii.eqb_spec c newline) as [->|]; [discriminate E|].
    reflexivity.
Qed.

Lemma split_whole (c : ascii) (p : string) :
  Str.all (fun x => negb (Ascii.eqb x c)) p = true -> Str.split c p = [p].
Proof.
  induction p as [|a p IH]; cbn [Str.all Str.split]; [reflexivity|].
  intros H. apply andb_true_iff in H as [Ha Hp]. apply negb_true_iff in Ha.
  rewrite Ha, (IH Hp). reflexivity.
Qed.

Lemma split_first (c : ascii) (p rest : string) :
  Str.all (fun x => negb (Ascii.eqb x c)) p = true ->
  Str.split c (p ++ String c rest) = p :: Str.split c rest.
Proof.
  induction p as [|a p IH]; cbn [Str.all Str.split String.append].
  - intros _. rewrite Ascii.eqb_refl. reflexivity.
  - intros H. apply andb_true_iff in H as [Ha Hp]. apply negb_true_iff in Ha.
    rewrite Ha, (IH Hp). reflexivity.
Qed.

(** Lines without a line break, joined by line breaks, split back into
    the same lines. *)
Lemma split_join_lines (lines : list string) :
  lines <> [] ->
  Forall (fun l => Str.all not_newline l = true) lines ->
  Str.split newline (join_with newline lines) = lines.
Proof.
  induction lines as [|l rest IH]; [contradiction|].
  intros _ Hall. inversion Hall as [|? ? Hl Hrest]; subst.
  destruct rest as [|l2 rest].
  - cbn [join_with]. apply split_whole, Hl.
  - change (join_with newline (l :: l2 :: rest))
      with (l ++ String newline (join_with newline (l2 :: rest)))%string.
    rewrite (split_first newline l _ Hl), IH; [reflexivity | discriminate | exact Hrest].
Qed.

Lemma uint_no_newline (u : Decimal.uint) :
  Str.all not_newline (NilEmpty.string_of_uint u) = true.
Proof. induction u; simpl; auto. Qed.

Lemma str_of_int_no_newline (z : Z) : Str.all not_newline (str_of_int z) = true.
Proof.
  unfold str_of_int. destruct (Z.to_int z) as [u|u]; simpl;
    destruct u; try reflexivity; apply (uint_no_newline (_ u)).
Qed.

Lemma format_timestamp_no_newline (ms : Z) :
  Str.all not_newline (format_timestamp ms) = true.
Proof.
  assert (P : forall z, Str.all not_newline (pad2 z) = true).
  { intros z. unfold pad2. destruct (Nat.ltb _ 2); simpl; apply str_of_int_no_newline. }
  unfold format_timestamp. destruct (Z.ltb 0 _);
    rewrite !all_append; cbn [Str.all]; rewrite ?str_of_int_no_newline, ?P; reflexivity.
Qed.

(** X13. What [main] prints for the segments of a producer has one line
    per segment: the texts joined by line breaks split at the line
    breaks into the texts themselves, and so do the lines printed with
    timestamps, in the order of the segments. *)
Theorem output_lines `{Library} (r : option (list segment)) (segments : list segment) :
  produced r -> r = Some segments ->
  Str.split newline (transcript_text segments) = map text segments /\
  Str.split newline (join_with newline (map timestamp_line segments))
  = map timestamp_line segments.
Proof.
  intros Hp E.
  assert (Hne : segments <> []).
  { intros ->. subst r.
    destruct (produced_cases _ Hp) as [F | (l & F & _)]; [discriminate F|].
    destruct l; discriminate F. }
  assert (Ht : Forall (fun s => Str.all not_newline (text s) = true) segments).
  { apply Forall_forall. intros s Hin.
    apply (tidy_no_newline true), (produced_texts_tidy _ _ _ Hp E Hin). }
  split; apply split_join_lines.
  - destruct segments; [contradiction | discriminate].
  - apply Forall_map. exact Ht.
  - destruct segments; [contradiction | discriminate].
  - apply Forall_map. revert Ht. apply Forall_impl. intros s Hs.
    unfold timestamp_line. cbn [String.append Str.all].
    rewrite !all_append. cbn [Str.all]. rewrite Hs.
    destruct (start_ms s); [rewrite format_timestamp_no_newline|]; reflexivity.
Qed.

Lemma output_lines_witness :
  @produced Ref.library
    (Some [{| text := "Hello world"; start_ms := Some 1000%Z; end_ms := Some 1500%Z |};
           {| text := "again"; start_ms := Some 3661000%Z; end_ms := None |}]) /\
  Str.split newline
    (join_with newline
       (map timestamp_line
          [{| text := "Hello world"; start_ms := Some 1000%Z; end_ms := Some 1500%Z |};
           {| text := "again"; start_ms := Some 3661000%Z; end_ms := None |}]))
  = ["[0:01] Hello world"; "[1:01:01] again"].
Proof.
  assert (Hp : @produced Ref.library
    (Some [{| text := "Hello world"; start_ms := Some 1000%Z; end_ms := Some 1500%Z |};
           {| text := "again"; start_ms := Some 3661000%Z; end_ms := None |}])).
  { apply (@produced_json3 Ref.library Sample.json3_two). vm_compute. reflexivity. }
  split; [exact Hp|].
  exact (proj2 (@output_lines Ref.library _ _ Hp eq_refl)).
Defined.

(** *** Identifiers read from the path *)

Lemma split_head_without (c : ascii) (s w : string) (ws : list string) :
  Str.split c s = w :: ws -> Str.all (fun x => negb (Ascii.eqb x c)) w = true.
Proof.
  revert w ws. induction s as [|a s IH]; intros w ws; cbn [Str.split].
  - intros E. injection E as <- _. reflexivity.
  - destruct (Ascii.eqb a c) eqn:Ea.
    + intros E. injection E as <- _. reflexivity.
    + destruct (Str.split c s) as [|v vs] eqn:Es.
      * intros E. injection E as <- _. cbn [Str.all]. rewrite Ea. reflexivity.
      * intros E. injection E as <- _. cbn [Str.all]. rewrite Ea.
        apply (IH v vs eq_refl).
Qed.

Lemma match_prefixes_without_slash (ps : list string) (p id : string) :
  match_prefixes ps p = Some (Some id) -> Str.all not_slash id = true.
Proof.
  induction ps as [|q ps IH]; cbn [match_prefixes]; [discriminate|].
  destruct (Str.startswith q p); [|exact IH].
  destruct (Str.split "/" _) as [|w ws] eqn:Es; [discriminate|].
  intros E. injection E as <-. apply (split_head_without _ _ _ _ Es).
Qed.

(** X14. An identifier that the resolver reads from the path of the URL
    (host [youtu.be], or one of the path prefixes) is not empty on
    [youtu.be] and never holds a slash; only the value of the [v]
    parameter of a [/watch] URL is returned as it stands. *)
Theorem path_identifier_without_slash `{Library} (url : string) (p : parsed_url)
    (id : string) :
  urlparse url = Ret p ->
  extract_video_id url = Ret (Some id) ->
  host_name p = "youtu.be" \/ path p <> "/watch" ->
  Str.all not_slash id = true /\ (host_name p = "youtu.be" -> id <> "").
Proof.
  intros Hp. unfold extract_video_id. rewrite Hp. cbn [bind].
  destruct (String.eqb (host_name p) "youtu.be") eqn:Eh.
  - destruct (Str.split "/" _) as [|w ws] eqn:Es; [discriminate|].
    destruct (String.eqb w "") eqn:Ew; [discriminate|].
    intros E _. injection E as <-. split.
    + apply (split_head_without _ _ _ _ Es).
    + intros _. apply eqb_false_neq, Ew.
  - apply String.eqb_neq in Eh.
    destruct (negb (Str.contains "youtube.com" (host_name p))); [discriminate|].
    intros E [Hh | Hw]; [contradiction|].
    apply String.eqb_neq in Hw. rewrite Hw in E.
    split; [|intros Hh; contradiction].
    destruct (match_prefixes prefixes (path p)) as [[r|]|] eqn:Em; try discriminate.
    injection E as <-. apply (match_prefixes_without_slash _ _ _ Em).
Qed.

Lemma path_identifier_without_slash_witness :
  exists p,
    @urlparse Ref.library "https://youtu.be/dQw4w9WgXcQ/extra?t=1" = Ret p /\
    @extract_video_id Ref.library "https://youtu.be/dQw4w9WgXcQ/extra?t=1"
    = Ret (Some "dQw4w9WgXcQ") /\
    Str.all not_slash "dQw4w9WgXcQ" = true.
Proof.
  eexists. split; [reflexivity|]. split; [reflexivity|].
  refine (proj1 (@path_identifier_without_slash Ref.library
                   "https://youtu.be/dQw4w9WgXcQ/extra?t=1" _ "dQw4w9WgXcQ"
                   eq_refl eq_refl (or_introl eq_refl))).
Defined.

(** *** The strategies that post to the host *)

Lemma find_ytcfg_absent (html : string) :
  Str.find "ytcfg.set" html = None -> find_ytcfg html = None.
Proof.
  induction html as [|c s IH]; cbn [Str.find find_ytcfg]; unfold ytcfg_at at 1.
  - destruct (Str.startswith "ytcfg.set" ""); [discriminate | reflexivity].
  - destruct (Str.startswith "ytcfg.set" (String c s)); [discriminate|].
    destruct (Str.find "ytcfg.set" s); [discriminate|].
    intros _. rewrite (IH eq_refl). reflexivity.
Qed.

Section StrategyProofs.

Context `{Library} {W : Type}.
Variable post : string -> json -> list (string * json) -> W -> option json * W.
Variable download : json -> W -> result (option (list segment)) * W.
Variable str : json -> string.

Lemma android_without_key_returns (html video_id : string) (w : W) :
  Str.contains "INNERTUBE_API_KEY" html = false ->
  Strategy.try_android_player post download html video_id w = (Ret None, w).
Proof.
  intros E. unfold Strategy.try_android_player.
  rewrite (api_key_absent _ E). reflexivity.
Qed.

Lemma youtubei_without_config_returns (html url : string) (w : W) :
  Str.contains "ytcfg.set" html = false ->
  Strategy.try_youtubei_transcript post str html url w = (Ret None, w).
Proof.
  unfold Str.contains. intros E.
  destruct (Str.find "ytcfg.set" html) eqn:F; [discriminate|].
  unfold Strategy.try_youtubei_transcript, extract_bootstrap_config.
  rewrite (find_ytcfg_absent _ F). reflexivity.
Qed.

(** X15. The strategy of the transcript endpoint returns [None] and
    leaves the world as it is (no request) when the page has no
    [ytcfg.set] call, and, for a configuration that is an object, when
    its API key or its context is missing or falsy or when the page
    holds no parameters of the endpoint. *)
Theorem youtubei_returns_before_request (html url : string) (w : W) :
  Str.contains "ytcfg.set" html = false \/
  (exists fields,
      extract_bootstrap_config html = Ret (Some (JObj fields)) /\
      (truthy (entry "INNERTUBE_API_KEY" fields) = false \/
       truthy (entry "INNERTUBE_CONTEXT" fields) = false \/
       Str.contains "getTranscriptEndpoint" html = false)) ->
  Strategy.try_youtubei_transcript post str html url w = (Ret None, w).
Proof.
  intros [E | (fields & Ec & Hcase)]; [apply youtubei_without_config_returns, E|].
  unfold Strategy.try_youtubei_transcript. rewrite Ec.
  destruct (negb (truthy (JObj fields))); [reflexivity|].
  unfold Strategy.youtubei_request. cbn [Py.get bind].
  fold (entry "INNERTUBE_API_KEY" fields). fold (entry "INNERTUBE_CONTEXT" fields).
  destruct (extract_transcript_params html) as [p|] eqn:Ep; [|reflexivity].
  destruct Hcase as [Hk | [Hx | Hp]].
  - rewrite Hk. reflexivity.
  - rewrite Hx, andb_false_r. reflexivity.
  - rewrite (transcript_params_absent _ Hp) in Ep. discriminate Ep.
Qed.

Lemma search_capture_nonempty (prefix : string) stop (closing s v : string) :
  search_capture prefix stop closing s = Some v -> v <> "".
Proof.
  assert (C : forall t, capture_at prefix stop closing t = Some v -> v <> "").
  { intros t. unfold capture_at. destruct (Str.startswith prefix t); [|discriminate].
    destruct (take_until stop _) as [x r].
    destruct (String.eqb x "") eqn:Ex; cbn [negb andb]; [discriminate|].
    destruct (Str.startswith closing r); [|discriminate].
    intros E. injection E as <-. apply eqb_false_neq, Ex. }
  induction s as [|c s IH]; cbn [search_capture];
    destruct (capture_at prefix stop closing _) eqn:E.
  - intros F. injection F as ->. apply (C _ E).
  - discriminate.
  - intros F. injection F as ->. apply (C _ E).
  - exact IH.
Qed.

(** X16. A configuration whose context has a [client] entry that is no
    object makes the strategy of the transcript endpoint raise
    [TypeError] at the assignment of [originalUrl], before any request;
    [main] does not catch it, so the run ends there, with the later
    strategies not tried. *)
Theorem main_raises_on_malformed_context (html video_id : string) (w : W)
    (log : list call) (fields ctx : list (string * json)) (key client : json)
    (p : string) :
  extract_bootstrap_config html = Ret (Some (JObj fields)) ->
  lookup "INNERTUBE_API_KEY" fields = Some key -> truthy key = true ->
  lookup "INNERTUBE_CONTEXT" fields = Some (JObj ctx) ->
  lookup "client" ctx = Some client -> (forall cf, client <> JObj cf) ->
  extract_transcript_params html = Some p ->
  main_chain (script_callees post download str) html video_id (w, log)
  = (Raise TypeError, (w, log ++ [{| who := Youtubei; yielded := false |}])).
Proof.
  intros Ec Hk Tk Hx Hcl Hno Ep.
  assert (Hp : String.eqb p "" = false).
  { apply String.eqb_neq. apply (search_capture_nonempty _ _ _ _ _ Ep). }
  assert (Tx : truthy (JObj ctx) = true) by (destruct ctx; [discriminate Hcl | reflexivity]).
  assert (Tf : truthy (JObj fields) = true) by (destruct fields; [discriminate Hk | reflexivity]).
  unfold main_chain, invoke. cbn [fst snd script_callees try_youtubei_transcript].
  unfold Strategy.try_youtubei_transcript. rewrite Ec, Tf. cbn [negb].
  unfold Strategy.youtubei_request. cbn [Py.get bind]. rewrite Hk, Hx, Ep, Tk, Tx, Hp.
  cbn [andb negb Strategy.has_client bind].
  rewrite Hcl. cbn [Strategy.set_original_url]. rewrite Hcl.
  destruct client; try reflexivity. exfalso. eapply Hno. reflexivity.
Qed.

(** X17. On a page that holds neither [ytcfg.set], nor the marker of the
    player response, nor the label of the API key, the chain of [main]
    invokes the first and the third strategy, both return [None]
    without calling the host, no download is made, and the run fails. *)
Theorem main_fails_without_markers (html video_id : string) (w : W) (log : list call) :
  Str.contains "ytcfg.set" html = false ->
  Str.contains token html = false ->
  Str.contains "INNERTUBE_API_KEY" html = false ->
  main_chain (script_callees post download str) html video_id (w, log)
  = (Ret FAILED,
     (w, log ++ [{| who := Youtubei; yielded := false |};
                 {| who := AndroidPlayer; yielded := false |}])).
Proof.
  intros Hy Ht Hk. unfold main_chain, invoke.
  cbn [fst snd script_callees try_youtubei_transcript try_android_player].
  rewrite (youtubei_without_config_returns _ _ _ Hy). cbn [has_segments fst snd].
  unfold try_caption_tracks, extract_initial_player_response.
  unfold Str.contains in Ht. destruct (Str.find token html); [discriminate Ht|].
  cbn [has_segments fst snd].
  rewrite (android_without_key_returns _ _ _ Hk). cbn [has_segments].
  rewrite <- app_assoc. reflexivity.
Qed.

(** X18. What the strategy of the transcript endpoint returns, when it
    returns segments, is what [parse_youtubei_response] returned for the
    answer of the host to the one request built from the configuration
    of the page; that answer was truthy, and the list is not empty. *)
Theorem youtubei_result_produced (html url : string) (w w' : W)
    (segments : list segment) :
  Strategy.try_youtubei_transcript post str html url w = (Ret (Some segments), w') ->
  exists config address payload headers data,
    extract_bootstrap_config html = Ret (Some config) /\
    truthy config = true /\
    Strategy.youtubei_request str config (extract_transcript_params html) url
    = Ret (Some (address, payload, headers)) /\
    post address payload headers w = (Some data, w') /\
    truthy data = true /\
    parse_youtubei_response data = Ret (Some segments) /\
    segments <> [].
Proof.
  unfold Strategy.try_youtubei_transcript.
  destruct (extract_bootstrap_config html) as [[config|]|]; try discriminate.
  destruct (truthy config) eqn:Tc; cbn [negb]; [|discriminate].
  destruct (Strategy.youtubei_request str config _ url) as [[[[a pl] hd]|]|] eqn:Er;
    try discriminate.
  destruct (post a pl hd w) as [[d|] w1] eqn:Ep; [|discriminate].
  destruct (truthy d) eqn:Td; cbn [negb]; [|discriminate].
  intros E. injection E as E <-.
  exists config, a, pl, hd, d.
  split; [reflexivity|]. split; [exact Tc|]. split; [exact Er|].
  split; [exact Ep|]. split; [exact Td|]. split; [exact E|].
  assert (Hp : produced (Some segments)) by (eapply produced_youtubei; exact E).
  destruct (produced_cases _ Hp) as [F | (l & F & _)]; [discriminate F|].
  intros ->. destruct l; discriminate F.
Qed.

End StrategyProofs.

Lemma download_first_recorded
    (answer : list json -> json -> result (option (list segment)))
    (tracks : list json) :
  forall (log log' : list json) (r : option (list segment)),
    Strategy.download_first (recording answer) tracks log = (Ret r, log') ->
    (r = None /\ log' = log ++ candidates tracks /\
     unanswered answer log (candidates tracks)) \/
    (has_segments r = true /\
     exists init u later,
       candidates tracks = init ++ u :: later /\
       unanswered answer log init /\
       answer (log ++ init) u = Ret r /\
       log' = log ++ init ++ [u]).
Proof.
  induction tracks as [|track rest IH]; intros log log' r;
    cbn [Strategy.download_first candidates].
  - intros E. injection E as <- <-. left. rewrite app_nil_r. repeat split.
  - destruct (track_url track) as [u|e]; [|discriminate].
    destruct (truthy u); cbn [negb]; [|apply IH].
    unfold recording at 1. destruct (answer log u) as [s|e] eqn:Ea; [|discriminate].
    destruct (has_segments s) eqn:Es.
    + intros E. injection E as <- <-. right. split; [exact Es|].
      exists [], u, (candidates rest). rewrite app_nil_r. cbn [app unanswered]. auto.
    + intros E. destruct (IH _ _ _ E) as [(-> & -> & Hu) | (Hr & init & v & later & Hc & Hu & Hv & ->)].
      * left. rewrite <- app_assoc. cbn [app unanswered]. eauto 6.
      * right. split; [exact Hr|]. exists (u :: init), v, later.
        rewrite Hc, <- !app_assoc in *. cbn [app unanswered] in *. eauto 8.
Qed.

(** X19. When the ANDROID strategy returns segments, they are what the
    download of one track address of the player's catalog yielded; the
    addresses ranked before it were downloaded first, in the order of the
    catalog, and yielded nothing; tracks without an address were skipped
    and no address after it was downloaded. *)
Theorem android_downloads_in_order
    (post : string -> json -> list (string * json) -> list json
            -> option json * list json)
    (answer : list json -> json -> result (option (list segment)))
    (html video_id : string) (log log' : list json) (segments : list segment) :
  Strategy.try_android_player post (recording answer) html video_id log
  = (Ret (Some segments), log') ->
  exists key data log1 tracks init u later,
    extract_innertube_api_key html = Some key /\
    post (Strategy.player_endpoint key) (Strategy.android_payload video_id) [] log
    = (Some data, log1) /\
    get_caption_tracks data = Ret tracks /\
    candidates tracks = init ++ u :: later /\
    unanswered answer log1 init /\
    answer (log1 ++ init) u = Ret (Some segments) /\
    segments <> [] /\
    log' = log1 ++ init ++ [u].
Proof.
  unfold Strategy.try_android_player.
  destruct (extract_innertube_api_key html) as [key|]; [|discriminate].
  destruct (String.eqb key ""); [discriminate|].
  destruct (post _ _ [] log) as [[data|] log1] eqn:Ep; [|discriminate].
  destruct (negb (truthy data)); [discriminate|].
  destruct (get_caption_tracks data) as [tracks|] eqn:Et; [|discriminate].
  intros E. apply download_first_recorded in E
    as [(F & _) | (Hr & init & u & later & Hc & Hu & Hv & ->)]; [discriminate F|].
  exists key, data, log1, tracks, init, u, later.
  repeat (split; [first [reflexivity | assumption]|]).
  split; [|reflexivity]. intros ->. discriminate Hr.
Qed.

Lemma youtubei_returns_before_request_witness :
  @Strategy.try_youtubei_transcript Ref.library nat
    (fun _ _ _ n => (None, S n)) (fun _ => "")
    Sample.page_plain "https://www.youtube.com/watch?v=dQw4w9WgXcQ" 0
  = (Ret None, 0).
Proof.
  apply (@youtubei_returns_before_request Ref.library). left. reflexivity.
Defined.

Lemma main_raises_on_malformed_context_witness :
  @main_chain Ref.library nat
    (@script_callees Ref.library nat (fun _ _ _ n => (None, S n)) (fun _ n => (Ret None, S n))
                    (fun _ => ""))
    Sample.page_bad_context "dQw4w9WgXcQ" (0, [])
  = (Raise TypeError, (0, [] ++ [{| who := Youtubei; yielded := false |}])).
Proof.
  eapply (@main_raises_on_malformed_context Ref.library);
    [vm_compute; reflexivity | reflexivity | reflexivity | reflexivity
    | reflexivity | intros cf; discriminate | vm_compute; reflexivity].
Defined.

Lemma main_fails_without_markers_witness :
  @main_chain Ref.library nat
    (@script_callees Ref.library nat (fun _ _ _ n => (None, S n)) (fun _ n => (Ret None, S n))
                    (fun _ => ""))
    Sample.page_plain "dQw4w9WgXcQ" (0, [])
  = (Ret FAILED,
     (0, [] ++ [{| who := Youtubei; yielded := false |};
                {| who := AndroidPlayer; yielded := false |}])).
Proof.
  apply (@main_fails_without_markers Ref.library); reflexivity.
Defined.

Lemma youtubei_result_produced_witness :
  exists config address payload headers data,
    @extract_bootstrap_config Ref.library Sample.page_config = Ret (Some config) /\
    truthy config = true /\
    Strategy.youtubei_request (fun _ => "") config
      (extract_transcript_params Sample.page_config)
      "https://www.youtube.com/watch?v=dQw4w9WgXcQ"
    = Ret (Some (address, payload, headers)) /\
    (Some Sample.youtubei, 1) = (Some data, 1) /\
    truthy data = true /\
    parse_youtubei_response data
    = Ret (Some [{| text := "Hi there"; start_ms := Some 1200%Z; end_ms := Some 2000%Z |}]) /\
    [{| text := "Hi there"; start_ms := Some 1200%Z; end_ms := Some 2000%Z |}] <> [].
Proof.
  apply (@youtubei_result_produced Ref.library nat
           (fun _ _ _ n => (Some Sample.youtubei, S n)) (fun _ => "")
           Sample.page_config "https://www.youtube.com/watch?v=dQw4w9WgXcQ" 0 1).
  vm_compute. reflexivity.
Defined.

Lemma android_downloads_in_order_witness :
  exists key data log1 tracks init u later,
    extract_innertube_api_key Sample.page_config = Some key /\
    (Some Sample.player_with_urls, @nil json) = (Some data, log1) /\
    get_caption_tracks data = Ret tracks /\
    candidates tracks = init ++ u :: later /\
    unanswered Sample.answer_french log1 init /\
    Sample.answer_french (log1 ++ init) u
    = Ret (Some [{| text := "Bonjour"; start_ms := Some 0%Z; end_ms := None |}]) /\
    [{| text := "Bonjour"; start_ms := Some 0%Z; end_ms := None |}] <> [] /\
    [JStr "https://host.example/en"; JStr "https://host.example/fr"]
    = log1 ++ init ++ [u].
Proof.
  apply (android_downloads_in_order
           (fun _ _ _ log => (Some Sample.player_with_urls, log))
           Sample.answer_french Sample.page_config "dQw4w9WgXcQ" []).
  vm_compute. reflexivity.
Defined.

(** *** What the requests carry *)

(** X20. The request of the transcript endpoint names the page: the
    [Referer] header is the URL of the page and, when the context of the
    configuration has a [client] object, the payload carries that
    context with [originalUrl] of the client set to the URL, every other
    entry of the client and of the context as it was; a context without
    [client] is sent unchanged. *)
Theorem youtubei_request_content (str : json -> string)
    (fields ctx : list (string * json)) (p url address : string)
    (payload : json) (headers : list (string * json)) :
  lookup "INNERTUBE_CONTEXT" fields = Some (JObj ctx) ->
  Strategy.youtubei_request str (JObj fields) (Some p) url
  = Ret (Some (address, payload, headers)) ->
  lookup "Referer" headers = Some (JStr url) /\
  lookup "Origin" headers = Some (JStr "https://www.youtube.com") /\
  exists ctx',
    payload = JObj [("context", JObj ctx'); ("params", JStr p)] /\
    (forall k, k <> "client" -> lookup k ctx' = lookup k ctx) /\
    match lookup "client" ctx with
    | None => ctx' = ctx
    | Some client =>
        exists fs fs',
          client = JObj fs /\ lookup "client" ctx' = Some (JObj fs') /\
          lookup "originalUrl" fs' = Some (JStr url) /\
          (forall k, k <> "originalUrl" -> lookup k fs' = lookup k fs)
    end.
Proof.
  intros Hx. unfold Strategy.youtubei_request. cbn [Py.get bind]. rewrite Hx.
  destruct (negb _); [discriminate|].
  cbn [Strategy.has_client Strategy.set_original_url bind].
  destruct (lookup "client" ctx) as [client|] eqn:Hc.
  - destruct client; try discriminate. cbn [bind].
    intros E. injection E as _ <- <-.
    split; [|split].
    + destruct (truthy _); destruct (truthy _);
        rewrite ?lookup_dict_set_other by discriminate; reflexivity.
    + destruct (truthy _); destruct (truthy _);
        rewrite ?lookup_dict_set_other by discriminate; reflexivity.
    + eexists. split; [reflexivity|]. split.
      * intros k Hk. apply lookup_dict_set_other. congruence.
      * eexists _, _. split; [reflexivity|]. split; [apply lookup_dict_set_same|].
        split; [apply lookup_dict_set_same|].
        intros k Hk. apply lookup_dict_set_other. congruence.
  - cbn [bind]. intros E. injection E as _ <- <-.
    split; [|split].
    + destruct (truthy _); destruct (truthy _);
        rewrite ?lookup_dict_set_other by discriminate; reflexivity.
    + destruct (truthy _); destruct (truthy _);
        rewrite ?lookup_dict_set_other by discriminate; reflexivity.
    + exists ctx. auto.
Qed.

Lemma youtubei_request_content_witness :
  exists address payload headers,
    Strategy.youtubei_request (fun _ => "")
      (JObj [("INNERTUBE_API_KEY", JStr "AIza_1");
             ("INNERTUBE_CONTEXT",
              JObj [("client", JObj [("hl", JStr "en")]); ("user", JObj [])])])
      (Some "CgtX") "https://www.youtube.com/watch?v=dQw4w9WgXcQ"
    = Ret (Some (address, payload, headers)) /\
    lookup "Referer" headers = Some (JStr "https://www.youtube.com/watch?v=dQw4w9WgXcQ") /\
    payload
    = JObj [("context",
             JObj [("client",
                    JObj [("hl", JStr "en");
                          ("originalUrl",
                           JStr "https://www.youtube.com/watch?v=dQw4w9WgXcQ")]);
                   ("user", JObj [])]);
            ("params", JStr "CgtX")].
Proof.
  eexists _, _, _. split; [reflexivity|].
  split; [|reflexivity].
  refine (proj1 (youtubei_request_content (fun _ => "")
                   [("INNERTUBE_API_KEY", JStr "AIza_1");
                    ("INNERTUBE_CONTEXT",
                     JObj [("client", JObj [("hl", JStr "en")]); ("user", JObj [])])]
                   [("client", JObj [("hl", JStr "en")]); ("user", JObj [])]
                   "CgtX" "https://www.youtube.com/watch?v=dQw4w9WgXcQ" _ _ _
                   eq_refl eq_refl)).
Defined.

Lemma lookup_app {A : Type} (k : string) (a b : list (string * A)) :
  lookup k (a ++ b) = match lookup k a with Some v => Some v | None => lookup k b end.
Proof.
  induction a as [|[j w] a IH]; cbn [app lookup]; [reflexivity|].
  destruct (String.eqb j k); [reflexivity | exact IH].
Qed.

(** After an update, a key has the value of its last assignment, and its
    former value when the update does not assign it. *)
Lemma lookup_dict_update {A : Type} (k : string) (other d : list (string * A)) :
  lookup k (dict_update d other)
  = match lookup k (rev other) with Some v => Some v | None => lookup k d end.
Proof.
  unfold dict_update. revert d.
  induction other as [|[k0 v0] rest IH]; intros d; cbn [fold_left rev fst snd];
    [reflexivity|].
  rewrite IH, lookup_app. destruct (lookup k (rev rest)); [reflexivity|].
  cbn [lookup]. destruct (String.eqb k0 k) eqn:E.
  - apply String.eqb_eq in E. subst k0. apply lookup_dict_set_same.
  - apply String.eqb_neq in E. apply lookup_dict_set_other, E.
Qed.

Lemma lookup_absent {A : Type} (k : string) (l : list (string * A)) :
  ~ In k (map fst l) -> lookup k l = None.
Proof.
  induction l as [|[j w] l IH]; cbn [map fst In lookup]; [reflexivity|].
  intros N. destruct (String.eqb j k) eqn:E.
  - apply String.eqb_eq in E. tauto.
  - apply IH. tauto.
Qed.

Lemma lookup_rev_unique {A : Type} (k : string) (l : list (string * A)) :
  NoDup (map fst l) -> lookup k (rev l) = lookup k l.
Proof.
  induction l as [|[j w] l IH]; cbn [map fst rev lookup]; [reflexivity|].
  intros N. inversion N as [|? ? Hj Hl]; subst.
  rewrite lookup_app, (IH Hl). cbn [lookup].
  destruct (String.eqb j k) eqn:E.
  - apply String.eqb_eq in E. subst j. rewrite (lookup_absent _ _ Hj). reflexivity.
  - destruct (lookup k l); reflexivity.
Qed.

Lemma dict_set_keys {A : Type} (k : string) (v : A) (l : list (string * A)) (j : string) :
  In j (map fst (dict_set k v l)) <-> j = k \/ In j (map fst l).
Proof.
  induction l as [|[i w] l IH]; cbn [dict_set map fst In].
  - intuition congruence.
  - destruct (String.eqb i k) eqn:E; cbn [map fst In].
    + apply String.eqb_eq in E. subst i. intuition congruence.
    + rewrite IH. intuition congruence.
Qed.

Lemma dict_set_unique {A : Type} (k : string) (v : A) (l : list (string * A)) :
  NoDup (map fst l) -> NoDup (map fst (dict_set k v l)).
Proof.
  induction l as [|[i w] l IH]; cbn [dict_set map fst]; intros N.
  - constructor; [intros [] | constructor].
  - inversion N as [|? ? Hi Hl]; subst.
    destruct (String.eqb i k) eqn:E; cbn [map fst].
    + constructor; assumption.
    + constructor; [|apply IH, Hl].
      rewrite dict_set_keys. apply String.eqb_neq in E. intuition congruence.
Qed.

Lemma dict_update_unique {A : Type} (other d : list (string * A)) :
  NoDup (map fst d) -> NoDup (map fst (dict_update d other)).
Proof.
  unfold dict_update. revert d.
  induction other as [|[k v] rest IH]; intros d N; cbn [fold_left fst snd]; [exact N|].
  apply IH, dict_set_unique, N.
Qed.

(** X21. The one request of [fetch_json] goes to the given address; it
    posts the encoded payload when the payload is truthy and has no body
    otherwise; each of its headers has the value given by the caller's
    extra headers, else the JSON content type and accept headers, else
    the browser headers of the script. *)
Theorem fetch_json_request `{Library} (json_dumps : json -> string) (www : web)
    (url : string) (payload : json) (extra_headers : list (string * json))
    (log : list request) :
  exists req,
    snd (fetch_json json_dumps www url payload extra_headers log) = log ++ [req] /\
    req_url req = url /\
    req_data req = (if truthy payload then Some (json_dumps payload) else None) /\
    forall k,
      lookup k (req_headers req)
      = match lookup k (rev extra_headers) with
        | Some v => Some v
        | None =>
            match lookup k [("Content-Type", JStr "application/json");
                            ("Accept", JStr "application/json")] with
            | Some v => Some v
            | None => lookup k REQUEST_HEADERS
            end
        end.
Proof.
  unfold fetch_json. eexists (Build_request url _ _). cbn [snd].
  split; [reflexivity|]. split; [reflexivity|]. split; [reflexivity|].
  intros k. cbn [req_headers]. rewrite lookup_dict_update, lookup_rev_unique.
  - rewrite lookup_dict_update. destruct (lookup k (rev extra_headers)); reflexivity.
  - apply dict_update_unique. repeat constructor; cbn [In]; intuition discriminate.
Qed.

(** *** The compact format on the events the host writes *)

Lemma collect_utf8_fragments (segs : list json) (fragments : list string) :
  Forall2 fragment_reads segs fragments ->
  collect_utf8 segs
  = Ret (map JStr (filter (fun f => negb (String.eqb f "")) fragments)).
Proof.
  induction 1 as [|seg f segs fragments (fields & -> & Hu) _ IH];
    cbn [map collect_utf8 filter]; [reflexivity|].
  cbn [Py.get bind]. rewrite Hu, IH. cbn [bind truthy].
  destruct (String.eqb f ""); reflexivity.
Qed.

Lemma strings_of_strings (l : list string) : strings_of (map JStr l) = Ret l.
Proof.
  induction l as [|s l IH]; cbn [map strings_of]; [reflexivity|].
  rewrite IH. reflexivity.
Qed.

Lemma join_without_empty (l : list string) :
  Str.join (filter (fun f => negb (String.eqb f "")) l) = Str.join l.
Proof.
  unfold Str.join. induction l as [|s l IH]; cbn [filter fold_right]; [reflexivity|].
  destruct (String.eqb s "") eqn:E; cbn [negb fold_right]; rewrite IH; [|reflexivity].
  apply String.eqb_eq in E. subst s. reflexivity.
Qed.

Lemma json3_event_reads (event : json) (e : list string * Z * Z) :
  event_reads event e ->
  json3_event event
  = Ret (match segment_of e with s :: _ => Some s | [] => None end).
Proof.
  destruct e as [[fragments start] duration].
  intros (fields & segs & -> & Hs & Hf & Ht & Hd). cbn [fst snd] in *.
  unfold json3_event, segment_of. cbn [Py.get bind]. rewrite Hs, Ht, Hd.
  destruct Hf as [|seg f segs fragments Hseg Hf]; [reflexivity|].
  cbn [truthy negb Py.iter bind].
  rewrite (collect_utf8_fragments (seg :: segs) (f :: fragments))
    by (constructor; assumption).
  cbn [bind]. rewrite strings_of_strings. cbn [bind]. rewrite join_without_empty.
  destruct (String.eqb (Str.strip (Str.join (f :: fragments))) ""); reflexivity.
Qed.

Lemma json3_events_read (events : list json) (es : list (list string * Z * Z)) :
  Forall2 event_reads events es ->
  json3_events events = Ret (flat_map segment_of es).
Proof.
  induction 1 as [|event e events es He _ IH]; cbn [json3_events flat_map]; [reflexivity|].
  rewrite (json3_event_reads _ _ He), IH. cbn [bind].
  destruct e as [[fragments start] duration]. unfold segment_of.
  destruct (String.eqb _ ""); reflexivity.
Qed.

(** X2. On a document of the compact format as the host writes it (an
    object with the list [events], every event an object with its
    fragments, an integer start and an integer duration, the keys in any
    order and among any others) the parser raises nothing and returns
    the segments of the events in the order of the document, one for
    every event whose fragments put together are not blank: the text
    normalized, the start, and the start plus the duration; [None] when
    no event has a text. *)
Theorem json3_segments_in_order `{Library} (raw : string)
    (fields : list (string * json)) (events : list json)
    (es : list (list string * Z * Z)) :
  json_loads raw = Ret (JObj fields) ->
  lookup "events" fields = Some (JArr events) ->
  Forall2 event_reads events es ->
  parse_json3_transcript raw = Ret (nonempty_or_none (flat_map segment_of es)).
Proof.
  intros E Hl Hes. unfold parse_json3_transcript. rewrite E.
  unfold parse_json3_data. cbn [Py.get bind]. rewrite Hl.
  destruct Hes as [|event e events es He Hes]; [reflexivity|].
  cbn [truthy negb Py.iter bind].
  rewrite (json3_events_read (event :: events) (e :: es)) by (constructor; assumption).
  reflexivity.
Qed.

Lemma json3_segments_in_order_witness :
  @parse_json3_transcript Ref.library Sample.json3_reordered
  = Ret (Some [{| text := "Hello world"; start_ms := Some 1000%Z; end_ms := Some 1500%Z |};
               {| text := "again"; start_ms := Some 3000%Z; end_ms := Some 3250%Z |}]).
Proof.
  eapply (@json3_segments_in_order Ref.library Sample.json3_reordered _ _
            [(["Hello "; "world"], 1000%Z, 500%Z); ([" "; ""], 2000%Z, 100%Z);
             ([" again "], 3000%Z, 250%Z)]).
  - vm_compute. reflexivity.
  - reflexivity.
  - repeat (constructor;
            [eexists _, _; split; [reflexivity|]; split; [reflexivity|];
             split; [|split; reflexivity];
             repeat (constructor; [eexists; split; reflexivity|]); constructor|]).
    constructor.
Defined.

(** *** The player response, when it is there *)

Lemma find_char_after (x : ascii) (pre rest : string) :
  Str.contains (String x "") pre = false ->
  Str.find (String x "") (pre ++ String x rest) = Some (String.length pre).
Proof.
  unfold Str.contains. induction pre as [|c pre IH]; intros E.
  - cbn [String.append Str.find Str.startswith]. rewrite Ascii.eqb_refl. reflexivity.
  - cbn [Str.find Str.startswith String.append String.length] in *.
    destruct (Ascii.eqb x c); cbn [andb] in *; [discriminate E|].
    destruct (Str.find (String x "") pre) eqn:F; [discriminate E|].
    rewrite (IH eq_refl). reflexivity.
Qed.

(** X22. On a page in which the first occurrence of the marker is
    followed, after a text without an equals sign, by an equals sign and,
    after a text without a brace, by an object whose inside is balanced,
    the player response is that object decoded: [None] when the decoder
    rejects it as invalid JSON, while any other exception of the decoder
    leaves the function. *)
Theorem player_response_located `{Library}
    (html before mid pre inner rest : string) :
  html = (before ++ token ++ mid
            ++ String "=" (pre ++ String "{" (inner ++ String "}" rest)))%string ->
  Str.find token html = Some (String.length before) ->
  Str.contains "=" mid = false ->
  Str.contains "{" pre = false ->
  balanced inner ->
  extract_initial_player_response html
  = match json_loads (String "{" (inner ++ "}")) with
    | Ret v => Ret (Some v)
    | Raise JSONDecodeError => Ret None
    | Raise e => Raise e
    end.
Proof.
  intros -> Hf Hm Hpre Hb. unfold extract_initial_player_response. rewrite Hf.
  assert (Heq : Str.find_from "="
                  (before ++ token ++ mid
                     ++ String "=" (pre ++ String "{" (inner ++ String "}" rest)))
                  (String.length before)
                = Some (String.length (before ++ token ++ mid))).
  { unfold Str.find_from. rewrite append_length.
    replace (Nat.leb (String.length before) _) with true
      by (symmetry; apply Nat.leb_le; lia).
    rewrite drop_append, <- append_assoc, find_char_after.
    - cbn [option_map]. rewrite !append_length. reflexivity.
    - apply no_char_not_contained. rewrite all_append. apply andb_true_iff. split.
      + reflexivity.
      + unfold Str.contains in Hm. clear -Hm.
        induction mid as [|c mid IH]; [reflexivity|].
        cbn [Str.find Str.startswith Str.all] in *.
        destruct (Ascii.eqb "=" c); cbn [andb negb] in *; [discriminate Hm|].
        apply IH. destruct (Str.find "=" mid); [discriminate Hm | reflexivity]. }
  rewrite Heq.
  assert (Hp : Str.contains "{" (String "=" pre) = false).
  { unfold Str.contains in *. cbn [Str.find Str.startswith].
    change (Ascii.eqb "{" "=") with false. cbn [andb].
    destruct (Str.find "{" pre); [discriminate Hpre | reflexivity]. }
  pose proof (object_behind (before ++ token ++ mid) (String "=" pre) inner rest Hp Hb) as E.
  rewrite !append_assoc in E. cbn [String.append] in E. cbn [String.append].
  rewrite E. reflexivity.
Qed.

Lemma player_response_located_witness :
  @extract_initial_player_response Ref.library
    ("<script>var " ++ token ++ " " ++ String "=" (" " ++ String "{" (Sample.inner ++ String "}" ";</script>")))
  = match @json_loads Ref.library (String "{" (Sample.inner ++ "}")) with
    | Ret v => Ret (Some v)
    | Raise JSONDecodeError => Ret None
    | Raise e => Raise e
    end.
Proof.
  apply (player_response_located _ "<script>var " " " " " Sample.inner ";</script>");
    try reflexivity.
  apply (balanced_string dquote dquote "k" (Str.lit ":`}\`{`")); try reflexivity.
  - apply body_char; try reflexivity. apply body_end.
  - apply balanced_char; try reflexivity.
    apply (balanced_string dquote dquote (Str.lit "}\`{") ""); try reflexivity;
      [|apply balanced_end].
    apply body_char; try reflexivity.
    apply (body_escape dquote). apply body_char; try reflexivity. apply body_end.
Defined.
